(** * Operator views on orders (pretix/control/views/orders.py)

    A shallow embedding of the order views of the control panel:
    [OrderTransition], [OrderInvoiceRegenerate], [OrderInvoiceReissue],
    [OrderExtend], [OrderChange] and [OrderContactChange].

    A view is a computation over the state a request can reach: the model
    instance [self.order], its stored row, the tables of positions, invoices,
    cached tickets and audit entries, and the messages shown to the operator.
    Python exceptions are results of the computation; what was written before
    an exception is raised stays written, as in Python.

    The services of [pretix.base] that the views call are not part of the
    sources at hand. Those whose behaviour the specification fixes are
    modelled from it and say so; the change manager is an interface the views
    are embedded over; forms, inventory, lock, mail and random secrets are
    read from an environment. Every call on a collaborator leaves an [Effect]
    in the record of the request, so that what was called, and in which
    order, can be stated. *)

From Stdlib Require Import String Ascii List ZArith Bool Lia.
Import ListNotations.
Local Open Scope string_scope.
Local Open Scope list_scope.
Local Open Scope Z_scope.

(** ** Python values that travel through URL arguments and audit payloads *)

Inductive PyVal :=
| VNone
| VBool (b : bool)
| VInt (n : Z)
| VStr (s : string).

(** A [dict] whose iteration order is observable: keys in insertion order. *)
Definition Dict (V : Type) := list (string * V).

Fixpoint dict_get {V} (d : Dict V) (k : string) : option V :=
  match d with
  | [] => None
  | (k', v) :: d' => if String.eqb k k' then Some v else dict_get d' k
  end.

Definition dict_get_default {V} (d : Dict V) (k : string) (dflt : V) : V :=
  match dict_get d k with Some v => v | None => dflt end.

Definition keys {V} (d : Dict V) : list string := map fst d.

(** ** The models *)

Module Order.
Inductive Status :=
| STATUS_PENDING
| STATUS_PAID
| STATUS_EXPIRED
| STATUS_CANCELED
| STATUS_REFUNDED.

Definition status_eqb (a b : Status) : bool :=
  match a, b with
  | STATUS_PENDING, STATUS_PENDING
  | STATUS_PAID, STATUS_PAID
  | STATUS_EXPIRED, STATUS_EXPIRED
  | STATUS_CANCELED, STATUS_CANCELED
  | STATUS_REFUNDED, STATUS_REFUNDED => true
  | _, _ => false
  end.

Record t := mk {
  code : string;
  status : Status;
  expires : Z;
  email : string;
  secret : string;
  payment_manual : bool
}.

(** [o.status in (...)] *)
Definition status_in (o : t) (l : list Status) : bool :=
  existsb (status_eqb (status o)) l.

Definition with_status (s : Status) (o : t) : t :=
  mk (code o) s (expires o) (email o) (secret o) (payment_manual o).
Definition with_expires (e : Z) (o : t) : t :=
  mk (code o) (status o) e (email o) (secret o) (payment_manual o).
Definition with_email (e : string) (o : t) : t :=
  mk (code o) (status o) (expires o) e (secret o) (payment_manual o).
Definition with_secret (s : string) (o : t) : t :=
  mk (code o) (status o) (expires o) (email o) s (payment_manual o).
Definition with_payment_manual (b : bool) (o : t) : t :=
  mk (code o) (status o) (expires o) (email o) (secret o) b.
End Order.

Module OrderPosition.
Record t := mk {
  pk : Z;
  order : string;              (* code of the owning order *)
  item : Z;
  variation : option Z;
  subevent : option Z;
  price : Z;
  secret : string
}.

Definition with_secret (s : string) (p : t) : t :=
  mk (pk p) (order p) (item p) (variation p) (subevent p) (price p) s.
End OrderPosition.

Module Item.
Record t := mk { pk : Z; event : string }.
End Item.

Module ItemVariation.
Record t := mk { pk : Z; item : Z }.
End ItemVariation.

Module Invoice.
Record t := mk {
  pk : Z;
  order : string;              (* code of the order it belongs to *)
  canceled : bool;
  is_cancellation : bool;
  refers : option Z
}.

Definition with_canceled (b : bool) (i : t) : t :=
  mk (pk i) (order i) b (is_cancellation i) (refers i).
End Invoice.

Module CachedTicket.
Record t := mk { order_position : Z; provider : string }.
End CachedTicket.

Module LogEntry.
Record t := mk {
  action_type : string;
  user : option string;
  data : Dict PyVal
}.
End LogEntry.

(** ** Exceptions, messages, responses *)

Inductive Exn :=
| QuotaExceededException (msg : string)
| SendMailException
| LockTimeoutException
| OrderError (msg : string)
| DoesNotExist
| ValueError.

Inductive Level := SUCCESS | WARNING | ERROR.

Definition Message : Type := Level * string.

Inductive Url :=
| OrderUrl (organizer event code : string)
| OtherUrl (target : string).

Inductive Response :=
| Redirect (to : Url)
| Render (template : string)
| HttpResponseNotAllowed (permitted : list string).

Record Request := mkRequest {
  method : string;
  POST : Dict string;
  GET : Dict string;
  user : string;
  event_slug : string;
  organizer_slug : string
}.

(** ** Availability of inventory *)

Inductive Availability :=
| Available
| Unavailable (reason : string).

(** ** What a request does to its collaborators, in the order it happens *)

Inductive Effect :=
| EvLockAcquired
| EvLockReleased
| EvLockTimeout
| EvAvailability (position : Z) (result : Availability)
| EvLog (action_type : string)
| EvMail (delivered : bool)
| EvCancellation (of_invoice record : Z)
| EvInvoice (invoice : Z)
| EvManagerCreated
| EvManagerCall (target : option Z) (raised : option string)
| EvCommit (raised : option Exn).

Definition is_lock_effect (e : Effect) : bool :=
  match e with
  | EvLockAcquired | EvLockReleased | EvLockTimeout => true
  | _ => false
  end.

Definition is_availability_effect (e : Effect) : bool :=
  match e with EvAvailability _ _ => true | _ => false end.

(** ** State *)

(** What the collaborators of a view can reach. [order] is the model instance
    that [OrderView.order] caches and hands to every service; [order_row] is
    what storage holds for it and changes only on [save()]. [draws] counts
    the secrets drawn so far. *)
Record Store := mkStore {
  order : Order.t;
  order_row : Order.t;
  positions : list OrderPosition.t;
  invoices : list Invoice.t;
  tickets : list CachedTicket.t;
  log : list LogEntry.t;
  draws : nat
}.

Definition with_order (o : Order.t) (w : Store) : Store :=
  mkStore o (order_row w) (positions w) (invoices w) (tickets w) (log w) (draws w).
Definition with_order_row (o : Order.t) (w : Store) : Store :=
  mkStore (order w) o (positions w) (invoices w) (tickets w) (log w) (draws w).
Definition with_positions (ps : list OrderPosition.t) (w : Store) : Store :=
  mkStore (order w) (order_row w) ps (invoices w) (tickets w) (log w) (draws w).
Definition with_invoices (l : list Invoice.t) (w : Store) : Store :=
  mkStore (order w) (order_row w) (positions w) l (tickets w) (log w) (draws w).
Definition with_tickets (l : list CachedTicket.t) (w : Store) : Store :=
  mkStore (order w) (order_row w) (positions w) (invoices w) l (log w) (draws w).
Definition with_log (l : list LogEntry.t) (w : Store) : Store :=
  mkStore (order w) (order_row w) (positions w) (invoices w) (tickets w) l (draws w).
Definition with_draws (n : nat) (w : Store) : Store :=
  mkStore (order w) (order_row w) (positions w) (invoices w) (tickets w) (log w) n.

(** The state of a request. Beside the shared part: the messages for the
    operator, the [custom_error] attributes the view sets on the add form and
    on positions, and the record of what the request did, which no
    collaborator can read or write. *)
Record St := mkSt {
  store : Store;
  messages : list Message;
  add_form_custom_error : option string;
  custom_error : list (Z * string);
  trace : list Effect
}.

Definition with_store (w : Store) (s : St) : St :=
  mkSt w (messages s) (add_form_custom_error s) (custom_error s) (trace s).
Definition with_messages (l : list Message) (s : St) : St :=
  mkSt (store s) l (add_form_custom_error s) (custom_error s) (trace s).
Definition with_add_form_custom_error (e : option string) (s : St) : St :=
  mkSt (store s) (messages s) e (custom_error s) (trace s).
Definition with_custom_error (l : list (Z * string)) (s : St) : St :=
  mkSt (store s) (messages s) (add_form_custom_error s) l (trace s).
Definition with_trace (l : list Effect) (s : St) : St :=
  mkSt (store s) (messages s) (add_form_custom_error s) (custom_error s) l.

(** ** Computations that may raise *)

Inductive Result (A : Type) :=
| Ret (a : A)
| Raise (e : Exn).
Arguments Ret {A} a.
Arguments Raise {A} e.

Definition Eff (S A : Type) : Type := S -> Result A * S.

Definition ret {S A} (a : A) : Eff S A := fun s => (Ret a, s).

Definition raise {S A} (e : Exn) : Eff S A := fun s => (Raise e, s).

Definition bind {S A B} (c : Eff S A) (k : A -> Eff S B) : Eff S B :=
  fun s =>
    match c s with
    | (Ret a, s') => k a s'
    | (Raise e, s') => (Raise e, s')
    end.

Declare Scope eff_scope.
Delimit Scope eff_scope with eff.
Notation "x <- c ;; k" := (bind c (fun x => k))
  (at level 100, c at next level, right associativity) : eff_scope.
Notation "c ;; k" := (bind c (fun _ => k))
  (at level 100, right associativity) : eff_scope.
Local Open Scope eff_scope.

(** [try: body  except <handled>: handler  else: orelse]. An exception for
    which [handler] answers [None] is not caught; one raised by [orelse] or
    by a handler is not caught either. *)
Definition try_except_else {S A B} (body : Eff S A)
    (handler : Exn -> option (Eff S B)) (orelse : A -> Eff S B) : Eff S B :=
  fun s =>
    match body s with
    | (Ret a, s') => orelse a s'
    | (Raise e, s') =>
        match handler e with
        | Some h => h s'
        | None => (Raise e, s')
        end
    end.

(** [try: body  finally: cleanup], the shape of a context manager's exit. *)
Definition try_finally {S A} (body : Eff S A) (cleanup : Eff S unit) : Eff S A :=
  fun s =>
    match body s with
    | (r, s') =>
        match cleanup s' with
        | (Ret _, s'') => (r, s'')
        | (Raise e, s'') => (Raise e, s'')
        end
    end.

Definition gets {S A} (f : S -> A) : Eff S A := fun s => (Ret (f s), s).

Definition modify {S} (f : S -> S) : Eff S unit := fun s => (Ret tt, f s).

(** A collaborator that sees the shared part of the state only. *)
Definition lift {A} (c : Eff Store A) : Eff St A :=
  fun s => match c (store s) with (r, w) => (r, with_store w s) end.

(** Reading and writing the part of the state the services share. *)
Definition ask {A} (f : Store -> A) : Eff St A := gets (fun s => f (store s)).

Definition update (f : Store -> Store) : Eff St unit :=
  modify (fun s => with_store (f (store s)) s).

Definition emit (e : Effect) : Eff St unit :=
  modify (fun s => with_trace (trace s ++ [e]) s).


(** ** The deployment a request runs in

    What the views read but never write: the inventory's answer, whether the
    event lock is obtained within its bound, whether mail goes out, the random
    secrets, the catalogue, the cleaning functions of the forms of
    [pretix.control.forms.orders], and the payment provider plug-in. *)

Record AddData := mkAddData {
  add_do : bool;
  add_itemvar : string;
  add_price : option Z;
  add_addon_to : option Z;
  add_subevent : option Z
}.

Record ChangeData := mkChangeData {
  operation : string;
  itemvar : string;
  price : Z;
  subevent : option Z
}.

Record ContactData := mkContactData {
  new_email : string;
  regenerate_secrets : bool
}.

Record Env := mkEnv {
  CheckAvailability : Z -> option Z -> option Z -> Z -> Availability;
  lock_acquired : bool;
  now : Z;
  mail_delivered : bool;
  generate_secret : nat -> string;
  generate_position_secret : nat -> string;
  Item_objects : list Item.t;
  ItemVariation_objects : list ItemVariation.t;
  ExtendForm : Dict string -> option Z;
  OrderContactForm : Dict string -> option ContactData;
  OrderPositionAddForm : Dict string -> option AddData;
  OrderPositionChangeForm : Dict string -> OrderPosition.t -> option ChangeData;
  order_control_refund_perform : Request -> Eff Store (option Url)
}.

(** ** django.contrib.messages *)

Definition add_message (l : Level) (text : string) : Eff St unit :=
  modify (fun s => with_messages (messages s ++ [(l, text)]) s).

Definition messages_success := add_message SUCCESS.
Definition messages_warning := add_message WARNING.
Definition messages_error := add_message ERROR.

(** ** Services of pretix.base *)

(** [Model.save()] on [self.order]. *)
Definition save : Eff St unit :=
  update (fun w => with_order_row (order w) w).

(** Modelled from the spec: [Order.log_action] is absent from the sources.
    Section 6, Audit Log: [Append(entityRef, actionKey, actorRef,
    structuredPayload, timestamp)], append-only. *)
Definition log_action (action : string) (actor : option string) (payload : Dict PyVal)
    : Eff St unit :=
  update (fun w => with_log (log w ++ [LogEntry.mk action actor payload]) w) ;;
  emit (EvLog action).

(** Modelled from the spec: [Event.lock] is absent from the sources.
    Section 5: a timeout-bounded lock scoped to one sales event, with a
    bounded wait and a distinguishable failure, [LockTimeoutException]. As a
    context manager it hands the time of acquisition to its body and is
    released however the body ends. *)
Definition lock {A} (env : Env) (body : Z -> Eff St A) : Eff St A :=
  if lock_acquired env then
    emit EvLockAcquired ;;
    try_finally (body (now env)) (emit EvLockReleased)
  else
    emit EvLockTimeout ;;
    raise LockTimeoutException.

(** Modelled from the spec: the loop inside [Order._is_still_available].
    Section 4.1: [CheckAvailability(item, variation, dateInstance, asOfTime)],
    asked for the positions in turn until one is unavailable. *)
Fixpoint check_positions (env : Env) (now_dt : Z) (ps : list OrderPosition.t)
    : Eff St Availability :=
  match ps with
  | [] => ret Available
  | p :: rest =>
      let a := CheckAvailability env (OrderPosition.item p) (OrderPosition.variation p)
                 (OrderPosition.subevent p) now_dt in
      emit (EvAvailability (OrderPosition.pk p) a) ;;
      match a with
      | Available => check_positions env now_dt rest
      | Unavailable reason => ret (Unavailable reason)
      end
  end.

(** [order.positions.all()] *)
Definition positions_of (o : Order.t) (ps : list OrderPosition.t) : list OrderPosition.t :=
  filter (fun p => String.eqb (OrderPosition.order p) (Order.code o)) ps.

(** Modelled from the spec: [Order._is_still_available] is absent from the
    sources. Section 4.4: availability is re-validated for every existing
    Position of the order; the answer is [True] (here [Available]) or the
    reason of the first Position whose inventory is exhausted. *)
Definition _is_still_available (env : Env) (now_dt : Z) : Eff St Availability :=
  o <- ask order ;;
  ps <- ask positions ;;
  check_positions env now_dt (positions_of o ps).

(** Modelled from the spec: [pretix.base.services.mail] is absent from the
    sources. Section 6, Notification Dispatcher: [Send(...) -> ok |
    fails(DeliveryError)]. *)
Definition mail (env : Env) : Eff St unit :=
  emit (EvMail (mail_delivered env)) ;;
  if mail_delivered env then ret tt else raise SendMailException.

(** Modelled from the spec: [mark_order_paid] is absent from the sources.
    Section 4.2: the transition succeeds only if quota is still available for
    every Position at the moment of confirmation; on quota failure it is
    aborted with [QuotaExceededException] carrying the capacity that was
    exceeded and the order remains unpaid; it emits one audit entry. Section 5:
    the check and the status change happen under the event lock, the
    notification after the lock is released, so that its failure never undoes
    the status change. *)
Definition mark_order_paid (env : Env) (manual : bool) (actor : string) : Eff St unit :=
  lock env (fun now_dt =>
    a <- _is_still_available env now_dt ;;
    match a with
    | Unavailable reason => raise (QuotaExceededException reason)
    | Available =>
        update (fun w => with_order (Order.with_status Order.STATUS_PAID (order w)) w) ;;
        save ;;
        log_action "pretix.event.order.paid" (Some actor) []
    end) ;;
  mail env.

(** Modelled from the spec: [cancel_order] is absent from the sources.
    Section 4.2: [Pending -> Canceled] is always permitted, emits one audit
    entry and triggers at most one notification, whose failure does not roll
    back the state change. *)
Definition cancel_order (env : Env) (actor : string) (send_mail : bool) : Eff St unit :=
  lock env (fun _ =>
    update (fun w => with_order (Order.with_status Order.STATUS_CANCELED (order w)) w) ;;
    save ;;
    log_action "pretix.event.order.canceled" (Some actor) []) ;;
  if send_mail then emit (EvMail (mail_delivered env)) else ret tt.

(** ** OrderView *)

Module OrderView.

(** [get_order_url] and [_redirect_back] name the same route,
    [control:event.order], with the same three arguments. *)
Definition get_order_url (request : Request) : Eff St Url :=
  o <- ask order ;;
  ret (OrderUrl (organizer_slug request) (event_slug request) (Order.code o)).

Definition _redirect_back (request : Request) : Eff St Response :=
  o <- ask order ;;
  ret (Redirect (OrderUrl (organizer_slug request) (event_slug request) (Order.code o))).

End OrderView.

(** ** OrderTransition *)

Module OrderTransition.

(** The body of the [if]/[elif] chain. [Some r] is the early [return
    redirect(ret)] of the refund branch. *)
Definition transition (env : Env) (request : Request) (o : Order.t) (to : string)
    : Eff St (option Response) :=
  if Order.status_in o [Order.STATUS_PENDING; Order.STATUS_EXPIRED] && String.eqb to "p" then
    try_except_else
      (mark_order_paid env true (user request))
      (fun e =>
         match e with
         | QuotaExceededException msg => Some (messages_error msg)
         | SendMailException =>
             Some (messages_warning
               "The order has been marked as paid, but we were unable to send a confirmation mail.")
         | _ => None
         end)
      (fun _ => messages_success "The order has been marked as paid.") ;;
    ret None
  else if Order.status_eqb (Order.status o) Order.STATUS_PENDING && String.eqb to "c" then
    cancel_order env (user request)
            (match dict_get (POST request) "send_email" with
             | Some v => String.eqb v "on"
             | None => false
             end) ;;
    messages_success "The order has been canceled." ;;
    ret None
  else if Order.status_eqb (Order.status o) Order.STATUS_PAID && String.eqb to "n" then
    update (fun w =>
      with_order (Order.with_payment_manual true
                    (Order.with_status Order.STATUS_PENDING (order w))) w) ;;
    save ;;
    log_action "pretix.event.order.unpaid" (Some (user request)) [] ;;
    messages_success "The order has been marked as not paid." ;;
    ret None
  else if Order.status_eqb (Order.status o) Order.STATUS_PENDING && String.eqb to "e" then
    update (fun w => with_order (Order.with_status Order.STATUS_EXPIRED (order w)) w) ;;
    save ;;
    log_action "pretix.event.order.expired" (Some (user request)) [] ;;
    messages_success "The order has been marked as expired." ;;
    ret None
  else if Order.status_eqb (Order.status o) Order.STATUS_PAID && String.eqb to "r" then
    r <- lift (order_control_refund_perform env request) ;;
    match r with
    | Some url => ret (Some (Redirect url))
    | None => ret None
    end
  else ret None.

Definition post (env : Env) (request : Request) : Eff St Response :=
  let to := dict_get_default (POST request) "status" EmptyString in
  o <- ask order ;;
  early <- transition env request o to ;;
  match early with
  | Some r => ret r
  | None => u <- OrderView.get_order_url request ;; ret (Redirect u)
  end.

Definition get (env : Env) (request : Request) : Eff St Response :=
  let to := dict_get_default (GET request) "status" EmptyString in
  o <- ask order ;;
  if Order.status_eqb (Order.status o) Order.STATUS_PENDING && String.eqb to "c" then
    ret (Render "pretixcontrol/order/cancel.html")
  else if Order.status_eqb (Order.status o) Order.STATUS_PAID && String.eqb to "r" then
    ret (Render "pretixcontrol/order/refund.html")
  else ret (HttpResponseNotAllowed ["POST"]).

End OrderTransition.

(** ** Invoices *)

Definition fresh_invoice_pk (l : list Invoice.t) : Z :=
  1 + fold_right Z.max 0 (map Invoice.pk l).

(** Modelled from the spec: [generate_invoice] is absent from the sources.
    Section 6, Invoice generator: [Generate(order) -> Invoice]. *)
Definition generate_invoice : Eff St Invoice.t :=
  o <- ask order ;;
  l <- ask invoices ;;
  let inv := Invoice.mk (fresh_invoice_pk l) (Order.code o) false false None in
  update (with_invoices (l ++ [inv])) ;;
  emit (EvInvoice (Invoice.pk inv)) ;;
  ret inv.

Definition mark_canceled (old : Z) (i : Invoice.t) : Invoice.t :=
  if Z.eqb (Invoice.pk i) old then Invoice.with_canceled true i else i.

(** Modelled from the spec: [generate_cancellation] is absent from the
    sources. Section 6: [Cancel(invoice) -> CancellationRecord]; section 3:
    the record is created for the old invoice, which from then on carries the
    canceled flag. *)
Definition generate_cancellation (inv : Invoice.t) : Eff St Invoice.t :=
  l <- ask invoices ;;
  let c := Invoice.mk (fresh_invoice_pk l) (Invoice.order inv) false true
             (Some (Invoice.pk inv)) in
  update (with_invoices (map (mark_canceled (Invoice.pk inv)) l ++ [c])) ;;
  emit (EvCancellation (Invoice.pk inv) (Invoice.pk c)) ;;
  ret c.

(** Modelled from the spec: [regenerate_invoice] is absent from the sources.
    Section 3: regenerating an invoice creates a cancellation record for the
    old one before issuing a new one. *)
Definition regenerate_invoice (inv : Invoice.t) : Eff St Invoice.t :=
  generate_cancellation inv ;;
  generate_invoice.

(** Decimal text of a primary key, as the URL captures it. *)
Definition digit_of (c : ascii) : option Z :=
  let n := Z.of_nat (nat_of_ascii c) in
  if (48 <=? n) && (n <=? 57) then Some (n - 48) else None.

Fixpoint parse_digits (s : string) (acc : Z) : option Z :=
  match s with
  | EmptyString => Some acc
  | String c s' =>
      match digit_of c with
      | Some d => parse_digits s' (10 * acc + d)
      | None => None
      end
  end.

Definition int_of_str (s : string) : option Z :=
  match s with
  | EmptyString => None
  | _ => parse_digits s 0
  end.

(** [self.order.invoices.get(pk=...)]: the invoice of this order with that
    key, [Invoice.DoesNotExist] when there is none, [ValueError] when the
    key is text that is no number. This is the lookup for keys that are
    numbers a column of 64 bits can hold, or their text in ASCII digits;
    what a larger key or other digits lead to is decided by the database
    and by [int()], outside the views. *)
Definition invoices_get (key : option PyVal) : Eff St Invoice.t :=
  o <- ask order ;;
  l <- ask invoices ;;
  let among n :=
    match find (fun i => Z.eqb (Invoice.pk i) n
                         && String.eqb (Invoice.order i) (Order.code o)) l with
    | Some i => ret i
    | None => raise DoesNotExist
    end in
  match key with
  | None | Some VNone => raise DoesNotExist
  | Some (VInt n) => among n
  | Some (VBool b) => among (Z.b2z b)
  | Some (VStr s) =>
      match int_of_str s with
      | Some n => among n
      | None => raise ValueError
      end
  end.

Definition does_not_exist {A} (h : Eff St A) (e : Exn) : option (Eff St A) :=
  match e with
  | DoesNotExist => Some h
  | _ => None
  end.

Module OrderInvoiceRegenerate.

Definition post (env : Env) (request : Request) (kwargs : Dict PyVal) : Eff St Response :=
  try_except_else
    (invoices_get (dict_get kwargs "id"))
    (does_not_exist (messages_error "Unknown invoice."))
    (fun inv =>
       if Invoice.canceled inv then
         messages_error "The invoice has already been canceled."
       else
         inv' <- regenerate_invoice inv ;;
         log_action "pretix.event.order.invoice.regenerated" (Some (user request))
           [("invoice", VInt (Invoice.pk inv'))] ;;
         messages_success "The invoice has been regenerated.") ;;
  u <- OrderView.get_order_url request ;;
  ret (Redirect u).

End OrderInvoiceRegenerate.

Module OrderInvoiceReissue.

Definition post (env : Env) (request : Request) (kwargs : Dict PyVal) : Eff St Response :=
  try_except_else
    (invoices_get (dict_get kwargs "id"))
    (does_not_exist (messages_error "Unknown invoice."))
    (fun inv =>
       if Invoice.canceled inv then
         messages_error "The invoice has already been canceled."
       else
         generate_cancellation inv ;;
         inv' <- generate_invoice ;;
         log_action "pretix.event.order.invoice.reissued" (Some (user request))
           [("invoice", VInt (Invoice.pk inv'))] ;;
         messages_success "The invoice has been reissued.") ;;
  u <- OrderView.get_order_url request ;;
  ret (Redirect u).

End OrderInvoiceReissue.

(** ** OrderExtend *)

Module OrderExtend.

(** [self.form] is [ExtendForm(instance=self.order, data=request.POST)], data
    being [None] unless the method is POST. A form without data is not valid.
    Cleaning a model form writes the cleaned deadline to its instance, which
    is [self.order]; nothing is stored before [save()]. *)
Definition form_is_valid (env : Env) (request : Request) : Eff St bool :=
  match (if String.eqb (method request) "POST" then ExtendForm env (POST request) else None) with
  | Some deadline =>
      update (fun w => with_order (Order.with_expires deadline (order w)) w) ;;
      ret true
  | None => ret false
  end.

Definition form_save : Eff St unit := save.

Definition get (request : Request) : Eff St Response :=
  ret (Render "pretixcontrol/order/extend.html").

Definition lock_timeout {A} (h : Eff St A) (e : Exn) : option (Eff St A) :=
  match e with
  | LockTimeoutException => Some h
  | _ => None
  end.

Definition post (env : Env) (request : Request) : Eff St Response :=
  valid <- form_is_valid env request ;;
  if valid then
    o <- ask order ;;
    (if Order.status_eqb (Order.status o) Order.STATUS_PENDING then
       messages_success "The payment term has been changed." ;;
       log_action "pretix.event.order.expirychanged" (Some (user request))
         [("expires", VInt (Order.expires o)); ("state_change", VBool false)] ;;
       form_save
     else
       try_except_else
         (lock env (fun now_dt =>
            is_available <- _is_still_available env now_dt ;;
            match is_available with
            | Available =>
                form_save ;;
                update (fun w =>
                  with_order (Order.with_status Order.STATUS_PENDING (order w)) w) ;;
                save ;;
                o' <- ask order ;;
                log_action "pretix.event.order.expirychanged" (Some (user request))
                  [("expires", VInt (Order.expires o')); ("state_change", VBool true)] ;;
                messages_success "The payment term has been changed."
            | Unavailable reason => messages_error reason
            end))
         (lock_timeout (messages_error
            "We were not able to process the request completely as the server was too busy."))
         (fun _ => ret tt)) ;;
    OrderView._redirect_back request
  else get request.

(** [super_dispatch] is the [dispatch] of the parent classes. [*kwargs]
    unpacks the keys of the dictionary. *)
Definition dispatch
    (super_dispatch : Request -> list PyVal -> Dict PyVal -> Eff St Response)
    (request : Request) (args : list PyVal) (kwargs : Dict PyVal) : Eff St Response :=
  o <- ask order ;;
  if negb (Order.status_in o [Order.STATUS_PENDING; Order.STATUS_EXPIRED]) then
    messages_error "This action is only allowed for pending orders." ;;
    OrderView._redirect_back request
  else super_dispatch request (map VStr (keys kwargs)) kwargs.

End OrderExtend.

(** ** The change manager, as the views see it

    [OrderChangeManager] of [pretix.base.services.orders] is absent from the
    sources; section 4.3 of the specification gives its contract. Each
    mutating call records a pending operation or fails with [OrderError]
    (here [inl] of its text) after a validation that touches neither storage
    nor the lock; [commit] is the one call that works on storage. The views
    are embedded over any implementation of this interface. *)
Record ChangeManager := mkChangeManager {
  ocm : Type;
  OrderChangeManager : Order.t -> string -> ocm;
  add_position : ocm -> Item.t -> option ItemVariation.t -> option Z -> option Z ->
                 option Z -> string + ocm;
  change_item : ocm -> OrderPosition.t -> Item.t -> option ItemVariation.t -> string + ocm;
  change_price : ocm -> OrderPosition.t -> Z -> string + ocm;
  change_subevent : ocm -> OrderPosition.t -> option Z -> string + ocm;
  cancel : ocm -> OrderPosition.t -> string + ocm;
  commit : ocm -> Env -> Eff Store unit
}.

(** ** OrderChange *)

Module OrderChange.

Section WithManager.

Context (env : Env) (M : ChangeManager) (request : Request).

(** A call of the manager on behalf of the add form ([None]) or of a
    position ([Some pk]). *)
Definition call (target : option Z) (r : string + ocm M) : Eff St (ocm M) :=
  match r with
  | inl msg => emit (EvManagerCall target (Some msg)) ;; raise (OrderError msg)
  | inr o => emit (EvManagerCall target None) ;; ret o
  end.

Definition call_commit (o : ocm M) : Eff St unit :=
  try_except_else
    (lift (commit M o env))
    (fun e => Some (emit (EvCommit (Some e)) ;; raise e))
    (fun _ => emit (EvCommit None)).

Fixpoint contains (c : ascii) (s : string) : bool :=
  match s with
  | EmptyString => false
  | String c' s' => Ascii.eqb c c' || contains c s'
  end.

(** [str.split(sep)] for a separator of one character. *)
Fixpoint split (sep : ascii) (s : string) : list string :=
  match s with
  | EmptyString => [EmptyString]
  | String c s' =>
      if Ascii.eqb c sep then EmptyString :: split sep s'
      else match split sep s' with
           | h :: t => String c h :: t
           | [] => [String c EmptyString]
           end
  end.

(** [Item.objects.get(pk=..., event=self.request.event)]: the key arrives as
    text; text that is no number raises [ValueError], a number without a row
    raises [Item.DoesNotExist]. *)
Definition Item_objects_get (key : string) : Eff St Item.t :=
  match int_of_str key with
  | Some n =>
      match find (fun i => Z.eqb (Item.pk i) n
                           && String.eqb (Item.event i) (event_slug request))
                 (Item_objects env) with
      | Some i => ret i
      | None => raise DoesNotExist
      end
  | None => raise ValueError
  end.

(** [ItemVariation.objects.get(pk=..., item=item)] *)
Definition ItemVariation_objects_get (key : string) (item : Item.t)
    : Eff St ItemVariation.t :=
  match int_of_str key with
  | Some n =>
      match find (fun v => Z.eqb (ItemVariation.pk v) n
                           && Z.eqb (ItemVariation.item v) (Item.pk item))
                 (ItemVariation_objects env) with
      | Some v => ret v
      | None => raise DoesNotExist
      end
  | None => raise ValueError
  end.

(** The lines that [_process_add] and [_process_change] share: take the
    [itemvar] of a form apart and look item and variation up. Unpacking into
    two names raises [ValueError] unless the split has two parts. *)
Definition resolve (itemvar : string) : Eff St (Item.t * option ItemVariation.t) :=
  parts <-
    (if contains "-" itemvar then
       match split "-" itemvar with
       | [itemid; varid] => ret (itemid, Some varid)
       | _ => raise ValueError
       end
     else ret (itemvar, None)) ;;
  item <- Item_objects_get (fst parts) ;;
  match snd parts with
  | Some (String c s as varid) =>
      variation <- ItemVariation_objects_get varid item ;;
      ret (item, Some variation)
  | _ => ret (item, None)
  end.

Definition order_error {A} (h : string -> Eff St A) (e : Exn) : option (Eff St A) :=
  match e with
  | OrderError msg => Some (h msg)
  | _ => None
  end.

(** [self.add_form], bound to the POST data under the prefix [add]. *)
Definition add_form : option AddData :=
  if String.eqb (method request) "POST" then OrderPositionAddForm env (POST request) else None.

(** [p.form] of a position in [self.positions]. *)
Definition form (p : OrderPosition.t) : option ChangeData :=
  if String.eqb (method request) "POST" then OrderPositionChangeForm env (POST request) p
  else None.

Definition _process_add (o : ocm M) : Eff St (bool * ocm M) :=
  match add_form with
  | None => ret (false, o)
  | Some cleaned_data =>
      if add_do cleaned_data then
        iv <- resolve (add_itemvar cleaned_data) ;;
        try_except_else
          (call None (add_position M o (fst iv) (snd iv)
                        (add_price cleaned_data)
                        (add_addon_to cleaned_data)
                        (add_subevent cleaned_data)))
          (order_error (fun msg =>
             modify (with_add_form_custom_error (Some msg)) ;;
             ret (false, o)))
          (fun o' => ret (true, o'))
      else ret (true, o)
  end.

(** The body of the [try] for one position. *)
Definition change (o : ocm M) (p : OrderPosition.t) (cleaned_data : ChangeData)
    : Eff St (ocm M) :=
  let target := Some (OrderPosition.pk p) in
  if String.eqb (operation cleaned_data) "product" then
    iv <- resolve (itemvar cleaned_data) ;;
    call target (change_item M o p (fst iv) (snd iv))
  else if String.eqb (operation cleaned_data) "price" then
    call target (change_price M o p (price cleaned_data))
  else if String.eqb (operation cleaned_data) "subevent" then
    call target (change_subevent M o p (subevent cleaned_data))
  else if String.eqb (operation cleaned_data) "cancel" then
    call target (cancel M o p)
  else ret o.

(** The loop of [_process_change] over [self.positions]. *)
Fixpoint process_positions (ps : list OrderPosition.t) (o : ocm M) : Eff St (bool * ocm M) :=
  match ps with
  | [] => ret (true, o)
  | p :: rest =>
      match form p with
      | None => ret (false, o)
      | Some cleaned_data =>
          try_except_else
            (change o p cleaned_data)
            (order_error (fun msg =>
               modify (fun s =>
                 with_custom_error (custom_error s ++ [(OrderPosition.pk p, msg)]) s) ;;
               ret (false, o)))
            (fun o' => process_positions rest o')
      end
  end.

Definition _process_change (o : ocm M) : Eff St (bool * ocm M) :=
  cur <- ask order ;;
  ps <- ask positions ;;
  process_positions (positions_of cur ps) o.

Definition get : Eff St Response :=
  ret (Render "pretixcontrol/order/change.html").

Definition post : Eff St Response :=
  cur <- ask order ;;
  emit EvManagerCreated ;;
  let o := OrderChangeManager M cur (user request) in
  added <- _process_add o ;;
  form_valid <-
    (if fst added then _process_change (snd added) else ret (false, snd added)) ;;
  early <-
    (if negb (fst form_valid) then
       messages_error "An error occured. Please see the details below." ;;
       ret None
     else
       try_except_else
         (call_commit (snd form_valid))
         (order_error (fun msg => messages_error msg ;; ret None))
         (fun _ =>
            messages_success "The order has been changed and the user has been notified." ;;
            r <- OrderView._redirect_back request ;;
            ret (Some r))) ;;
  match early with
  | Some r => ret r
  | None => get
  end.

Definition dispatch
    (super_dispatch : Request -> list PyVal -> Dict PyVal -> Eff St Response)
    (args : list PyVal) (kwargs : Dict PyVal) : Eff St Response :=
  cur <- ask order ;;
  if negb (Order.status_in cur [Order.STATUS_PENDING; Order.STATUS_PAID]) then
    messages_error "This action is only allowed for pending or paid orders." ;;
    OrderView._redirect_back request
  else super_dispatch request args kwargs.

End WithManager.

End OrderChange.

(** ** OrderContactChange *)

Module OrderContactChange.

(** [self.form] is [OrderContactForm(instance=self.order, data=request.POST)];
    cleaning it writes the cleaned address to its instance. *)
Definition form_is_valid (env : Env) (request : Request) : Eff St (option ContactData) :=
  match (if String.eqb (method request) "POST" then OrderContactForm env (POST request)
         else None) with
  | Some cleaned_data =>
      update (fun w => with_order (Order.with_email (new_email cleaned_data) (order w)) w) ;;
      ret (Some cleaned_data)
  | None => ret None
  end.

(** A call of [generate_secret] or [generate_position_secret]. *)
Definition draw (generator : nat -> string) : Eff St string :=
  n <- ask draws ;;
  update (with_draws (S n)) ;;
  ret (generator n).

(** The table after the row with the key of [p] is overwritten with [p]. *)
Definition overwrite (p : OrderPosition.t) (table : list OrderPosition.t)
    : list OrderPosition.t :=
  map (fun q => if Z.eqb (OrderPosition.pk q) (OrderPosition.pk p) then p else q) table.

(** [op.save()] *)
Definition save_position (p : OrderPosition.t) : Eff St unit :=
  update (fun w => with_positions (overwrite p (positions w)) w).

Fixpoint renew_secrets (env : Env) (ps : list OrderPosition.t) : Eff St unit :=
  match ps with
  | [] => ret tt
  | op :: rest =>
      s <- draw (generate_position_secret env) ;;
      save_position (OrderPosition.with_secret s op) ;;
      renew_secrets env rest
  end.

(** [CachedTicket.objects.filter(order_position__order=self.order)] *)
Definition ticket_of_order (o : Order.t) (ps : list OrderPosition.t) (t : CachedTicket.t)
    : bool :=
  existsb (fun p => Z.eqb (OrderPosition.pk p) (CachedTicket.order_position t)
                    && String.eqb (OrderPosition.order p) (Order.code o)) ps.

Definition get (request : Request) : Eff St Response :=
  ret (Render "pretixcontrol/order/change_contact.html").

Definition post (env : Env) (request : Request) : Eff St Response :=
  old <- ask order ;;
  let old_email := Order.email old in
  valid <- form_is_valid env request ;;
  match valid with
  | Some cleaned_data =>
      log_action "pretix.event.order.contact.changed" (Some (user request))
        [("old_email", VStr old_email); ("new_email", VStr (new_email cleaned_data))] ;;
      (if regenerate_secrets cleaned_data then
         s <- draw (generate_secret env) ;;
         update (fun w => with_order (Order.with_secret s (order w)) w) ;;
         cur <- ask order ;;
         ps <- ask positions ;;
         renew_secrets env (positions_of cur ps) ;;
         update (fun w =>
           with_tickets
             (filter (fun t => negb (ticket_of_order (order w) (positions w) t)) (tickets w))
             w) ;;
         log_action "pretix.event.order.secret.changed" (Some (user request)) []
       else ret tt) ;;
      save ;;
      messages_success "The order has been changed." ;;
      u <- OrderView.get_order_url request ;;
      ret (Redirect u)
  | None => get request
  end.

End OrderContactChange.

(** ** A change manager after section 4.3 *)

Module SpecManager.

Inductive PendingOperation :=
| AddPosition (item : Item.t) (variation : option ItemVariation.t) (price : Z)
    (addOnParent : option Z) (dateInstance : option Z)
| ChangeItem (position : Z) (newItem : Item.t) (newVariation : option ItemVariation.t)
| ChangePrice (position : Z) (newPrice : Z)
| ChangeDateInstance (position : Z) (newDateInstance : option Z)
| CancelPosition (position : Z).

Record t := mk {
  for_order : Order.t;
  actor : string;
  operations : list PendingOperation
}.

Definition queue (m : t) (op : PendingOperation) : string + t :=
  inr (mk (for_order m) (actor m) (operations m ++ [op])).

Definition belongs (m : t) (p : OrderPosition.t) : bool :=
  String.eqb (OrderPosition.order p) (Order.code (for_order m)).

Definition InvalidOperation : string := "InvalidOperation".

(** Modelled from the spec: [OrderChangeManager.add_position]. Section 4.3,
    early validation: the price is given and not negative. *)
Definition add_position (m : t) (item : Item.t) (variation : option ItemVariation.t)
    (price : option Z) (addon_to : option Z) (subevent : option Z) : string + t :=
  match price with
  | Some x =>
      if x <? 0 then inl InvalidOperation
      else queue m (AddPosition item variation x addon_to subevent)
  | None => inl InvalidOperation
  end.

(** Modelled from the spec: the calls on an existing position. Section 4.3,
    early validation: the position belongs to the order, and a new price is
    not negative. *)
Definition change_item (m : t) (p : OrderPosition.t) (item : Item.t)
    (variation : option ItemVariation.t) : string + t :=
  if belongs m p then queue m (ChangeItem (OrderPosition.pk p) item variation)
  else inl InvalidOperation.

Definition change_price (m : t) (p : OrderPosition.t) (x : Z) : string + t :=
  if belongs m p && negb (x <? 0) then queue m (ChangePrice (OrderPosition.pk p) x)
  else inl InvalidOperation.

Definition change_subevent (m : t) (p : OrderPosition.t) (subevent : option Z)
    : string + t :=
  if belongs m p then queue m (ChangeDateInstance (OrderPosition.pk p) subevent)
  else inl InvalidOperation.

Definition cancel (m : t) (p : OrderPosition.t) : string + t :=
  if belongs m p then queue m (CancelPosition (OrderPosition.pk p))
  else inl InvalidOperation.

Definition amend (key : Z) (f : OrderPosition.t -> OrderPosition.t)
    (ps : list OrderPosition.t) : list OrderPosition.t :=
  map (fun p => if Z.eqb (OrderPosition.pk p) key then f p else p) ps.

Definition fresh_position_pk (ps : list OrderPosition.t) : Z :=
  1 + fold_right Z.max 0 (map OrderPosition.pk ps).

(** Modelled from the spec: one queued operation, re-validated against the
    inventory and applied to the positions collected so far; [inl] names the
    capacity exceeded. *)
Definition apply (env : Env) (m : t) (ps : list OrderPosition.t) (op : PendingOperation)
    : string + list OrderPosition.t :=
  let checked item variation subevent (ok : list OrderPosition.t) :=
    match CheckAvailability env item variation subevent (now env) with
    | Available => inr ok
    | Unavailable reason => inl reason
    end in
  match op with
  | AddPosition item variation x _ subevent =>
      checked (Item.pk item) (option_map ItemVariation.pk variation) subevent
        (ps ++ [OrderPosition.mk (fresh_position_pk ps) (Order.code (for_order m))
                  (Item.pk item) (option_map ItemVariation.pk variation) subevent x EmptyString])
  | ChangeItem key item variation =>
      match find (fun p => Z.eqb (OrderPosition.pk p) key) ps with
      | Some p =>
          checked (Item.pk item) (option_map ItemVariation.pk variation)
            (OrderPosition.subevent p)
            (amend key (fun p => OrderPosition.mk (OrderPosition.pk p) (OrderPosition.order p)
                          (Item.pk item) (option_map ItemVariation.pk variation)
                          (OrderPosition.subevent p) (OrderPosition.price p)
                          (OrderPosition.secret p)) ps)
      | None => inl InvalidOperation
      end
  | ChangePrice key x =>
      inr (amend key (fun p => OrderPosition.mk (OrderPosition.pk p) (OrderPosition.order p)
                        (OrderPosition.item p) (OrderPosition.variation p)
                        (OrderPosition.subevent p) x (OrderPosition.secret p)) ps)
  | ChangeDateInstance key subevent =>
      match find (fun p => Z.eqb (OrderPosition.pk p) key) ps with
      | Some p =>
          checked (OrderPosition.item p) (OrderPosition.variation p) subevent
            (amend key (fun p => OrderPosition.mk (OrderPosition.pk p) (OrderPosition.order p)
                          (OrderPosition.item p) (OrderPosition.variation p)
                          subevent (OrderPosition.price p) (OrderPosition.secret p)) ps)
      | None => inl InvalidOperation
      end
  | CancelPosition key =>
      inr (filter (fun p => negb (Z.eqb (OrderPosition.pk p) key)) ps)
  end.

(** Operations are applied in the order they were queued, each seeing the
    effect of the earlier ones; the first that fails ends the run. *)
Fixpoint apply_all (env : Env) (m : t) (ps : list OrderPosition.t)
    (ops : list PendingOperation) : string + list OrderPosition.t :=
  match ops with
  | [] => inr ps
  | op :: rest =>
      match apply env m ps op with
      | inr ps' => apply_all env m ps' rest
      | inl reason => inl reason
      end
  end.

Definition action_of (op : PendingOperation) : string :=
  match op with
  | AddPosition _ _ _ _ _ => "AddPosition"
  | ChangeItem _ _ _ => "ChangeItem"
  | ChangePrice _ _ => "ChangePrice"
  | ChangeDateInstance _ _ => "ChangeDateInstance"
  | CancelPosition _ => "CancelPosition"
  end.

(** Modelled from the spec: [OrderChangeManager.commit] is absent from the
    sources. Section 4.3: under the event lock every queued operation is
    re-validated; if one fails nothing is persisted and the error names the
    first failing operation; otherwise all are applied and persisted, with
    one audit entry per change and an aggregate one. The order total and the
    notification leave no mark on the state modelled here. *)
Definition commit (m : t) (env : Env) : Eff Store unit :=
  if lock_acquired env then
    ps <- gets positions ;;
    match apply_all env m ps (operations m) with
    | inl reason => raise (OrderError reason)
    | inr ps' =>
        modify (with_positions ps') ;;
        modify (fun w =>
          with_log (log w
                    ++ map (fun op => LogEntry.mk (action_of op) (Some (actor m)) [])
                         (operations m)
                    ++ [LogEntry.mk "order changed" (Some (actor m)) []]) w)
    end
  else raise LockTimeoutException.

Definition manager : ChangeManager :=
  mkChangeManager t (fun o u => mk o u []) add_position change_item change_price
    change_subevent cancel commit.

End SpecManager.

(** ** A sales event to run the views on *)

Module Sample.

Definition order_ABC12 : Order.t :=
  Order.mk "ABC12" Order.STATUS_PENDING 100 "old@example.org" "s0" false.

Definition item_X : OrderPosition.t :=
  OrderPosition.mk 1 "ABC12" 10 None None 1000 "px".
Definition item_Y : OrderPosition.t :=
  OrderPosition.mk 2 "ABC12" 11 None None 500 "py".
Definition foreign : OrderPosition.t :=
  OrderPosition.mk 3 "ZZZ99" 10 None None 1000 "pz".

Definition name_of (item : Z) : string :=
  if Z.eqb item 10 then "X" else if Z.eqb item 11 then "Y" else "?".

Definition invoice_1 : Invoice.t := Invoice.mk 1 "ABC12" false false None.

Definition store_of (o : Order.t) (inv : list Invoice.t) : Store :=
  mkStore o o [item_X; foreign; item_Y] inv
    [CachedTicket.mk 1 "pdf"; CachedTicket.mk 3 "pdf"] [] 0.

Definition state_of (o : Order.t) (inv : list Invoice.t) : St :=
  mkSt (store_of o inv) [] None [] [].

Definition pending : St := state_of order_ABC12 [invoice_1].

Definition expired : St :=
  state_of (Order.with_status Order.STATUS_EXPIRED order_ABC12) [invoice_1].

Definition canceled_invoice : St :=
  state_of order_ABC12 [Invoice.with_canceled true invoice_1].

Definition secret_of (prefix : string) (n : nat) : string :=
  (prefix ++ String (ascii_of_nat (97 + n)) EmptyString)%string.

(** Forms read the POST data the simplest way that keeps them apart. *)
Definition extend_form (data : Dict string) : option Z :=
  match dict_get data "expires" with
  | Some v => int_of_str v
  | None => None
  end.

Definition contact_form (data : Dict string) : option ContactData :=
  match dict_get data "email" with
  | Some v =>
      Some (mkContactData v
              (match dict_get data "regenerate_secrets" with
               | Some _ => true
               | None => false
               end))
  | None => None
  end.

Definition add_form (data : Dict string) : option AddData :=
  match dict_get data "add-do" with
  | Some _ =>
      match dict_get data "add-itemvar", dict_get data "add-price" with
      | Some iv, Some x => Some (mkAddData true iv (int_of_str x) None None)
      | _, _ => None
      end
  | None => Some (mkAddData false EmptyString None None None)
  end.

Definition change_form (data : Dict string) (p : OrderPosition.t) : option ChangeData :=
  let prefix := if Z.eqb (OrderPosition.pk p) 1 then "op-1-" else "op-2-" in
  match dict_get data (prefix ++ "operation")%string with
  | Some op =>
      match dict_get data (prefix ++ "price")%string with
      | Some "minus" => Some (mkChangeData op EmptyString (-1) None)
      | Some x =>
          match int_of_str x with
          | Some n => Some (mkChangeData op EmptyString n None)
          | None => None
          end
      | None => Some (mkChangeData op EmptyString 0 None)
      end
  | None => Some (mkChangeData EmptyString EmptyString 0 None)
  end.

(** [sold_out] lists the items whose quota is exhausted. *)
Definition env_of (sold_out : list Z) (lock_ok mail_ok : bool) : Env :=
  mkEnv
    (fun item _ _ _ =>
       if existsb (Z.eqb item) sold_out
       then Unavailable ("sold out: " ++ name_of item)%string else Available)
    lock_ok 50 mail_ok
    (secret_of "o") (secret_of "p")
    [Item.mk 10 "conf"; Item.mk 11 "conf"] []
    extend_form contact_form add_form change_form
    (fun _ => ret None).

Definition request_of (data : Dict string) : Request :=
  mkRequest "POST" data [] "admin" "conf" "org".

End Sample.

(** ** OrderInvoiceCreate *)

Module OrderInvoiceCreate.

(** [setting in ('admin', 'user', 'paid')] *)
Definition may_generate (setting : PyVal) : bool :=
  match setting with
  | VStr t => existsb (String.eqb t) ["admin"; "user"; "paid"]
  | _ => false
  end.

(** [invoice_generate] is [request.event.settings.get('invoice_generate')],
    [invoice_qualified] the answer of [invoice_qualified(self.order)], a
    function of [pretix.base.services.invoices] that is not among the sources.
    [self.order.invoices.exists()] asks for any invoice of this order. *)
Definition post (invoice_generate : PyVal) (invoice_qualified : bool) (request : Request)
    : Eff St Response :=
  cur <- ask order ;;
  l <- ask invoices ;;
  (if negb (may_generate invoice_generate) || negb invoice_qualified then
     messages_error "You cannot generate an invoice for this order."
   else if existsb (fun i => String.eqb (Invoice.order i) (Order.code cur)) l then
     messages_error "An invoice for this order already exists."
   else
     inv <- generate_invoice ;;
     log_action "pretix.event.order.invoice.generated" (Some (user request))
       [("invoice", VInt (Invoice.pk inv))] ;;
     messages_success "The invoice has been generated.") ;;
  u <- OrderView.get_order_url request ;;
  ret (Redirect u).

End OrderInvoiceCreate.

(** ** OrderResendLink *)

Module OrderResendLink.

(** The invoice address only fills the context of the mail, and
    [language(...)] only selects its language; neither changes the state. *)
Definition post (env : Env) (request : Request) : Eff St Response :=
  early <-
    try_except_else
      (mail env)
      (fun e =>
         match e with
         | SendMailException =>
             Some (messages_error
                     "There was an error sending the mail. Please try again later." ;;
                   u <- OrderView.get_order_url request ;;
                   ret (Some (Redirect u)))
         | _ => None
         end)
      (fun _ => ret None) ;;
  match early with
  | Some r => ret r
  | None =>
      messages_success "The email has been queued to be sent." ;;
      log_action "pretix.event.order.resend" (Some (user request)) [] ;;
      u <- OrderView.get_order_url request ;;
      ret (Redirect u)
  end.

End OrderResendLink.

(** ** OrderGo *)

Module OrderGo.

(** [str.upper()], [str.strip()], [str.startswith()] and slices, on text
    whose characters are all ASCII. *)
Definition ascii_only (s : string) : bool :=
  forallb (fun c => (nat_of_ascii c <? 128)%nat) (list_ascii_of_string s).

Definition upper_char (c : ascii) : ascii :=
  let n := nat_of_ascii c in
  if ((97 <=? n) && (n <=? 122))%nat then ascii_of_nat (n - 32) else c.

Fixpoint upper (s : string) : string :=
  match s with
  | EmptyString => EmptyString
  | String c s' => String (upper_char c) (upper s')
  end.

Definition is_space (c : ascii) : bool :=
  let n := nat_of_ascii c in
  (((9 <=? n) && (n <=? 13)) || ((28 <=? n) && (n <=? 32)))%nat.

Fixpoint lstrip (s : string) : string :=
  match s with
  | EmptyString => EmptyString
  | String c s' => if is_space c then lstrip s' else s
  end.

Fixpoint rstrip (s : string) : string :=
  match s with
  | EmptyString => EmptyString
  | String c s' =>
      match rstrip s' with
      | EmptyString => if is_space c then EmptyString else String c EmptyString
      | t => String c t
      end
  end.

Definition strip (s : string) : string := rstrip (lstrip s).

Definition startswith (s prefix : string) : bool := String.prefix prefix s.

(** [s[n:]] *)
Fixpoint drop (n : nat) (s : string) : string :=
  match n, s with
  | O, _ => s
  | S n', String _ s' => drop n' s'
  | S _, EmptyString => EmptyString
  end.

(** Where the view sends the browser. *)
Inductive Route :=
| EventOrder (organizer event code : string)
| EventOrders (organizer event : string).

(** [Order.objects.get(code=..., event=self.request.event)], [orders] being
    the orders of the event. *)
Definition Order_objects_get (orders : list Order.t) (code : string) : Eff St Order.t :=
  match find (fun o => String.eqb (Order.code o) code) orders with
  | Some o => ret o
  | None => raise DoesNotExist
  end.

(** [normalize_code] is [Order.normalize_code], which is not among the
    sources. *)
Definition get_order (normalize_code : string -> string) (orders : list Order.t)
    (code : string) : Eff St Order.t :=
  try_except_else
    (Order_objects_get orders code)
    (does_not_exist (Order_objects_get orders (normalize_code code)))
    (fun o => ret o).

Definition get (normalize_code : string -> string) (orders : list Order.t)
    (request : Request) : Eff St Route :=
  let code := strip (upper (dict_get_default (GET request) "code" EmptyString)) in
  try_except_else
    (let code :=
       if startswith code (upper (event_slug request))
       then drop (String.length (event_slug request)) code
       else code in
     let code := if startswith code "-" then drop 1 code else code in
     get_order normalize_code orders code)
    (does_not_exist
       (messages_error "There is no order with the given order code." ;;
        ret (EventOrders (organizer_slug request) (event_slug request))))
    (fun o =>
       ret (EventOrder (organizer_slug request) (event_slug request) (Order.code o))).

End OrderGo.

(** How often a character occurs, and [sep.join(parts)]. *)
Fixpoint occurrences (c : ascii) (s : string) : nat :=
  match s with
  | EmptyString => O
  | String c' s' => (if Ascii.eqb c' c then 1 else 0) + occurrences c s'
  end.

Fixpoint join (sep : ascii) (parts : list string) : string :=
  match parts with
  | [] => EmptyString
  | [p] => p
  | p :: rest => (p ++ String sep (join sep rest))%string
  end.

(** A form of a position that names none of the four operations of
    [_process_change]. *)
Definition idle (cleaned_data : ChangeData) : Prop :=
  operation cleaned_data <> "product" /\ operation cleaned_data <> "price"
  /\ operation cleaned_data <> "subevent" /\ operation cleaned_data <> "cancel".

(** A position whose form is valid and names one of the four operations. *)
Definition asks (env : Env) (request : Request) (p : OrderPosition.t) : bool :=
  match OrderChange.form env request p with
  | Some cleaned_data =>
      existsb (String.eqb (operation cleaned_data))
        ["product"; "price"; "subevent"; "cancel"]
  | None => false
  end.

(** The positions the manager was called for, in the order of the calls. *)
Definition position_keys (tr : list Effect) : list Z :=
  flat_map (fun e =>
              match e with
              | EvManagerCall (Some key) _ => [key]
              | _ => []
              end) tr.

(** ** Pure readings of the loops, for the statements below *)

(** The inventory's answer for a position at the time the lock hands out. *)
Definition inventory (env : Env) (p : OrderPosition.t) : Availability :=
  CheckAvailability env (OrderPosition.item p) (OrderPosition.variation p)
    (OrderPosition.subevent p) (now env).

Fixpoint first_unavailable (env : Env) (ps : list OrderPosition.t) : Availability :=
  match ps with
  | [] => Available
  | p :: rest =>
      match inventory env p with
      | Available => first_unavailable env rest
      | Unavailable reason => Unavailable reason
      end
  end.

Fixpoint availability_events (env : Env) (ps : list OrderPosition.t) : list Effect :=
  match ps with
  | [] => []
  | p :: rest =>
      EvAvailability (OrderPosition.pk p) (inventory env p)
      :: match inventory env p with
         | Available => availability_events env rest
         | Unavailable _ => []
         end
  end.

(** The table of positions after [renew_secrets] went through [todo],
    starting with draw [n]. *)
Fixpoint renewed (env : Env) (n : nat) (todo table : list OrderPosition.t)
    : list OrderPosition.t :=
  match todo with
  | [] => table
  | op :: rest =>
      renewed env (S n) rest
        (OrderContactChange.overwrite
           (OrderPosition.with_secret (generate_position_secret env n) op) table)
  end.

(** The positions of this order, as the views read them. *)
Definition own_positions (s : St) : list OrderPosition.t :=
  positions_of (order (store s)) (positions (store s)).

Definition order_url (request : Request) (s : St) : Url :=
  OrderUrl (organizer_slug request) (event_slug request) (Order.code (order (store s))).

(** The calls of the change manager that the record shows as failed. *)
Definition failed_call (e : Effect) : bool :=
  match e with
  | EvManagerCall _ (Some _) => true
  | _ => false
  end.

Definition position_call (e : Effect) : Prop :=
  exists key raised, e = EvManagerCall (Some key) raised.

(** Nothing follows a failed call. *)
Definition failure_is_last (tr : list Effect) : Prop :=
  forall pre e post, tr = pre ++ e :: post -> failed_call e = true -> post = [].

(** What the failed calls on positions attach: position and text. *)
Definition position_failures (tr : list Effect) : list (Z * string) :=
  flat_map (fun e =>
              match e with
              | EvManagerCall (Some key) (Some msg) => [(key, msg)]
              | _ => []
              end) tr.

(** A state whose record and whose errors on positions have grown. *)
Definition grown (tr : list Effect) (errs : list (Z * string)) (s : St) : St :=
  with_custom_error (custom_error s ++ errs) (with_trace (trace s ++ tr) s).

(** ** The early validation of a batch, read off the forms

    [_process_add] and [_process_change] put the operations of the forms to
    the manager one after the other and stop at the first that does not
    pass. What follows is that walk without the view around it: no message,
    no attribute, no record, only the forms, the catalogue and the answers
    of the manager. *)

(** How the walk ends: a form is not valid; the manager refuses the
    operation of the add form ([None]) or of a position ([Some pk]); looking
    up item or variation raises; or every operation is recorded, which
    leaves the manager in state [o]. *)
Inductive Validation (M : ChangeManager) :=
| FormInvalid
| Refused (target : option Z) (msg : string)
| LookupRaised (e : Exn)
| Recorded (o : ocm M).
Arguments FormInvalid {M}.
Arguments Refused {M} target msg.
Arguments LookupRaised {M} e.
Arguments Recorded {M} o.

(** Item and variation that [itemvar] names. The lookup reads the catalogue
    of the deployment and nothing of the state it runs in. *)
Definition looked_up (env : Env) (request : Request) (s : St) (itemvar : string)
    : Result (Item.t * option ItemVariation.t) :=
  fst (OrderChange.resolve env request itemvar s).

(** The answer of the manager, in state [o], to the operation that the
    valid form of position [p] names. A form that names none of the four
    operations asks nothing and leaves the manager as it is. *)
Definition answer (env : Env) (M : ChangeManager) (request : Request) (s : St)
    (o : ocm M) (p : OrderPosition.t) (cleaned_data : ChangeData)
    : Result (string + ocm M) :=
  if String.eqb (operation cleaned_data) "product" then
    match looked_up env request s (itemvar cleaned_data) with
    | Ret iv => Ret (change_item M o p (fst iv) (snd iv))
    | Raise e => Raise e
    end
  else if String.eqb (operation cleaned_data) "price" then
    Ret (change_price M o p (price cleaned_data))
  else if String.eqb (operation cleaned_data) "subevent" then
    Ret (change_subevent M o p (subevent cleaned_data))
  else if String.eqb (operation cleaned_data) "cancel" then
    Ret (cancel M o p)
  else Ret (inr o).

(** The positions in the order of the table, each put to the manager as the
    operations before it left it. *)
Fixpoint validate_positions (env : Env) (M : ChangeManager) (request : Request) (s : St)
    (ps : list OrderPosition.t) (o : ocm M) : Validation M :=
  match ps with
  | [] => Recorded o
  | p :: rest =>
      match OrderChange.form env request p with
      | None => FormInvalid
      | Some cleaned_data =>
          match answer env M request s o p cleaned_data with
          | Ret (inr o') => validate_positions env M request s rest o'
          | Ret (inl msg) => Refused (Some (OrderPosition.pk p)) msg
          | Raise e => LookupRaised e
          end
      end
  end.

(** The add form first, on a manager made for this order and this operator,
    then the positions of the order. *)
Definition early_validation (env : Env) (M : ChangeManager) (request : Request) (s : St)
    : Validation M :=
  let o := OrderChangeManager M (order (store s)) (user request) in
  match OrderChange.add_form env request with
  | None => FormInvalid
  | Some cleaned_data =>
      if add_do cleaned_data then
        match looked_up env request s (add_itemvar cleaned_data) with
        | Ret iv =>
            match add_position M o (fst iv) (snd iv) (add_price cleaned_data)
                    (add_addon_to cleaned_data) (add_subevent cleaned_data) with
            | inr o' => validate_positions env M request s (own_positions s) o'
            | inl msg => Refused None msg
            end
        | Raise e => LookupRaised e
        end
      else validate_positions env M request s (own_positions s) o
  end.

(** * Properties *)

(** ** The state under the record updates *)

Lemma with_trace_nil (s : St) : with_trace (trace s ++ []) s = s.
Proof. destruct s; unfold with_trace; simpl; now rewrite app_nil_r. Qed.

Lemma status_in_pending_expired (o : Order.t) :
  Order.status_in o [Order.STATUS_PENDING; Order.STATUS_EXPIRED] = true <->
  Order.status o = Order.STATUS_PENDING \/ Order.status o = Order.STATUS_EXPIRED.
Proof.
  unfold Order.status_in; destruct (Order.status o); simpl; split; intros H;
    try congruence; auto; destruct H; congruence.
Qed.

(** ** The availability check *)

Lemma check_positions_run (env : Env) (ps : list OrderPosition.t) (s : St) :
  check_positions env (now env) ps s
  = (Ret (first_unavailable env ps), with_trace (trace s ++ availability_events env ps) s).
Proof.
  revert s; induction ps as [|p rest IH]; intros s; simpl.
  - unfold ret; now rewrite with_trace_nil.
  - unfold bind, emit, modify, inventory.
    destruct (CheckAvailability env _ _ _ _) eqn:E.
    + rewrite IH; simpl. unfold with_trace; simpl.
      now rewrite <- app_assoc.
    + reflexivity.
Qed.

Lemma is_still_available_run (env : Env) (s : St) :
  _is_still_available env (now env) s
  = (Ret (first_unavailable env (own_positions s)),
     with_trace (trace s ++ availability_events env (own_positions s)) s).
Proof.
  unfold _is_still_available, bind, ask, gets; simpl.
  apply check_positions_run.
Qed.

Lemma first_unavailable_some (env : Env) (ps : list OrderPosition.t) :
  (exists p, In p ps /\ exists r, inventory env p = Unavailable r) ->
  exists reason p, In p ps /\ inventory env p = Unavailable reason
                   /\ first_unavailable env ps = Unavailable reason.
Proof.
  induction ps as [|q rest IH]; intros (p & Hin & r & Hr).
  - destruct Hin.
  - simpl. destruct (inventory env q) eqn:E.
    + destruct Hin as [->|Hin]; [congruence|].
      destruct IH as (reason & p' & Hin' & Hp' & Hf); [now exists p; eauto|].
      exists reason, p'. simpl; auto.
    + exists reason, q. simpl; auto.
Qed.

Lemma first_unavailable_none (env : Env) (ps : list OrderPosition.t) :
  (forall p, In p ps -> inventory env p = Available) ->
  first_unavailable env ps = Available
  /\ availability_events env ps
     = map (fun p => EvAvailability (OrderPosition.pk p) Available) ps.
Proof.
  induction ps as [|q rest IH]; intros H; simpl; [auto|].
  rewrite (H q (or_introl eq_refl)).
  destruct IH as [IH1 IH2]; [intros; apply H; now right|].
  now rewrite IH1, IH2.
Qed.

(** ** Marking an order as paid *)

Ltac run :=
  unfold bind, ret, raise, gets, modify, ask, update, emit, lift, save, log_action,
    try_except_else, try_finally, add_message in *; simpl in *.

Ltac flatten := repeat (progress (rewrite <- ?app_assoc; simpl)).

Lemma mark_order_paid_refused (env : Env) (manual : bool) (actor : string) (s : St)
    (reason : string) :
  lock_acquired env = true ->
  first_unavailable env (own_positions s) = Unavailable reason ->
  mark_order_paid env manual actor s
  = (Raise (QuotaExceededException reason),
     with_trace (trace s ++ EvLockAcquired
                   :: availability_events env (own_positions s) ++ [EvLockReleased]) s).
Proof.
  intros Hlock Hf. unfold mark_order_paid, lock. rewrite Hlock.
  unfold bind at 1. unfold bind at 1. unfold emit at 1, modify at 1.
  unfold try_finally. unfold bind at 1.
  rewrite is_still_available_run.
  change (own_positions (with_trace _ s)) with (own_positions s).
  rewrite Hf. run. unfold with_trace; simpl.
  now rewrite <- !app_assoc.
Qed.

Lemma mark_order_paid_done (env : Env) (manual : bool) (actor : string) (s : St) :
  lock_acquired env = true ->
  first_unavailable env (own_positions s) = Available ->
  let paid := Order.with_status Order.STATUS_PAID (order (store s)) in
  mark_order_paid env manual actor s
  = ((if mail_delivered env then Ret tt else Raise SendMailException),
     mkSt
       (with_log (log (store s) ++ [LogEntry.mk "pretix.event.order.paid" (Some actor) []])
          (with_order_row paid (with_order paid (store s))))
       (messages s) (add_form_custom_error s) (custom_error s)
       (trace s ++ EvLockAcquired
          :: availability_events env (own_positions s)
          ++ [EvLog "pretix.event.order.paid"; EvLockReleased;
              EvMail (mail_delivered env)])).
Proof.
  intros Hlock Hf paid. unfold mark_order_paid, lock, mail. rewrite Hlock.
  unfold bind at 1. unfold bind at 1. unfold emit at 1, modify at 1.
  unfold try_finally. unfold bind at 1.
  rewrite is_still_available_run.
  change (own_positions (with_trace _ s)) with (own_positions s).
  rewrite Hf. run.
  destruct (mail_delivered env); unfold with_trace, with_store; simpl;
    flatten; reflexivity.
Qed.

Lemma mark_order_paid_busy (env : Env) (manual : bool) (actor : string) (s : St) :
  lock_acquired env = false ->
  mark_order_paid env manual actor s
  = (Raise LockTimeoutException, with_trace (trace s ++ [EvLockTimeout]) s).
Proof.
  intros Hlock. unfold mark_order_paid, lock. rewrite Hlock. reflexivity.
Qed.

(** C1. An order that is Pending or Expired and has a Position whose quota is
    exhausted: when the operator asks for Paid, nothing stored changes and the
    order is as it was, not Paid. When the event lock is obtained,
    [mark_order_paid] raises [QuotaExceededException] with the reason of such
    a Position, and the view shows that reason as an error and redirects to
    the order. *)
Theorem paid_refused_when_quota_exhausted (env : Env) (request : Request) (s : St) :
  Order.status_in (order (store s)) [Order.STATUS_PENDING; Order.STATUS_EXPIRED] = true ->
  dict_get (POST request) "status" = Some "p" ->
  (exists p, In p (own_positions s) /\ exists r, inventory env p = Unavailable r) ->
  exists r s',
    OrderTransition.post env request s = (r, s')
    /\ store s' = store s
    /\ Order.status (order_row (store s')) = Order.status (order_row (store s))
    /\ Order.status (order (store s')) = Order.status (order (store s))
    /\ Order.status (order (store s')) <> Order.STATUS_PAID
    /\ (lock_acquired env = true ->
        exists reason s0,
          (exists p, In p (own_positions s) /\ inventory env p = Unavailable reason)
          /\ mark_order_paid env true (user request) s
             = (Raise (QuotaExceededException reason), s0)
          /\ r = Ret (Redirect (order_url request s))
          /\ messages s' = messages s ++ [(ERROR, reason)]).
Proof.
  intros Hst Hto Hex.
  assert (Hnot : Order.status (order (store s)) <> Order.STATUS_PAID).
  { apply status_in_pending_expired in Hst. destruct Hst as [H|H]; rewrite H; discriminate. }
  destruct (first_unavailable_some env _ Hex) as (reason & p & Hin & Hp & Hf).
  unfold OrderTransition.post, OrderTransition.transition, dict_get_default.
  rewrite Hto.
  unfold bind at 1. unfold ask at 1, gets at 1.
  rewrite Hst. simpl andb. cbv iota.
  unfold bind at 1. unfold bind at 1. unfold try_except_else.
  destruct (lock_acquired env) eqn:Hlock.
  - pose proof (mark_order_paid_refused env true (user request) s reason Hlock Hf) as Hm.
    rewrite Hm. run. eexists. eexists. split; [reflexivity|]. simpl.
    repeat split; auto. intros _. exists reason. eexists.
    split; [now exists p|]. repeat split.
  - rewrite (mark_order_paid_busy env true (user request) s Hlock).
    eexists. eexists. split; [reflexivity|]. simpl.
    repeat split; auto. discriminate.
Qed.

Lemma paid_refused_when_quota_exhausted_witness :
  exists s',
    OrderTransition.post (Sample.env_of [11] true true)
      (Sample.request_of [("status", "p")]) Sample.pending
    = (Ret (Redirect (OrderUrl "org" "conf" "ABC12")), s')
    /\ messages s' = [(ERROR, "sold out: Y")]
    /\ Order.status (order_row (store s')) = Order.STATUS_PENDING.
Proof.
  destruct (paid_refused_when_quota_exhausted (Sample.env_of [11] true true)
              (Sample.request_of [("status", "p")]) Sample.pending)
    as (r & s' & Hp & _ & Hrow & _ & _ & Hlock).
  - reflexivity.
  - reflexivity.
  - exists Sample.item_Y. split; [simpl; auto|]. eexists; reflexivity.
  - destruct (Hlock eq_refl) as (reason & s0 & _ & Hm & -> & Hmsg).
    exists s'. split; [exact Hp|]. split; [|now rewrite Hrow].
    rewrite Hmsg. vm_compute in Hm. now inversion Hm.
Defined.

(** C4. An order that is Pending or Expired, every Position available, the
    event lock obtained, the mail not delivered: [mark_order_paid] raises
    [SendMailException] after it has stored the status Paid; the view leaves
    what was stored as it is, adds one warning, and redirects as after a
    success. *)
Theorem paid_kept_when_mail_fails (env : Env) (request : Request) (s : St) :
  Order.status_in (order (store s)) [Order.STATUS_PENDING; Order.STATUS_EXPIRED] = true ->
  dict_get (POST request) "status" = Some "p" ->
  lock_acquired env = true ->
  (forall p, In p (own_positions s) -> inventory env p = Available) ->
  mail_delivered env = false ->
  exists s0 s',
    mark_order_paid env true (user request) s = (Raise SendMailException, s0)
    /\ Order.status (order_row (store s0)) = Order.STATUS_PAID
    /\ OrderTransition.post env request s = (Ret (Redirect (order_url request s)), s')
    /\ store s' = store s0
    /\ Order.status (order_row (store s')) = Order.STATUS_PAID
    /\ Order.status (order (store s')) = Order.STATUS_PAID
    /\ messages s'
       = messages s
         ++ [(WARNING,
              "The order has been marked as paid, but we were unable to send a confirmation mail.")].
Proof.
  intros Hst Hto Hlock Hall Hmail.
  destruct (first_unavailable_none env _ Hall) as [Hf _].
  pose proof (mark_order_paid_done env true (user request) s Hlock Hf) as Hm.
  cbv zeta in Hm. rewrite Hmail in Hm.
  eexists. eexists. split; [exact Hm|]. split; [reflexivity|].
  unfold OrderTransition.post, OrderTransition.transition, dict_get_default.
  rewrite Hto.
  unfold bind at 1. unfold ask at 1, gets at 1.
  rewrite Hst. simpl andb. cbv iota.
  unfold bind at 1. unfold bind at 1. unfold try_except_else. rewrite Hm.
  run. split; [reflexivity|]. simpl. repeat split.
Qed.

Lemma paid_kept_when_mail_fails_witness :
  exists s',
    OrderTransition.post (Sample.env_of [] true false)
      (Sample.request_of [("status", "p")]) Sample.expired
    = (Ret (Redirect (OrderUrl "org" "conf" "ABC12")), s')
    /\ Order.status (order_row (store s')) = Order.STATUS_PAID
    /\ messages s'
       = [(WARNING,
           "The order has been marked as paid, but we were unable to send a confirmation mail.")].
Proof.
  destruct (paid_kept_when_mail_fails (Sample.env_of [] true false)
              (Sample.request_of [("status", "p")]) Sample.expired)
    as (s0 & s' & _ & _ & Hp & _ & Hrow & _ & Hmsg).
  - reflexivity.
  - reflexivity.
  - reflexivity.
  - intros p _. reflexivity.
  - reflexivity.
  - exists s'. split; [exact Hp|]. split; [exact Hrow|exact Hmsg].
Defined.

(** ** Extending the payment deadline *)

Lemma extend_form_valid (env : Env) (request : Request) (s : St) (deadline : Z) :
  method request = "POST" ->
  ExtendForm env (POST request) = Some deadline ->
  OrderExtend.form_is_valid env request s
  = (Ret true,
     with_store (with_order (Order.with_expires deadline (order (store s))) (store s)) s).
Proof.
  intros Hm Hf. unfold OrderExtend.form_is_valid. rewrite Hm, Hf. reflexivity.
Qed.

Lemma Forall_availability_events (env : Env) (ps : list OrderPosition.t) :
  Forall (fun e => is_availability_effect e = true) (availability_events env ps).
Proof.
  induction ps as [|p rest IH]; simpl; constructor; [reflexivity|].
  destruct (inventory env p); [exact IH|constructor].
Qed.

(** C2. A valid deadline is submitted. For an Expired order, with the event
    lock obtained, the availability of the Positions is checked between the
    acquisition and the release of the lock. If a Position is unavailable the
    operator is shown the reason of such a Position, nothing is stored and the
    order stays Expired; if every Position is available, each one was checked,
    and the order is stored with the new deadline and the status Pending. For
    a Pending order the order is stored with the new deadline and the request
    neither takes the lock nor checks availability. *)
Theorem extend_revalidates_expired_only (env : Env) (request : Request) (s : St)
    (deadline : Z) :
  method request = "POST" ->
  ExtendForm env (POST request) = Some deadline ->
  (Order.status (order (store s)) = Order.STATUS_EXPIRED ->
   lock_acquired env = true ->
   ((exists p, In p (own_positions s) /\ exists r, inventory env p = Unavailable r) ->
    exists reason checked s',
      OrderExtend.post env request s = (Ret (Redirect (order_url request s)), s')
      /\ (exists p, In p (own_positions s) /\ inventory env p = Unavailable reason)
      /\ messages s' = messages s ++ [(ERROR, reason)]
      /\ order_row (store s') = order_row (store s)
      /\ Order.status (order (store s')) = Order.STATUS_EXPIRED
      /\ log (store s') = log (store s)
      /\ trace s' = trace s ++ [EvLockAcquired] ++ checked ++ [EvLockReleased]
      /\ Forall (fun e => is_availability_effect e = true) checked)
   /\
   ((forall p, In p (own_positions s) -> inventory env p = Available) ->
    exists s',
      OrderExtend.post env request s = (Ret (Redirect (order_url request s)), s')
      /\ order_row (store s')
         = Order.with_status Order.STATUS_PENDING
             (Order.with_expires deadline (order (store s)))
      /\ order (store s') = order_row (store s')
      /\ messages s' = messages s ++ [(SUCCESS, "The payment term has been changed.")]
      /\ trace s'
         = trace s ++ [EvLockAcquired]
           ++ map (fun p => EvAvailability (OrderPosition.pk p) Available) (own_positions s)
           ++ [EvLog "pretix.event.order.expirychanged"; EvLockReleased]))
  /\
  (Order.status (order (store s)) = Order.STATUS_PENDING ->
   exists s',
     OrderExtend.post env request s = (Ret (Redirect (order_url request s)), s')
     /\ order_row (store s') = Order.with_expires deadline (order (store s))
     /\ Order.status (order_row (store s')) = Order.STATUS_PENDING
     /\ messages s' = messages s ++ [(SUCCESS, "The payment term has been changed.")]
     /\ trace s' = trace s ++ [EvLog "pretix.event.order.expirychanged"]
     /\ Forall (fun e => is_lock_effect e = false /\ is_availability_effect e = false)
          [EvLog "pretix.event.order.expirychanged"]).
Proof.
  intros Hm Hform. split.
  - intros Hst Hlock. split.
    + intros Hex.
      destruct (first_unavailable_some env _ Hex) as (reason & p & Hin & Hp & Hf).
      exists reason, (availability_events env (own_positions s)). eexists.
      unfold OrderExtend.post. unfold bind at 1.
      rewrite (extend_form_valid env request s deadline Hm Hform).
      unfold bind at 1. unfold ask at 1, gets at 1. simpl store. simpl order.
      simpl Order.status. rewrite Hst. simpl Order.status_eqb. cbv iota.
      unfold bind at 1. unfold try_except_else, lock. rewrite Hlock.
      unfold bind at 1. unfold emit at 1, modify at 1. unfold try_finally.
      unfold bind at 1. rewrite is_still_available_run.
      match goal with |- context [first_unavailable env ?l] =>
        change l with (own_positions s) end.
      match goal with |- context [availability_events env ?l] =>
        change l with (own_positions s) end.
      rewrite Hf. run.
      split; [reflexivity|]. simpl. rewrite Hst.
      repeat split; eauto using Forall_availability_events.
      now flatten.
    + intros Hall.
      destruct (first_unavailable_none env _ Hall) as [Hf Hev].
      eexists.
      unfold OrderExtend.post. unfold bind at 1.
      rewrite (extend_form_valid env request s deadline Hm Hform).
      unfold bind at 1. unfold ask at 1, gets at 1. simpl store. simpl order.
      simpl Order.status. rewrite Hst. simpl Order.status_eqb. cbv iota.
      unfold bind at 1. unfold try_except_else, lock. rewrite Hlock.
      unfold bind at 1. unfold emit at 1, modify at 1. unfold try_finally.
      unfold bind at 1. rewrite is_still_available_run.
      match goal with |- context [first_unavailable env ?l] =>
        change l with (own_positions s) end.
      match goal with |- context [availability_events env ?l] =>
        change l with (own_positions s) end.
      rewrite Hf, Hev. unfold OrderExtend.form_save. run.
      split; [reflexivity|]. simpl. repeat split. now flatten.
  - intros Hst. eexists.
    unfold OrderExtend.post. unfold bind at 1.
    rewrite (extend_form_valid env request s deadline Hm Hform).
    unfold bind at 1. unfold ask at 1, gets at 1. simpl store. simpl order.
    simpl Order.status. rewrite Hst. simpl Order.status_eqb. cbv iota.
    unfold OrderExtend.form_save. run.
    split; [reflexivity|]. simpl. rewrite Hst. repeat split.
    repeat constructor.
Qed.

Lemma extend_revalidates_expired_only_witness :
  (exists s',
     OrderExtend.post (Sample.env_of [10] true true)
       (Sample.request_of [("expires", "200")]) Sample.expired
     = (Ret (Redirect (OrderUrl "org" "conf" "ABC12")), s')
     /\ order_row (store s') = order_row (store Sample.expired)
     /\ Order.status (order (store s')) = Order.STATUS_EXPIRED)
  /\ (exists s',
        OrderExtend.post (Sample.env_of [] true true)
          (Sample.request_of [("expires", "200")]) Sample.expired
        = (Ret (Redirect (OrderUrl "org" "conf" "ABC12")), s')
        /\ Order.status (order_row (store s')) = Order.STATUS_PENDING
        /\ Order.expires (order_row (store s')) = 200)
  /\ (exists s',
        OrderExtend.post (Sample.env_of [10] false true)
          (Sample.request_of [("expires", "200")]) Sample.pending
        = (Ret (Redirect (OrderUrl "org" "conf" "ABC12")), s')
        /\ Order.expires (order_row (store s')) = 200
        /\ trace s' = [EvLog "pretix.event.order.expirychanged"]).
Proof.
  split; [|split].
  - destruct (extend_revalidates_expired_only (Sample.env_of [10] true true)
                (Sample.request_of [("expires", "200")]) Sample.expired 200
                eq_refl eq_refl) as [[Hrefused _] _]; try reflexivity.
    destruct Hrefused as (reason & checked & s' & Hp & _ & _ & Hrow & Hst & _).
    + exists Sample.item_X. split; [simpl; auto|]. eexists; reflexivity.
    + exists s'. auto.
  - destruct (extend_revalidates_expired_only (Sample.env_of [] true true)
                (Sample.request_of [("expires", "200")]) Sample.expired 200
                eq_refl eq_refl) as [[_ Hrevived] _]; try reflexivity.
    destruct Hrevived as (s' & Hp & Hrow & _).
    + intros p _. reflexivity.
    + exists s'. rewrite Hrow. auto.
  - destruct (extend_revalidates_expired_only (Sample.env_of [10] false true)
                (Sample.request_of [("expires", "200")]) Sample.pending 200
                eq_refl eq_refl) as [_ Hpending].
    destruct Hpending as (s' & Hp & Hrow & _ & _ & Htr & _); [reflexivity|].
    exists s'. rewrite Hrow, Htr. auto.
Defined.

(** C7. A valid deadline is submitted for an Expired order and the event lock
    is not obtained within its bound: the request ends with a redirect, the
    operator is shown the "server was too busy" error, and what is stored of
    the order, its status and its deadline among it, is what was stored
    before; no audit entry is written. *)
Theorem extend_reports_lock_timeout (env : Env) (request : Request) (s : St)
    (deadline : Z) :
  method request = "POST" ->
  ExtendForm env (POST request) = Some deadline ->
  Order.status (order (store s)) = Order.STATUS_EXPIRED ->
  lock_acquired env = false ->
  exists s',
    OrderExtend.post env request s = (Ret (Redirect (order_url request s)), s')
    /\ messages s'
       = messages s
         ++ [(ERROR,
              "We were not able to process the request completely as the server was too busy.")]
    /\ order_row (store s') = order_row (store s)
    /\ Order.status (order_row (store s')) = Order.status (order_row (store s))
    /\ Order.expires (order_row (store s')) = Order.expires (order_row (store s))
    /\ Order.status (order (store s')) = Order.STATUS_EXPIRED
    /\ log (store s') = log (store s)
    /\ trace s' = trace s ++ [EvLockTimeout].
Proof.
  intros Hm Hform Hst Hlock. eexists.
  unfold OrderExtend.post. unfold bind at 1.
  rewrite (extend_form_valid env request s deadline Hm Hform).
  unfold bind at 1. unfold ask at 1, gets at 1. simpl store. simpl order.
  simpl Order.status. rewrite Hst. simpl Order.status_eqb. cbv iota.
  unfold bind at 1. unfold try_except_else, lock. rewrite Hlock.
  run. split; [reflexivity|]. simpl. rewrite Hst. repeat split.
Qed.

Lemma extend_reports_lock_timeout_witness :
  exists s',
    OrderExtend.post (Sample.env_of [] false true)
      (Sample.request_of [("expires", "200")]) Sample.expired
    = (Ret (Redirect (OrderUrl "org" "conf" "ABC12")), s')
    /\ order_row (store s') = order_row (store Sample.expired)
    /\ messages s'
       = [(ERROR,
           "We were not able to process the request completely as the server was too busy.")].
Proof.
  destruct (extend_reports_lock_timeout (Sample.env_of [] false true)
              (Sample.request_of [("expires", "200")]) Sample.expired 200)
    as (s' & Hp & Hmsg & Hrow & _); try reflexivity.
  exists s'. auto.
Defined.

(** ** Invoices *)

Lemma invoices_get_reads (key : option PyVal) (s s0 : St) (r : Result Invoice.t) :
  invoices_get key s = (r, s0) -> s0 = s.
Proof.
  unfold invoices_get. run. intros H.
  destruct key as [[| b | n | t]|];
    repeat match type of H with
           | context [match ?x with _ => _ end] => destruct x
           end; now inversion H.
Qed.

Lemma fresh_invoice_pk_above (l : list Invoice.t) (i : Invoice.t) :
  In i l -> Invoice.pk i < fresh_invoice_pk l.
Proof.
  unfold fresh_invoice_pk. induction l as [|j l IH]; cbn [fold_right map In]; [tauto|].
  intros [->|H]; [|specialize (IH H)]; lia.
Qed.

(** C5. The invoice that the request names is canceled: regenerate and
    reissue both answer with the error "The invoice has already been
    canceled." and a redirect, and leave everything else as it was: the
    tables of invoices and of audit entries are unchanged, and neither a
    cancellation nor a new invoice nor an audit entry is among the effects. *)
Theorem canceled_invoice_is_rejected (env : Env) (request : Request) (kwargs : Dict PyVal)
    (s s0 : St) (inv : Invoice.t) :
  invoices_get (dict_get kwargs "id") s = (Ret inv, s0) ->
  Invoice.canceled inv = true ->
  exists s',
    OrderInvoiceRegenerate.post env request kwargs s
    = (Ret (Redirect (order_url request s)), s')
    /\ OrderInvoiceReissue.post env request kwargs s
       = (Ret (Redirect (order_url request s)), s')
    /\ messages s' = messages s ++ [(ERROR, "The invoice has already been canceled.")]
    /\ store s' = store s
    /\ invoices (store s') = invoices (store s)
    /\ log (store s') = log (store s)
    /\ trace s' = trace s.
Proof.
  intros Hget Hc. pose proof (invoices_get_reads _ _ _ _ Hget) as ->.
  eexists.
  unfold OrderInvoiceRegenerate.post, OrderInvoiceReissue.post.
  unfold bind at 1. unfold try_except_else at 1. rewrite Hget, Hc.
  unfold bind at 2. unfold try_except_else at 1. rewrite Hget, Hc.
  unfold messages_error, OrderView.get_order_url. run.
  split; [reflexivity|]. split; [reflexivity|]. simpl. repeat split.
Qed.

Lemma canceled_invoice_is_rejected_witness :
  exists s',
    OrderInvoiceRegenerate.post (Sample.env_of [] true true) (Sample.request_of [])
      [("id", VStr "1")] Sample.canceled_invoice
    = (Ret (Redirect (OrderUrl "org" "conf" "ABC12")), s')
    /\ OrderInvoiceReissue.post (Sample.env_of [] true true) (Sample.request_of [])
         [("id", VStr "1")] Sample.canceled_invoice
       = (Ret (Redirect (OrderUrl "org" "conf" "ABC12")), s')
    /\ invoices (store s') = [Invoice.with_canceled true Sample.invoice_1]
    /\ log (store s') = []
    /\ trace s' = [].
Proof.
  destruct (canceled_invoice_is_rejected (Sample.env_of [] true true) (Sample.request_of [])
              [("id", VStr "1")] Sample.canceled_invoice Sample.canceled_invoice
              (Invoice.with_canceled true Sample.invoice_1))
    as (s' & H1 & H2 & _ & _ & Hi & Hl & Ht); try reflexivity.
  exists s'. rewrite Hi, Hl, Ht. auto.
Defined.

(** C6. The invoice that the request names is not canceled: reissuing it
    first creates the cancellation record for it, then generates the new
    invoice of the order, then writes the audit entry of the reissue, whose
    payload refers to the new invoice; the effects occur in this order and
    the record has the smaller key. *)
Theorem reissue_cancels_then_generates (env : Env) (request : Request)
    (kwargs : Dict PyVal) (s s0 : St) (inv : Invoice.t) :
  invoices_get (dict_get kwargs "id") s = (Ret inv, s0) ->
  Invoice.canceled inv = false ->
  let record :=
    Invoice.mk (fresh_invoice_pk (invoices (store s))) (Invoice.order inv) false true
      (Some (Invoice.pk inv)) in
  let after_cancel :=
    map (mark_canceled (Invoice.pk inv)) (invoices (store s)) ++ [record] in
  let new :=
    Invoice.mk (fresh_invoice_pk after_cancel) (Order.code (order (store s))) false false
      None in
  exists s1 s',
    generate_cancellation inv s = (Ret record, s1)
    /\ invoices (store s1) = after_cancel
    /\ OrderInvoiceReissue.post env request kwargs s
       = (Ret (Redirect (order_url request s)), s')
    /\ invoices (store s') = after_cancel ++ [new]
    /\ Invoice.pk record < Invoice.pk new
    /\ trace s'
       = trace s
         ++ [EvCancellation (Invoice.pk inv) (Invoice.pk record);
             EvInvoice (Invoice.pk new);
             EvLog "pretix.event.order.invoice.reissued"]
    /\ log (store s')
       = log (store s)
         ++ [LogEntry.mk "pretix.event.order.invoice.reissued" (Some (user request))
               [("invoice", VInt (Invoice.pk new))]]
    /\ messages s' = messages s ++ [(SUCCESS, "The invoice has been reissued.")].
Proof.
  intros Hget Hc record after_cancel new.
  pose proof (invoices_get_reads _ _ _ _ Hget) as ->.
  exists (with_trace (trace s ++ [EvCancellation (Invoice.pk inv) (Invoice.pk record)])
            (with_store (with_invoices after_cancel (store s)) s)).
  eexists. split; [reflexivity|]. split; [reflexivity|].
  unfold OrderInvoiceReissue.post.
  unfold bind at 1. unfold try_except_else at 1. rewrite Hget, Hc.
  unfold generate_cancellation, generate_invoice, messages_success,
    OrderView.get_order_url. run.
  split; [reflexivity|]. simpl. split; [reflexivity|].
  split; [|repeat split; now flatten].
  apply (fresh_invoice_pk_above after_cancel record).
  unfold after_cancel. apply in_or_app. right. now left.
Qed.

Lemma reissue_cancels_then_generates_witness :
  exists s',
    OrderInvoiceReissue.post (Sample.env_of [] true true) (Sample.request_of [])
      [("id", VStr "1")] Sample.pending
    = (Ret (Redirect (OrderUrl "org" "conf" "ABC12")), s')
    /\ trace s'
       = [EvCancellation 1 2; EvInvoice 3; EvLog "pretix.event.order.invoice.reissued"]
    /\ log (store s')
       = [LogEntry.mk "pretix.event.order.invoice.reissued" (Some "admin")
            [("invoice", VInt 3)]].
Proof.
  destruct (reissue_cancels_then_generates (Sample.env_of [] true true)
              (Sample.request_of []) [("id", VStr "1")] Sample.pending Sample.pending
              Sample.invoice_1)
    as (s1 & s' & _ & _ & Hp & _ & _ & Ht & Hl & _); try reflexivity.
  exists s'. rewrite Ht, Hl. auto.
Defined.

(** ** The guards in front of the change and extend views *)

(** C8. The order is Expired, Canceled or Refunded: whatever the request and
    whatever the parent's [dispatch] would do, [OrderChange.dispatch] answers
    with the error "This action is only allowed for pending or paid orders."
    and a redirect to the order; the state is otherwise what it was, so no
    change manager was created and nothing was queued or committed. This
    holds in particular when the parent would have run [post]. *)
Theorem change_refused_unless_pending_or_paid (env : Env) (M : ChangeManager)
    (request : Request)
    (super_dispatch : Request -> list PyVal -> Dict PyVal -> Eff St Response)
    (args : list PyVal) (kwargs : Dict PyVal) (s : St) :
  In (Order.status (order (store s)))
     [Order.STATUS_EXPIRED; Order.STATUS_CANCELED; Order.STATUS_REFUNDED] ->
  let s' :=
    with_messages
      (messages s ++ [(ERROR, "This action is only allowed for pending or paid orders.")]) s in
  OrderChange.dispatch request super_dispatch args kwargs s
  = (Ret (Redirect (order_url request s)), s')
  /\ OrderChange.dispatch request (fun r _ _ => OrderChange.post env M r) args kwargs s
     = (Ret (Redirect (order_url request s)), s')
  /\ store s' = store s
  /\ trace s' = trace s.
Proof.
  intros Hst s'.
  assert (Hin : Order.status_in (order (store s))
                  [Order.STATUS_PENDING; Order.STATUS_PAID] = false).
  { unfold Order.status_in. simpl in Hst.
    destruct Hst as [H|[H|[H|[]]]]; rewrite <- H; reflexivity. }
  unfold OrderChange.dispatch. run. rewrite Hin. simpl.
  repeat split.
Qed.

Lemma change_refused_unless_pending_or_paid_witness :
  OrderChange.dispatch (Sample.request_of [("op-1-operation", "cancel")])
    (fun r _ _ =>
       OrderChange.post (Sample.env_of [] true true) SpecManager.manager r)
    [] [("code", VStr "ABC12")] Sample.expired
  = (Ret (Redirect (OrderUrl "org" "conf" "ABC12")),
     with_messages [(ERROR, "This action is only allowed for pending or paid orders.")]
       Sample.expired).
Proof.
  apply (change_refused_unless_pending_or_paid (Sample.env_of [] true true)
           SpecManager.manager (Sample.request_of [("op-1-operation", "cancel")])
           (fun r _ _ =>
              OrderChange.post (Sample.env_of [] true true) SpecManager.manager r)
           [] [("code", VStr "ABC12")] Sample.expired).
  simpl. auto.
Defined.

Lemma extend_dispatch_forwards (request : Request)
    (super_dispatch : Request -> list PyVal -> Dict PyVal -> Eff St Response)
    (args : list PyVal) (kwargs : Dict PyVal) (s : St) :
  Order.status_in (order (store s)) [Order.STATUS_PENDING; Order.STATUS_EXPIRED] = true ->
  OrderExtend.dispatch super_dispatch request args kwargs s
  = super_dispatch request (map VStr (keys kwargs)) kwargs s.
Proof.
  intros H. unfold OrderExtend.dispatch. run. now rewrite H.
Qed.

(** C9. What [OrderExtend.dispatch] hands to the parent's [dispatch] for a
    Pending order and the keyword arguments [{'code': 'ABC12'}]: the request,
    the keyword arguments, and as positional arguments the keys of the
    keyword arguments, [('code',)], whether the view was called with no
    positional argument or with [(7,)]. The positional arguments of the view
    are not forwarded: a parent that answers with the positional arguments it
    was given tells the two apart. *)
Theorem extend_dispatch_forwards_keys_as_positional :
  (forall super_dispatch : Request -> list PyVal -> Dict PyVal -> Eff St Response,
     OrderExtend.dispatch super_dispatch (Sample.request_of []) []
       [("code", VStr "ABC12")] Sample.pending
     = super_dispatch (Sample.request_of []) [VStr "code"] [("code", VStr "ABC12")]
         Sample.pending
     /\ OrderExtend.dispatch super_dispatch (Sample.request_of []) [VInt 7]
          [("code", VStr "ABC12")] Sample.pending
        = super_dispatch (Sample.request_of []) [VStr "code"] [("code", VStr "ABC12")]
            Sample.pending)
  /\ (exists super_dispatch : Request -> list PyVal -> Dict PyVal -> Eff St Response,
        OrderExtend.dispatch super_dispatch (Sample.request_of []) []
          [("code", VStr "ABC12")] Sample.pending
        <> super_dispatch (Sample.request_of []) [] [("code", VStr "ABC12")]
             Sample.pending).
Proof.
  split.
  - intros sd. split; now rewrite extend_dispatch_forwards.
  - exists (fun _ given _ =>
              ret (HttpResponseNotAllowed
                     (map (fun v => match v with VStr t => t | _ => EmptyString end) given))).
    rewrite extend_dispatch_forwards by reflexivity. discriminate.
Qed.

(** ** Changing the contact address *)

Section Renewal.

Import OrderContactChange.

Variable env : Env.

Let pks := map OrderPosition.pk.

Lemma nodup_pk_eq (table : list OrderPosition.t) (a b : OrderPosition.t) :
  NoDup (pks table) -> In a table -> In b table ->
  OrderPosition.pk a = OrderPosition.pk b -> a = b.
Proof.
  unfold pks. induction table as [|q table IH]; simpl; [tauto|].
  intros Hnd Ha Hb Heq. inversion Hnd as [|? ? Hq Hnd']; subst.
  destruct Ha as [->|Ha], Hb as [->|Hb]; auto.
  - exfalso. apply Hq. rewrite Heq. now apply in_map.
  - exfalso. apply Hq. rewrite <- Heq. now apply in_map.
Qed.

Lemma overwrite_pks (p : OrderPosition.t) (table : list OrderPosition.t) :
  pks (overwrite p table) = pks table.
Proof.
  unfold pks, overwrite. rewrite map_map. apply map_ext. intros q.
  destruct (Z.eqb_spec (OrderPosition.pk q) (OrderPosition.pk p)); congruence.
Qed.

Lemma overwrite_here (x : string) (op : OrderPosition.t) (table : list OrderPosition.t) :
  In op table -> In (OrderPosition.with_secret x op) (overwrite (OrderPosition.with_secret x op) table).
Proof.
  intros H. unfold overwrite. apply in_map_iff. exists op. split; [|exact H].
  simpl. now rewrite Z.eqb_refl.
Qed.

Lemma overwrite_elsewhere (p q : OrderPosition.t) (table : list OrderPosition.t) :
  In q table -> OrderPosition.pk q <> OrderPosition.pk p -> In q (overwrite p table).
Proof.
  intros H Hne. unfold overwrite. apply in_map_iff. exists q. split; [|exact H].
  destruct (Z.eqb_spec (OrderPosition.pk q) (OrderPosition.pk p)); congruence.
Qed.

Lemma overwrite_orders (x : string) (op : OrderPosition.t) (table : list OrderPosition.t) :
  NoDup (pks table) -> In op table ->
  map OrderPosition.order (overwrite (OrderPosition.with_secret x op) table)
  = map OrderPosition.order table.
Proof.
  intros Hnd Hin. unfold overwrite. rewrite map_map. apply map_ext_in. intros q Hq.
  simpl. destruct (Z.eqb_spec (OrderPosition.pk q) (OrderPosition.pk op)) as [E|E]; [|reflexivity].
  now rewrite (nodup_pk_eq table q op Hnd Hq Hin E).
Qed.

Lemma renewed_keeps (todo : list OrderPosition.t) :
  forall (n : nat) (table : list OrderPosition.t) (q : OrderPosition.t),
    In q table -> ~ In (OrderPosition.pk q) (pks todo) -> In q (renewed env n todo table).
Proof.
  induction todo as [|op rest IH]; intros n table q Hq Hout; simpl; [exact Hq|].
  apply IH.
  - apply overwrite_elsewhere; [exact Hq|]. simpl. intros E. apply Hout. now left.
  - intros H. apply Hout. now right.
Qed.

Lemma renewed_pks (todo : list OrderPosition.t) :
  forall (n : nat) (table : list OrderPosition.t),
    pks (renewed env n todo table) = pks table.
Proof.
  induction todo as [|op rest IH]; intros n table; simpl; [reflexivity|].
  now rewrite IH, overwrite_pks.
Qed.

Lemma incl_overwrite (x : string) (op : OrderPosition.t) (rest table : list OrderPosition.t) :
  NoDup (pks (op :: rest)) -> incl (op :: rest) table ->
  incl rest (overwrite (OrderPosition.with_secret x op) table).
Proof.
  intros Hnd Hincl r Hr. apply overwrite_elsewhere.
  - apply Hincl. now right.
  - simpl. intros E. inversion Hnd as [|? ? Hop _]; subst. apply Hop.
    rewrite <- E. unfold pks. now apply in_map.
Qed.

Lemma renewed_orders (todo : list OrderPosition.t) :
  forall (n : nat) (table : list OrderPosition.t),
    NoDup (pks table) -> NoDup (pks todo) -> incl todo table ->
    map OrderPosition.order (renewed env n todo table) = map OrderPosition.order table.
Proof.
  induction todo as [|op rest IH]; intros n table Hnd Htodo Hincl; simpl; [reflexivity|].
  rewrite IH.
  - apply overwrite_orders; [exact Hnd|]. apply Hincl. now left.
  - now rewrite overwrite_pks.
  - now inversion Htodo.
  - now apply incl_overwrite.
Qed.

Lemma renewed_secret (todo : list OrderPosition.t) :
  forall (n : nat) (table : list OrderPosition.t) (j : nat) (p : OrderPosition.t),
    NoDup (pks todo) -> incl todo table ->
    nth_error todo j = Some p ->
    In (OrderPosition.with_secret (generate_position_secret env (n + j)) p)
       (renewed env n todo table).
Proof.
  induction todo as [|op rest IH]; intros n table j p Htodo Hincl Hj.
  - now destruct j.
  - simpl. destruct j as [|j]; simpl in Hj.
    + inversion Hj; subst p. rewrite Nat.add_0_r. apply renewed_keeps.
      * apply overwrite_here. apply Hincl. now left.
      * simpl. now inversion Htodo.
    + rewrite Nat.add_succ_r. apply (IH (S n)); [now inversion Htodo| |exact Hj].
      now apply incl_overwrite.
Qed.

Lemma renew_secrets_run (todo : list OrderPosition.t) :
  forall s : St,
    renew_secrets env todo s
    = (Ret tt,
       with_store
         (with_draws (draws (store s) + length todo)
            (with_positions (renewed env (draws (store s)) todo (positions (store s)))
               (store s))) s).
Proof.
  induction todo as [|op rest IH]; intros [[o r ps iv tk lg d] m a c t]; simpl.
  - unfold ret, with_store, with_draws, with_positions; simpl. now rewrite Nat.add_0_r.
  - unfold draw, save_position. run. rewrite IH. simpl.
    unfold with_store, with_draws, with_positions; simpl. now rewrite Nat.add_succ_r.
Qed.

End Renewal.

Lemma positions_of_incl (o : Order.t) (table : list OrderPosition.t) :
  incl (positions_of o table) table.
Proof. intros p H. unfold positions_of in H. now apply filter_In in H. Qed.

Lemma positions_of_nodup (o : Order.t) (table : list OrderPosition.t) :
  NoDup (map OrderPosition.pk table) ->
  NoDup (map OrderPosition.pk (positions_of o table)).
Proof.
  unfold positions_of. induction table as [|q table IH]; simpl; intros H; [constructor|].
  inversion H as [|? ? Hq Hnd]; subst.
  destruct (String.eqb _ _); simpl; [constructor|]; auto.
  intros Hin. apply Hq. apply in_map_iff in Hin. destruct Hin as (x & <- & Hx).
  apply in_map. now apply filter_In in Hx.
Qed.

Lemma ticket_of_order_ext (o : Order.t) (t : CachedTicket.t) (ps : list OrderPosition.t) :
  forall ps' : list OrderPosition.t,
    map OrderPosition.pk ps = map OrderPosition.pk ps' ->
    map OrderPosition.order ps = map OrderPosition.order ps' ->
    OrderContactChange.ticket_of_order o ps t = OrderContactChange.ticket_of_order o ps' t.
Proof.
  unfold OrderContactChange.ticket_of_order.
  induction ps as [|p ps IH]; intros [|p' ps'] Hk Ho; simpl in *; try discriminate; auto.
  injection Hk as Hk1 Hk2. injection Ho as Ho1 Ho2.
  now rewrite Hk1, Ho1, (IH ps' Hk2 Ho2).
Qed.

(** C10. A valid contact form is submitted; position keys are unique. In
    either case the stored order carries the new address and the contact
    change is in the audit log. With [regenerate_secrets] unset, the stored
    order keeps its secret and the tables of positions and cached tickets are
    what they were. With it set, the stored order carries the secret that
    [generate_secret] produced, the j-th position of the order carries the
    secret of its own call of [generate_position_secret], positions of other
    orders are untouched, the cached tickets left are those that do not
    belong to a position of the order, and the audit log ends with the
    secret-changed entry. *)
Theorem contact_change_renews_secrets_on_request (env : Env) (request : Request) (s : St)
    (cleaned_data : ContactData) :
  method request = "POST" ->
  OrderContactForm env (POST request) = Some cleaned_data ->
  NoDup (map OrderPosition.pk (positions (store s))) ->
  let contact_changed :=
    LogEntry.mk "pretix.event.order.contact.changed" (Some (user request))
      [("old_email", VStr (Order.email (order (store s))));
       ("new_email", VStr (new_email cleaned_data))] in
  exists s',
    OrderContactChange.post env request s = (Ret (Redirect (order_url request s)), s')
    /\ Order.email (order_row (store s')) = new_email cleaned_data
    /\ (regenerate_secrets cleaned_data = false ->
        Order.secret (order_row (store s')) = Order.secret (order (store s))
        /\ positions (store s') = positions (store s)
        /\ tickets (store s') = tickets (store s)
        /\ draws (store s') = draws (store s)
        /\ log (store s') = log (store s) ++ [contact_changed])
    /\ (regenerate_secrets cleaned_data = true ->
        Order.secret (order_row (store s')) = generate_secret env (draws (store s))
        /\ (forall j p,
              nth_error (own_positions s) j = Some p ->
              In (OrderPosition.with_secret
                    (generate_position_secret env (S (draws (store s)) + j)) p)
                 (positions (store s')))
        /\ (forall q,
              In q (positions (store s)) ->
              OrderPosition.order q <> Order.code (order (store s)) ->
              In q (positions (store s')))
        /\ map OrderPosition.pk (positions (store s'))
           = map OrderPosition.pk (positions (store s))
        /\ (forall t,
              In t (tickets (store s')) <->
              In t (tickets (store s))
              /\ OrderContactChange.ticket_of_order (order (store s))
                   (positions (store s)) t = false)
        /\ log (store s')
           = log (store s)
             ++ [contact_changed;
                 LogEntry.mk "pretix.event.order.secret.changed" (Some (user request)) []]).
Proof.
  intros Hm Hform Hnd contact_changed.
  pose proof (positions_of_incl (order (store s)) (positions (store s))) as Hincl.
  pose proof (positions_of_nodup (order (store s)) _ Hnd) as Hown.
  unfold OrderContactChange.post, OrderContactChange.form_is_valid.
  rewrite Hm, Hform. simpl String.eqb. cbv iota.
  destruct (regenerate_secrets cleaned_data) eqn:Hre.
  - unfold OrderContactChange.draw, messages_success, OrderView.get_order_url. run.
    rewrite Hre, renew_secrets_run. run.
    match goal with |- context [renewed env ?n ?todo ?table] =>
      change todo with (own_positions s);
      set (table' := renewed env n todo table) end.
    eexists. split; [reflexivity|]. simpl.
    split; [reflexivity|]. split; [discriminate|]. intros _.
    split; [reflexivity|]. split; [|split; [|split; [|split]]].
    + intros j p Hj.
      exact (renewed_secret env (own_positions s) (S (draws (store s)))
               (positions (store s)) j p Hown Hincl Hj).
    + intros q Hq Hother. apply renewed_keeps; [exact Hq|].
      intros Hin. apply in_map_iff in Hin. destruct Hin as (x & Hx & Hxin).
      assert (x = q) by (apply (nodup_pk_eq (positions (store s))); auto).
      subst x. unfold own_positions, positions_of in Hxin.
      apply filter_In in Hxin. destruct Hxin as [_ Hc].
      apply String.eqb_eq in Hc. contradiction.
    + apply renewed_pks.
    + intros t. rewrite filter_In.
      rewrite (ticket_of_order_ext _ t table' (positions (store s)));
        [| apply renewed_pks | apply renewed_orders; assumption ].
      unfold OrderContactChange.ticket_of_order at 1. simpl.
      fold (OrderContactChange.ticket_of_order (order (store s)) (positions (store s)) t).
      rewrite negb_true_iff. reflexivity.
    + now flatten.
  - unfold messages_success, OrderView.get_order_url. run. rewrite Hre.
    eexists. split; [reflexivity|]. simpl.
    split; [reflexivity|]. split; [|discriminate]. intros _. repeat split.
Qed.

Lemma contact_change_renews_secrets_on_request_witness :
  (exists s',
     OrderContactChange.post (Sample.env_of [] true true)
       (Sample.request_of [("email", "new@example.org"); ("regenerate_secrets", "on")])
       Sample.pending
     = (Ret (Redirect (OrderUrl "org" "conf" "ABC12")), s')
     /\ Order.email (order_row (store s')) = "new@example.org"
     /\ Order.secret (order_row (store s')) = "oa"
     /\ In (OrderPosition.with_secret "pb" Sample.item_X) (positions (store s'))
     /\ In (OrderPosition.with_secret "pc" Sample.item_Y) (positions (store s'))
     /\ In Sample.foreign (positions (store s')))
  /\ (exists s',
        OrderContactChange.post (Sample.env_of [] true true)
          (Sample.request_of [("email", "new@example.org")]) Sample.pending
        = (Ret (Redirect (OrderUrl "org" "conf" "ABC12")), s')
        /\ Order.email (order_row (store s')) = "new@example.org"
        /\ Order.secret (order_row (store s')) = "s0"
        /\ positions (store s') = positions (store Sample.pending)).
Proof.
  assert (Hnd : NoDup (map OrderPosition.pk (positions (store Sample.pending)))).
  { simpl. repeat constructor; simpl; intuition discriminate. }
  split.
  - destruct (contact_change_renews_secrets_on_request (Sample.env_of [] true true)
                (Sample.request_of
                   [("email", "new@example.org"); ("regenerate_secrets", "on")])
                Sample.pending (mkContactData "new@example.org" true)
                eq_refl eq_refl Hnd)
      as (s' & Hp & Hmail & _ & Hset).
    destruct (Hset eq_refl) as (Hsec & Hpos & Hother & _).
    exists s'. repeat split; auto.
    + exact (Hpos 0%nat Sample.item_X eq_refl).
    + exact (Hpos 1%nat Sample.item_Y eq_refl).
    + apply Hother; [simpl; auto|discriminate].
  - destruct (contact_change_renews_secrets_on_request (Sample.env_of [] true true)
                (Sample.request_of [("email", "new@example.org")])
                Sample.pending (mkContactData "new@example.org" false)
                eq_refl eq_refl Hnd)
      as (s' & Hp & Hmail & Hunset & _).
    destruct (Hunset eq_refl) as (Hsec & Hpos & _).
    exists s'. repeat split; auto.
Defined.

(** ** A batch of changes *)

Lemma position_failures_In (tr : list Effect) (key : Z) (msg : string) :
  In (EvManagerCall (Some key) (Some msg)) tr <-> In (key, msg) (position_failures tr).
Proof.
  unfold position_failures. rewrite in_flat_map. split.
  - intros H. exists (EvManagerCall (Some key) (Some msg)). simpl. auto.
  - intros (e & He & Hin). destruct e as [| | | | | | | | | [k|] [m|] |]; simpl in Hin;
      try contradiction. destruct Hin as [H|[]]. now inversion H; subst.
Qed.

Lemma position_failures_app (a b : list Effect) :
  position_failures (a ++ b) = position_failures a ++ position_failures b.
Proof. apply flat_map_app. Qed.

Lemma no_failed_call (tr : list Effect) (t : option Z) (msg : string) :
  existsb failed_call tr = false -> ~ In (EvManagerCall t (Some msg)) tr.
Proof.
  intros H Hin. assert (existsb failed_call tr = true); [|congruence].
  apply existsb_exists. now exists (EvManagerCall t (Some msg)).
Qed.

Lemma no_failed_call_failures (tr : list Effect) :
  existsb failed_call tr = false -> position_failures tr = [].
Proof.
  induction tr as [|e tr IH]; simpl; [reflexivity|].
  intros H. apply orb_false_iff in H. destruct H as [He Htr].
  rewrite (IH Htr). destruct e as [| | | | | | | | | [k|] [m|] |]; simpl in *;
    congruence.
Qed.

Lemma grown_nothing (s : St) : grown [] [] s = s.
Proof.
  destruct s. unfold grown, with_custom_error, with_trace. simpl. now rewrite !app_nil_r.
Qed.

Lemma grown_grown (t1 t2 : list Effect) (c1 c2 : list (Z * string)) (s : St) :
  grown t2 c2 (grown t1 c1 s) = grown (t1 ++ t2) (c1 ++ c2) s.
Proof.
  destruct s. unfold grown, with_custom_error, with_trace. simpl. now rewrite !app_assoc.
Qed.

Lemma grown_trace (tr : list Effect) (s : St) :
  with_trace (trace s ++ tr) s = grown tr [] s.
Proof.
  destruct s. unfold grown, with_custom_error, with_trace. simpl. now rewrite app_nil_r.
Qed.

Lemma failure_is_last_nil : failure_is_last [].
Proof. intros pre x post H. destruct pre; discriminate. Qed.

Lemma failure_is_last_cons (e : Effect) (tr : list Effect) :
  failed_call e = false -> failure_is_last tr -> failure_is_last (e :: tr).
Proof.
  intros He Htr pre x post H Hf.
  destruct pre as [|y pre]; simpl in H; inversion H; subst.
  - congruence.
  - now apply (Htr pre x post).
Qed.

Lemma failure_is_last_one (e : Effect) : failure_is_last [e].
Proof.
  intros pre x post H _.
  destruct pre as [|y [|z pre]]; simpl in H; inversion H; reflexivity.
Qed.

Lemma failure_is_last_none (tr : list Effect) :
  existsb failed_call tr = false -> failure_is_last tr.
Proof.
  induction tr as [|e tr IH]; simpl; intros H; [apply failure_is_last_nil|].
  apply orb_false_iff in H. destruct H as [He Htr].
  apply failure_is_last_cons; auto.
Qed.

Lemma failure_is_last_app (a tr : list Effect) :
  existsb failed_call a = false -> failure_is_last tr -> failure_is_last (a ++ tr).
Proof.
  induction a as [|e a IH]; simpl; intros H Htr; [exact Htr|].
  apply orb_false_iff in H. destruct H as [He Ha].
  apply failure_is_last_cons; auto.
Qed.

Section Batch.

Context (env : Env) (M : ChangeManager) (request : Request).

Lemma resolve_reads (iv : string) (s : St) :
  exists r, OrderChange.resolve env request iv s = (r, s)
            /\ forall msg, r <> Raise (OrderError msg).
Proof.
  unfold OrderChange.resolve, OrderChange.Item_objects_get,
    OrderChange.ItemVariation_objects_get.
  destruct (OrderChange.contains "-" iv).
  - destruct (OrderChange.split "-" iv) as [|a [|b [|c l]]]; run;
      try (eexists; split; [reflexivity|discriminate]).
    destruct (int_of_str a); [|eexists; split; [reflexivity|discriminate]].
    destruct (find _ (Item_objects env));
      [|eexists; split; [reflexivity|discriminate]].
    destruct b; [eexists; split; [reflexivity|discriminate]|].
    destruct (int_of_str _); [|eexists; split; [reflexivity|discriminate]].
    destruct (find _ (ItemVariation_objects env));
      eexists; split; try reflexivity; discriminate.
  - run. destruct (int_of_str iv); [|eexists; split; [reflexivity|discriminate]].
    destruct (find _ (Item_objects env));
      eexists; split; try reflexivity; discriminate.
Qed.

Lemma call_run (target : option Z) (r : string + ocm M) (s : St) :
  (exists o, r = inr o
             /\ OrderChange.call M target r s
                = (Ret o, with_trace (trace s ++ [EvManagerCall target None]) s))
  \/ (exists msg, r = inl msg
                  /\ OrderChange.call M target r s
                     = (Raise (OrderError msg),
                        with_trace (trace s ++ [EvManagerCall target (Some msg)]) s)).
Proof.
  destruct r as [msg|o]; [right; exists msg|left; exists o]; split; reflexivity.
Qed.

(** One position: either no call was made and the state is what it was, or
    one call was made and the record shows how it ended. *)
Lemma change_run (o : ocm M) (p : OrderPosition.t) (cleaned_data : ChangeData) (s : St) :
  (exists r, OrderChange.change env M request o p cleaned_data s = (r, s)
             /\ forall msg, r <> Raise (OrderError msg))
  \/ (exists o',
        OrderChange.change env M request o p cleaned_data s
        = (Ret o',
           with_trace (trace s ++ [EvManagerCall (Some (OrderPosition.pk p)) None]) s))
  \/ (exists msg,
        OrderChange.change env M request o p cleaned_data s
        = (Raise (OrderError msg),
           with_trace
             (trace s ++ [EvManagerCall (Some (OrderPosition.pk p)) (Some msg)]) s)).
Proof.
  unfold OrderChange.change.
  assert (Hcall : forall r,
            (exists o', OrderChange.call M (Some (OrderPosition.pk p)) r s
               = (Ret o',
                  with_trace (trace s ++ [EvManagerCall (Some (OrderPosition.pk p)) None]) s))
            \/ (exists msg, OrderChange.call M (Some (OrderPosition.pk p)) r s
                  = (Raise (OrderError msg),
                     with_trace
                       (trace s ++ [EvManagerCall (Some (OrderPosition.pk p)) (Some msg)]) s))).
  { intros r. destruct (call_run (Some (OrderPosition.pk p)) r s)
      as [(o' & _ & H)|(msg & _ & H)]; eauto. }
  destruct (String.eqb (operation cleaned_data) "product").
  - unfold bind. destruct (resolve_reads (itemvar cleaned_data) s) as (r & Hr & Hne).
    rewrite Hr. destruct r as [iv|e].
    + right. apply Hcall.
    + left. exists (Raise e). split; [reflexivity|].
      intros msg H. apply (Hne msg). now inversion H.
  - destruct (String.eqb (operation cleaned_data) "price"); [right; apply Hcall|].
    destruct (String.eqb (operation cleaned_data) "subevent"); [right; apply Hcall|].
    destruct (String.eqb (operation cleaned_data) "cancel"); [right; apply Hcall|].
    left. exists (Ret o). split; [reflexivity|discriminate].
Qed.

(** The lookup answers the same in every state and leaves it alone. *)
Lemma resolve_looked_up (iv : string) (s0 s : St) :
  OrderChange.resolve env request iv s = (looked_up env request s0 iv, s).
Proof.
  unfold looked_up, OrderChange.resolve, OrderChange.Item_objects_get,
    OrderChange.ItemVariation_objects_get.
  destruct (OrderChange.contains "-" iv).
  - destruct (OrderChange.split "-" iv) as [|a [|b [|c l]]]; run; try reflexivity.
    destruct (int_of_str a); [|reflexivity].
    destruct (find _ (Item_objects env)); [|reflexivity].
    destruct b; [reflexivity|].
    destruct (int_of_str _); [|reflexivity].
    destruct (find _ (ItemVariation_objects env)); reflexivity.
  - run. destruct (int_of_str iv); [|reflexivity].
    destruct (find _ (Item_objects env)); reflexivity.
Qed.

Lemma looked_up_no_order_error (iv : string) (s0 : St) (msg : string) :
  looked_up env request s0 iv <> Raise (OrderError msg).
Proof.
  unfold looked_up. destruct (resolve_reads iv s0) as (r & Hr & Hne).
  rewrite Hr. apply Hne.
Qed.

(** One position, seen from the answer of the manager: a refusal is raised
    and recorded, an acceptance is recorded, a failed lookup is raised before
    any call, and a form without operation makes no call. *)
Lemma change_answer (o : ocm M) (p : OrderPosition.t) (cleaned_data : ChangeData)
    (s0 s : St) :
  match answer env M request s0 o p cleaned_data with
  | Ret (inr o') =>
      exists a,
        Forall position_call a /\ existsb failed_call a = false
        /\ OrderChange.change env M request o p cleaned_data s = (Ret o', grown a [] s)
  | Ret (inl msg) =>
      OrderChange.change env M request o p cleaned_data s
      = (Raise (OrderError msg),
         grown [EvManagerCall (Some (OrderPosition.pk p)) (Some msg)] [] s)
  | Raise e =>
      OrderChange.change env M request o p cleaned_data s = (Raise e, s)
      /\ forall msg, e <> OrderError msg
  end.
Proof.
  assert (Hcall : forall r : string + ocm M,
            match r with
            | inr o' =>
                exists a,
                  Forall position_call a /\ existsb failed_call a = false
                  /\ OrderChange.call M (Some (OrderPosition.pk p)) r s
                     = (Ret o', grown a [] s)
            | inl msg =>
                OrderChange.call M (Some (OrderPosition.pk p)) r s
                = (Raise (OrderError msg),
                   grown [EvManagerCall (Some (OrderPosition.pk p)) (Some msg)] [] s)
            end).
  { intros [msg|o']; [rewrite <- grown_trace; reflexivity|].
    exists [EvManagerCall (Some (OrderPosition.pk p)) None].
    split; [constructor; [now exists (OrderPosition.pk p), None|constructor]|].
    split; [reflexivity|]. rewrite <- grown_trace. reflexivity. }
  unfold answer, OrderChange.change.
  destruct (String.eqb (operation cleaned_data) "product").
  - unfold bind. rewrite (resolve_looked_up _ s0 s).
    destruct (looked_up env request s0 (itemvar cleaned_data)) as [iv|e] eqn:E.
    + apply Hcall.
    + split; [reflexivity|]. intros msg ->.
      now apply (looked_up_no_order_error (itemvar cleaned_data) s0 msg).
  - destruct (String.eqb (operation cleaned_data) "price"); [apply Hcall|].
    destruct (String.eqb (operation cleaned_data) "subevent"); [apply Hcall|].
    destruct (String.eqb (operation cleaned_data) "cancel"); [apply Hcall|].
    exists []. rewrite grown_nothing. repeat split. constructor.
Qed.

End Batch.

Section BatchRun.

Context (env : Env) (M : ChangeManager) (request : Request).

(** The loop over the positions: the record grows by calls on positions, the
    errors on positions by exactly the failures among them; [True] is
    answered only when no call failed and every form was valid. *)
Lemma process_positions_run (ps : list OrderPosition.t) :
  forall (o : ocm M) (s : St),
  exists tr r,
    OrderChange.process_positions env M request ps o s
    = (r, grown tr (position_failures tr) s)
    /\ Forall position_call tr
    /\ failure_is_last tr
    /\ match r with
       | Ret (true, _) =>
           existsb failed_call tr = false
           /\ forall p, In p ps -> OrderChange.form env request p <> None
       | Ret (false, _) => True
       | Raise e => existsb failed_call tr = false /\ forall msg, e <> OrderError msg
       end.
Proof.
  induction ps as [|p rest IH]; intros o s; simpl.
  - exists [], (Ret (true, o)). rewrite grown_nothing.
    repeat split; auto using failure_is_last_nil; intros ? [].
  - destruct (OrderChange.form env request p) as [cleaned_data|] eqn:Hform.
    2:{ exists [], (Ret (false, o)). rewrite grown_nothing.
        repeat split; auto using failure_is_last_nil. }
    unfold try_except_else.
    destruct (change_run env M request o p cleaned_data s)
      as [(r & Hr & Hne)|[(o' & Hr)|(msg & Hr)]]; rewrite Hr.
    + destruct r as [o'|e].
      * destruct (IH o' s) as (tr & r & Hrun & Hcalls & Hlast & Hres).
        exists tr, r. split; [exact Hrun|]. split; [exact Hcalls|].
        split; [exact Hlast|].
        destruct r as [[[|] o'']|e]; auto.
        destruct Hres as [Hok Hforms]. split; [exact Hok|].
        intros q [<-|Hq]; [congruence|auto].
      * exists [], (Raise e). rewrite grown_nothing.
        destruct e; simpl;
          try (repeat split; auto using failure_is_last_nil; discriminate).
        exfalso. now apply (Hne msg).
    + rewrite grown_trace.
      destruct (IH o' (grown [EvManagerCall (Some (OrderPosition.pk p)) None] [] s))
        as (tr & r & Hrun & Hcalls & Hlast & Hres).
      exists (EvManagerCall (Some (OrderPosition.pk p)) None :: tr), r.
      rewrite Hrun, grown_grown. split; [reflexivity|].
      split; [constructor; [now exists (OrderPosition.pk p), None|exact Hcalls]|].
      split; [now apply failure_is_last_cons|].
      destruct r as [[[|] o'']|e]; simpl; auto.
      destruct Hres as [Hok Hforms]. split; [exact Hok|].
      intros q [<-|Hq]; [congruence|auto].
    + exists [EvManagerCall (Some (OrderPosition.pk p)) (Some msg)], (Ret (false, o)).
      simpl. run. split; [|split; [|split; [apply failure_is_last_one|exact I]]].
      * destruct s; reflexivity.
      * constructor; [|constructor]. now exists (OrderPosition.pk p), (Some msg).
Qed.

(** The add form: nothing happens, or one call is made. *)
Lemma process_add_run (o : ocm M) (s : St) :
  (exists r, OrderChange._process_add env M request o s = (r, s)
             /\ match r with
                | Ret (true, _) => OrderChange.add_form env request <> None
                | Ret (false, _) => True
                | Raise e => forall msg, e <> OrderError msg
                end)
  \/ (exists o',
        OrderChange._process_add env M request o s
        = (Ret (true, o'), grown [EvManagerCall None None] [] s)
        /\ OrderChange.add_form env request <> None)
  \/ (exists msg,
        OrderChange._process_add env M request o s
        = (Ret (false, o),
           with_add_form_custom_error (Some msg)
             (grown [EvManagerCall None (Some msg)] [] s))).
Proof.
  unfold OrderChange._process_add.
  destruct (OrderChange.add_form env request) as [cleaned_data|].
  2:{ left. exists (Ret (false, o)). auto. }
  destruct (add_do cleaned_data).
  2:{ left. exists (Ret (true, o)). split; [reflexivity|discriminate]. }
  unfold bind. destruct (resolve_reads env request (add_itemvar cleaned_data) s)
    as (r & Hr & Hne). rewrite Hr. destruct r as [iv|e].
  - unfold try_except_else.
    destruct (call_run M None
                (add_position M o (fst iv) (snd iv) (add_price cleaned_data)
                   (add_addon_to cleaned_data) (add_subevent cleaned_data)) s)
      as [(o' & _ & H)|(msg & _ & H)]; rewrite H.
    + right. left. exists o'. rewrite grown_trace. split; [reflexivity|discriminate].
    + right. right. exists msg. rewrite grown_trace. reflexivity.
  - left. exists (Raise e). split; [reflexivity|].
    intros msg H. apply (Hne msg). now rewrite H.
Qed.

(** [commit] works on the shared part of the state; the record shows how it
    ended. *)
Lemma call_commit_run (o : ocm M) (s : St) :
  exists w x,
    OrderChange.call_commit env M o s
    = (match x with None => Ret tt | Some e => Raise e end,
       grown [EvCommit x] [] (with_store w s)).
Proof.
  unfold OrderChange.call_commit, try_except_else, lift.
  destruct (commit M o env (store s)) as [[[]|e] w].
  - exists w, None. run. unfold grown, with_custom_error, with_trace, with_store.
    simpl. now rewrite app_nil_r.
  - exists w, (Some e). run. unfold grown, with_custom_error, with_trace, with_store.
    simpl. now rewrite app_nil_r.
Qed.

(** The loop does what the walk over the forms says: it answers [True] with
    the manager the walk ends in, attaches the refusal to the position that
    met it, and stops there. *)
Lemma process_positions_validated (s0 : St) (ps : list OrderPosition.t) :
  forall (o : ocm M) (s : St),
  exists pos,
    Forall position_call pos
    /\ match validate_positions env M request s0 ps o with
       | Recorded o' =>
           existsb failed_call pos = false
           /\ OrderChange.process_positions env M request ps o s
              = (Ret (true, o'), grown pos [] s)
       | Refused target msg =>
           exists key o',
             target = Some key
             /\ OrderChange.process_positions env M request ps o s
                = (Ret (false, o'), grown pos [(key, msg)] s)
       | FormInvalid =>
           exists o',
             OrderChange.process_positions env M request ps o s
             = (Ret (false, o'), grown pos [] s)
       | LookupRaised e =>
           OrderChange.process_positions env M request ps o s = (Raise e, grown pos [] s)
       end.
Proof.
  induction ps as [|p rest IH]; intros o s; simpl.
  - exists []. rewrite grown_nothing. split; [constructor|]. split; reflexivity.
  - destruct (OrderChange.form env request p) as [cleaned_data|].
    2:{ exists []. rewrite grown_nothing. split; [constructor|]. now exists o. }
    pose proof (change_answer env M request o p cleaned_data s0 s) as H.
    unfold try_except_else.
    destruct (answer env M request s0 o p cleaned_data) as [[msg|o']|e].
    + rewrite H. exists [EvManagerCall (Some (OrderPosition.pk p)) (Some msg)].
      split; [constructor; [now exists (OrderPosition.pk p), (Some msg)|constructor]|].
      exists (OrderPosition.pk p), o. split; [reflexivity|].
      destruct s. unfold grown, with_custom_error, with_trace. simpl.
      now rewrite app_nil_r.
    + destruct H as (a & Ha & Hok & ->).
      destruct (IH o' (grown a [] s)) as (pos & Hpos & Hrun).
      exists (a ++ pos). split; [now apply Forall_app|].
      destruct (validate_positions env M request s0 rest o') as [|target msg|e|o''].
      * destruct Hrun as (o'' & ->). exists o''. now rewrite grown_grown.
      * destruct Hrun as (key & o'' & -> & ->). exists key, o''.
        split; [reflexivity|]. now rewrite grown_grown.
      * rewrite Hrun. now rewrite grown_grown.
      * destruct Hrun as (Hok' & ->). rewrite existsb_app, Hok, Hok'.
        split; [reflexivity|]. now rewrite grown_grown, app_nil_r.
    + destruct H as (-> & Hne). exists []. rewrite grown_nothing.
      split; [constructor|].
      destruct e; try reflexivity. exfalso. now apply (Hne msg).
Qed.

(** The add form, seen from the lookup and the answer of the manager. *)
Lemma process_add_validated (o : ocm M) (s0 s : St) :
  OrderChange._process_add env M request o s
  = match OrderChange.add_form env request with
    | None => (Ret (false, o), s)
    | Some cleaned_data =>
        if add_do cleaned_data then
          match looked_up env request s0 (add_itemvar cleaned_data) with
          | Ret iv =>
              match add_position M o (fst iv) (snd iv) (add_price cleaned_data)
                      (add_addon_to cleaned_data) (add_subevent cleaned_data) with
              | inr o' => (Ret (true, o'), grown [EvManagerCall None None] [] s)
              | inl msg =>
                  (Ret (false, o),
                   with_add_form_custom_error (Some msg)
                     (grown [EvManagerCall None (Some msg)] [] s))
              end
          | Raise e => (Raise e, s)
          end
        else (Ret (true, o), s)
    end.
Proof.
  unfold OrderChange._process_add.
  destruct (OrderChange.add_form env request) as [cleaned_data|]; [|reflexivity].
  destruct (add_do cleaned_data); [|reflexivity].
  unfold bind. rewrite (resolve_looked_up env request _ s0 s).
  destruct (looked_up env request s0 (add_itemvar cleaned_data)) as [iv|e]; [|reflexivity].
  unfold try_except_else.
  destruct (add_position M o (fst iv) (snd iv) (add_price cleaned_data)
              (add_addon_to cleaned_data) (add_subevent cleaned_data)) as [msg|o'];
    rewrite <- grown_trace; reflexivity.
Qed.

End BatchRun.

Section BatchPost.

Context (env : Env) (M : ChangeManager) (request : Request).

(** What [post] does once [_process_add] has answered. *)
Let finish (added : bool * ocm M) : Eff St Response :=
  form_valid <-
    (if fst added then OrderChange._process_change env M request (snd added)
     else ret (false, snd added)) ;;
  early <-
    (if negb (fst form_valid) then
       messages_error "An error occured. Please see the details below." ;;
       ret None
     else
       try_except_else
         (OrderChange.call_commit env M (snd form_valid))
         (OrderChange.order_error (fun msg => messages_error msg ;; ret None))
         (fun _ =>
            messages_success "The order has been changed and the user has been notified." ;;
            r <- OrderView._redirect_back request ;;
            ret (Some r))) ;;
  match early with
  | Some r => ret r
  | None => OrderChange.get
  end.

Lemma post_unfold (s : St) :
  OrderChange.post env M request s
  = bind (OrderChange._process_add env M request
            (OrderChangeManager M (order (store s)) (user request)))
      finish (grown [EvManagerCreated] [] s).
Proof.
  unfold OrderChange.post, finish. rewrite <- grown_trace. reflexivity.
Qed.

Let generic : Message := (ERROR, "An error occured. Please see the details below.").

Let page : Result Response := Ret (Render "pretixcontrol/order/change.html").

Lemma finish_invalid (o : ocm M) (s : St) :
  finish (false, o) s = (page, with_messages (messages s ++ [generic]) s).
Proof. reflexivity. Qed.

Lemma finish_valid (o : ocm M) (s : St) :
  exists pos r s',
    finish (true, o) s = (r, s')
    /\ Forall position_call pos
    /\ failure_is_last pos
    /\ add_form_custom_error s' = add_form_custom_error s
    /\ custom_error s' = custom_error s ++ position_failures pos
    /\ ((trace s' = trace s ++ pos
         /\ ((r = page /\ messages s' = messages s ++ [generic])
             \/ (exists e, r = Raise e /\ existsb failed_call pos = false)))
        \/ (exists x,
              trace s' = trace s ++ pos ++ [EvCommit x]
              /\ existsb failed_call pos = false
              /\ (forall p, In p (own_positions s) ->
                            OrderChange.form env request p <> None)
              /\ match x with
                 | None =>
                     r = Ret (Redirect (order_url request s'))
                     /\ messages s'
                        = messages s
                          ++ [(SUCCESS,
                               "The order has been changed and the user has been notified.")]
                 | Some (OrderError msg) =>
                     r = page /\ messages s' = messages s ++ [(ERROR, msg)]
                 | Some e => r = Raise e
                 end)).
Proof.
  unfold finish. cbn [fst snd]. unfold OrderChange._process_change.
  unfold bind at 1. unfold bind at 1. unfold ask at 1, gets at 1.
  unfold bind at 1. unfold ask at 1, gets at 1.
  destruct (process_positions_run env M request (own_positions s) o s)
    as (pos & r & Hrun & Hcalls & Hlast & Hres).
  unfold own_positions in Hrun. rewrite Hrun. clear Hrun.
  exists pos. destruct r as [[[|] o']|e].
  - destruct Hres as [Hok Hforms]. cbn [fst snd negb].
    unfold bind at 1. unfold try_except_else.
    destruct (call_commit_run env M o' (grown pos (position_failures pos) s))
      as (w & x & Hc). rewrite Hc. clear Hc.
    rewrite (no_failed_call_failures pos Hok).
    destruct x as [e|].
    + destruct e; simpl; eexists; eexists; (split; [reflexivity|]);
        (split; [exact Hcalls|]); (split; [exact Hlast|]); simpl; (split; [reflexivity|]);
        (split; [now rewrite !app_nil_r|]); right;
        match goal with
        | |- exists x, _ ++ _ ++ [EvCommit ?y] = _ /\ _ => exists y
        | |- exists x, (_ ++ _) ++ [EvCommit ?y] = _ /\ _ => exists y
        end;
        (split; [now rewrite <- ?app_assoc, ?app_nil_r|]); (split; [exact Hok|]);
        (split; [exact Hforms|]); auto.
    + simpl. eexists. eexists. split; [reflexivity|]. split; [exact Hcalls|]. split; [exact Hlast|]. simpl.
      split; [reflexivity|]. split; [now rewrite !app_nil_r|]. right. exists None.
      split; [now rewrite <- ?app_assoc, ?app_nil_r|]. auto.
  - simpl. eexists. eexists. split; [reflexivity|]. split; [exact Hcalls|]. split; [exact Hlast|]. simpl.
    split; [reflexivity|]. split; [reflexivity|]. left. auto.
  - destruct Hres as [Hok _]. simpl. eexists. eexists. split; [reflexivity|].
    split; [exact Hcalls|]. split; [exact Hlast|]. simpl. split; [reflexivity|]. split; [reflexivity|].
    left. split; [reflexivity|]. right. exists e. auto.
Qed.

Let no_add_failure (a : list Effect) : Prop :=
  a = [] \/ a = [EvManagerCall None None].

(** The three ways a submission can end: the call for the add form failed;
    the run stopped without a commit; commit was called. *)
Let ended (s : St) (tr : list Effect) (r : Result Response) (s' : St) : Prop :=
  (exists msg,
     tr = [EvManagerCall None (Some msg)]
     /\ add_form_custom_error s' = Some msg
     /\ r = page /\ messages s' = messages s ++ [generic])
  \/ (exists a pos,
        tr = a ++ pos /\ no_add_failure a /\ Forall position_call pos
        /\ failure_is_last pos
        /\ add_form_custom_error s' = add_form_custom_error s
        /\ ((r = page /\ messages s' = messages s ++ [generic])
            \/ (exists e, r = Raise e /\ existsb failed_call pos = false)))
  \/ (exists a pos x,
        tr = a ++ pos ++ [EvCommit x] /\ no_add_failure a /\ Forall position_call pos
        /\ existsb failed_call pos = false
        /\ OrderChange.add_form env request <> None
        /\ (forall p, In p (own_positions s) -> OrderChange.form env request p <> None)
        /\ add_form_custom_error s' = add_form_custom_error s
        /\ match x with
           | None =>
               r = Ret (Redirect (order_url request s'))
               /\ messages s'
                  = messages s
                    ++ [(SUCCESS,
                         "The order has been changed and the user has been notified.")]
           | Some (OrderError msg) =>
               r = page /\ messages s' = messages s ++ [(ERROR, msg)]
           | Some e => r = Raise e
           end).

Lemma no_add_failure_failures (a : list Effect) :
  no_add_failure a -> position_failures a = [].
Proof. intros [->| ->]; reflexivity. Qed.

Lemma finish_from (a : list Effect) (o : ocm M) (s : St) :
  no_add_failure a ->
  OrderChange.add_form env request <> None ->
  exists tr r s',
    finish (true, o) (grown (EvManagerCreated :: a) [] s) = (r, s')
    /\ trace s' = trace s ++ EvManagerCreated :: tr
    /\ custom_error s' = custom_error s ++ position_failures tr
    /\ ended s tr r s'.
Proof.
  intros Ha Hadd.
  destruct (finish_valid o (grown (EvManagerCreated :: a) [] s))
    as (pos & r & s' & Hrun & Hcalls & Hlast & Hafce & Hce & Hcases).
  simpl in Hafce, Hce. rewrite app_nil_r in Hce.
  destruct Hcases as [(Htr & Hr)|(x & Htr & Hok & Hforms & Hx)]; simpl in Htr.
  - exists (a ++ pos), r, s'. split; [exact Hrun|].
    split; [now rewrite Htr, <- app_assoc|].
    split; [now rewrite position_failures_app, (no_add_failure_failures a Ha)|].
    right. left. exists a, pos. repeat split; auto.
  - exists (a ++ pos ++ [EvCommit x]), r, s'. split; [exact Hrun|].
    split; [now rewrite Htr, <- app_assoc|].
    split.
    { rewrite !position_failures_app, (no_add_failure_failures a Ha).
      rewrite (no_failed_call_failures pos Hok) in *. simpl.
      now rewrite Hce, !app_nil_r. }
    right. right. exists a, pos, x. repeat split; auto.
Qed.

Lemma post_run (s : St) :
  exists tr r s',
    OrderChange.post env M request s = (r, s')
    /\ trace s' = trace s ++ EvManagerCreated :: tr
    /\ custom_error s' = custom_error s ++ position_failures tr
    /\ ended s tr r s'.
Proof.
  rewrite post_unfold. unfold bind.
  destruct (process_add_run env M request
              (OrderChangeManager M (order (store s)) (user request))
              (grown [EvManagerCreated] [] s))
    as [(r & Hr & Hres)|[(o' & Hr & Hadd)|(msg & Hr)]]; rewrite Hr.
  - destruct r as [[[|] o']|e].
    + apply (finish_from [] o' s); [now left|exact Hres].
    + rewrite finish_invalid. exists [], page. eexists. split; [reflexivity|].
      simpl. rewrite !app_nil_r. repeat split.
      right. left. exists [], []. repeat split; auto using failure_is_last_nil. now left.
    + exists [], (Raise e). eexists. split; [reflexivity|].
      simpl. rewrite !app_nil_r. repeat split.
      right. left. exists [], []. repeat split; auto using failure_is_last_nil; [now left|].
      right. exists e. auto.
  - rewrite grown_grown. apply (finish_from [EvManagerCall None None] o' s);
      [now right|exact Hadd].
  - rewrite finish_invalid. exists [EvManagerCall None (Some msg)], page. eexists.
    split; [reflexivity|]. simpl. rewrite !app_nil_r.
    split; [now rewrite <- app_assoc|]. split; [reflexivity|].
    left. exists msg. repeat split.
Qed.

Lemma not_among_position_calls (pos : list Effect) (e : Effect) :
  Forall position_call pos ->
  (forall key raised, e <> EvManagerCall (Some key) raised) ->
  ~ In e pos.
Proof.
  intros Hpos He Hin. rewrite Forall_forall in Hpos.
  destruct (Hpos e Hin) as (key & raised & ->). now apply (He key raised).
Qed.

Lemma not_in_add (a : list Effect) (e : Effect) :
  no_add_failure a -> e <> EvManagerCall None None -> ~ In e a.
Proof. intros [->| ->] He H; simpl in H; intuition congruence. Qed.

Lemma no_add_failure_ok (a : list Effect) :
  no_add_failure a -> existsb failed_call a = false.
Proof. intros [->| ->]; reflexivity. Qed.

Lemma no_commit_among_calls (a pos : list Effect) :
  no_add_failure a -> Forall position_call pos -> forall x, ~ In (EvCommit x) (a ++ pos).
Proof.
  intros Ha Hpos x H. apply in_app_or in H. destruct H as [H|H].
  - now apply (not_in_add a _ Ha) in H.
  - now apply (not_among_position_calls pos _ Hpos) in H.
Qed.

Lemma record_tail (l a b tr : list Effect) :
  (l ++ EvManagerCreated :: a) ++ b = l ++ EvManagerCreated :: tr -> tr = a ++ b.
Proof.
  rewrite <- app_assoc. simpl. intros H. apply app_inv_head in H. now inversion H.
Qed.

Lemma errors_tail (l a new : list (Z * string)) :
  (l ++ []) ++ a = l ++ new -> new = a.
Proof. rewrite app_nil_r. intros H. now apply app_inv_head in H. Qed.

Lemma process_change_validated (s0 : St) (o : ocm M) (s : St) :
  store s = store s0 ->
  exists pos,
    Forall position_call pos
    /\ match validate_positions env M request s0 (own_positions s0) o with
       | Recorded o' =>
           existsb failed_call pos = false
           /\ OrderChange._process_change env M request o s
              = (Ret (true, o'), grown pos [] s)
       | Refused target msg =>
           exists key o',
             target = Some key
             /\ OrderChange._process_change env M request o s
                = (Ret (false, o'), grown pos [(key, msg)] s)
       | FormInvalid =>
           exists o',
             OrderChange._process_change env M request o s
             = (Ret (false, o'), grown pos [] s)
       | LookupRaised e =>
           OrderChange._process_change env M request o s = (Raise e, grown pos [] s)
       end.
Proof.
  intros Hst. unfold OrderChange._process_change, bind, ask, gets. rewrite Hst.
  apply (process_positions_validated env M request s0 (own_positions s0) o s).
Qed.

(** What the request leaves, told from how the early validation ends. *)
Let outcome (v : Validation M) (s : St) (tr : list Effect) (new : list (Z * string))
    (r : Result Response) (s' : St) : Prop :=
  match v with
  | FormInvalid =>
      r = page /\ new = []
      /\ add_form_custom_error s' = add_form_custom_error s
      /\ messages s' = messages s ++ [generic]
      /\ store s' = store s
      /\ (forall x, ~ In (EvCommit x) tr)
  | Refused None msg =>
      r = page /\ new = []
      /\ add_form_custom_error s' = Some msg
      /\ messages s' = messages s ++ [generic]
      /\ store s' = store s
      /\ tr = [EvManagerCall None (Some msg)]
  | Refused (Some key) msg =>
      r = page /\ new = [(key, msg)]
      /\ add_form_custom_error s' = add_form_custom_error s
      /\ messages s' = messages s ++ [generic]
      /\ store s' = store s
      /\ (forall x, ~ In (EvCommit x) tr)
  | LookupRaised e =>
      r = Raise e /\ new = []
      /\ add_form_custom_error s' = add_form_custom_error s
      /\ messages s' = messages s
      /\ store s' = store s
      /\ (forall x, ~ In (EvCommit x) tr)
  | Recorded o =>
      new = []
      /\ add_form_custom_error s' = add_form_custom_error s
      /\ store s' = snd (commit M o env (store s))
      /\ match fst (commit M o env (store s)) with
         | Ret _ =>
             In (EvCommit None) tr
             /\ r = Ret (Redirect (order_url request s'))
             /\ messages s'
                = messages s
                  ++ [(SUCCESS, "The order has been changed and the user has been notified.")]
         | Raise (OrderError msg) =>
             In (EvCommit (Some (OrderError msg))) tr
             /\ r = page /\ messages s' = messages s ++ [(ERROR, msg)]
         | Raise e =>
             In (EvCommit (Some e)) tr /\ r = Raise e /\ messages s' = messages s
         end
  end.

Lemma finish_forward (a : list Effect) (o : ocm M) (s : St) (tr : list Effect)
    (new : list (Z * string)) (r : Result Response) (s' : St) :
  no_add_failure a ->
  finish (true, o) (grown (EvManagerCreated :: a) [] s) = (r, s') ->
  trace s' = trace s ++ EvManagerCreated :: tr ->
  custom_error s' = custom_error s ++ new ->
  outcome (validate_positions env M request s (own_positions s) o) s tr new r s'.
Proof.
  intros Ha Hrun Htr Hce.
  destruct (process_change_validated s o (grown (EvManagerCreated :: a) [] s) eq_refl)
    as (pos & Hpos & Hpc).
  unfold finish in Hrun. cbn [fst snd] in Hrun. unfold bind at 1 in Hrun.
  unfold outcome.
  destruct (validate_positions env M request s (own_positions s) o)
    as [|target msg|e|o'].
  - destruct Hpc as (o' & Hpc). rewrite Hpc in Hrun.
    inversion Hrun as [[Hr Hs]]. subst r s'. simpl in Htr, Hce |- *.
    apply record_tail in Htr. apply errors_tail in Hce. subst tr.
    repeat split; auto using no_commit_among_calls.
  - destruct Hpc as (key & o' & -> & Hpc). rewrite Hpc in Hrun.
    inversion Hrun as [[Hr Hs]]. subst r s'. simpl in Htr, Hce |- *.
    apply record_tail in Htr. apply errors_tail in Hce. subst tr.
    repeat split; auto using no_commit_among_calls.
  - rewrite Hpc in Hrun.
    inversion Hrun as [[Hr Hs]]. subst r s'. simpl in Htr, Hce |- *.
    apply record_tail in Htr. apply errors_tail in Hce. subst tr.
    repeat split; auto using no_commit_among_calls.
  - destruct Hpc as (Hok & Hpc). rewrite Hpc in Hrun.
    cbn [fst snd negb] in Hrun. unfold bind at 1 in Hrun.
    unfold OrderChange.call_commit, try_except_else, lift in Hrun. cbn beta in Hrun.
    change (store (grown pos [] (grown (EvManagerCreated :: a) [] s))) with (store s)
      in Hrun.
    destruct (commit M o' env (store s)) as [[[]|e] w]; [|destruct e];
      simpl in Hrun; inversion Hrun as [[Hr Hs]];
      subst; simpl in Htr, Hce |- *;
      rewrite <- !app_assoc in Htr; simpl in Htr;
      apply app_inv_head in Htr; inversion Htr as [Ht];
      apply errors_tail in Hce;
      repeat split; auto; apply in_or_app; right; apply in_or_app; right; now left.
Qed.

(** C3. A submitted batch is validated one operation after the other, the
    add form first and then the positions in the order of the table, each
    put to the manager as the operations before it left it, and the
    validation stops at the first operation that does not pass. How it ends
    decides what the request leaves.
    - The manager refuses an operation: the error is attached to that
      operation, the add form or the position, and to nothing else; the
      page is shown again with the general error, commit is not called and
      nothing is stored. The operations after it are not put to the manager
      and get no error, whatever they ask for.
    - A form is not valid: the page is shown again with the general error,
      nothing is attached, commit is not called.
    - Every operation is recorded: commit is called on the manager that
      holds them, and what commit leaves of the shared state is what the
      request leaves. If commit raises [OrderError], the page is shown again
      and the one message added is the error of commit; no error is attached
      to any operation.
    - A lookup of item or variation raises: the request ends with that
      exception before any further call.
    The record [tr] of the calls made on the manager agrees: a failed call
    for a position is attached to that position and the errors attached to
    positions are exactly these; a failed call for the add form is attached
    to the add form; nothing follows a failed call; commit appears only after
    every call was recorded without error and every form was valid. *)
Theorem batch_errors_inline_commit_error_on_top (s : St) :
  exists tr new r s',
    OrderChange.post env M request s = (r, s')
    /\ trace s' = trace s ++ EvManagerCreated :: tr
    /\ custom_error s' = custom_error s ++ new
    /\ match early_validation env M request s with
       | Refused (Some key) msg =>
           r = Ret (Render "pretixcontrol/order/change.html")
           /\ new = [(key, msg)]
           /\ add_form_custom_error s' = add_form_custom_error s
           /\ messages s'
              = messages s ++ [(ERROR, "An error occured. Please see the details below.")]
           /\ store s' = store s
           /\ (forall x, ~ In (EvCommit x) tr)
       | Refused None msg =>
           r = Ret (Render "pretixcontrol/order/change.html")
           /\ new = []
           /\ add_form_custom_error s' = Some msg
           /\ messages s'
              = messages s ++ [(ERROR, "An error occured. Please see the details below.")]
           /\ store s' = store s
           /\ tr = [EvManagerCall None (Some msg)]
       | FormInvalid =>
           r = Ret (Render "pretixcontrol/order/change.html")
           /\ new = []
           /\ add_form_custom_error s' = add_form_custom_error s
           /\ messages s'
              = messages s ++ [(ERROR, "An error occured. Please see the details below.")]
           /\ store s' = store s
           /\ (forall x, ~ In (EvCommit x) tr)
       | LookupRaised e =>
           r = Raise e
           /\ new = []
           /\ add_form_custom_error s' = add_form_custom_error s
           /\ messages s' = messages s
           /\ store s' = store s
           /\ (forall x, ~ In (EvCommit x) tr)
       | Recorded o =>
           new = []
           /\ add_form_custom_error s' = add_form_custom_error s
           /\ store s' = snd (commit M o env (store s))
           /\ match fst (commit M o env (store s)) with
              | Ret _ =>
                  In (EvCommit None) tr
                  /\ r = Ret (Redirect (order_url request s'))
                  /\ messages s'
                     = messages s
                       ++ [(SUCCESS,
                            "The order has been changed and the user has been notified.")]
              | Raise (OrderError msg) =>
                  In (EvCommit (Some (OrderError msg))) tr
                  /\ r = Ret (Render "pretixcontrol/order/change.html")
                  /\ messages s' = messages s ++ [(ERROR, msg)]
              | Raise e =>
                  In (EvCommit (Some e)) tr /\ r = Raise e /\ messages s' = messages s
              end
       end
    /\ (forall key msg,
          In (EvManagerCall (Some key) (Some msg)) tr <-> In (key, msg) new)
    /\ (forall msg,
          In (EvManagerCall None (Some msg)) tr -> add_form_custom_error s' = Some msg)
    /\ ((forall msg, ~ In (EvManagerCall None (Some msg)) tr) ->
        add_form_custom_error s' = add_form_custom_error s)
    /\ failure_is_last tr
    /\ (forall target msg,
          In (EvManagerCall target (Some msg)) tr ->
          (forall x, ~ In (EvCommit x) tr)
          /\ r = Ret (Render "pretixcontrol/order/change.html")
          /\ messages s'
             = messages s ++ [(ERROR, "An error occured. Please see the details below.")])
    /\ (forall x,
          In (EvCommit x) tr ->
          (forall target raised, In (EvManagerCall target raised) tr -> raised = None)
          /\ OrderChange.add_form env request <> None
          /\ (forall p, In p (own_positions s) -> OrderChange.form env request p <> None)
          /\ new = []
          /\ add_form_custom_error s' = add_form_custom_error s)
    /\ (forall msg,
          In (EvCommit (Some (OrderError msg))) tr ->
          r = Ret (Render "pretixcontrol/order/change.html")
          /\ messages s' = messages s ++ [(ERROR, msg)]).
Proof.
  destruct (post_run s) as (tr & r & s' & Hrun & Htr & Hce & Hend).
  exists tr, (position_failures tr), r, s'.
  split; [exact Hrun|]. split; [exact Htr|]. split; [exact Hce|].
  split.
  { change (outcome (early_validation env M request s) s tr (position_failures tr) r s').
    pose proof (post_unfold s) as Hpost. rewrite Hrun in Hpost. unfold bind in Hpost.
    rewrite (process_add_validated env M request _ s (grown [EvManagerCreated] [] s))
      in Hpost.
    unfold early_validation.
    destruct (OrderChange.add_form env request) as [cleaned_data|].
    2:{ rewrite finish_invalid in Hpost. inversion Hpost as [[Hr Hs]]. subst r s'.
        simpl in Htr, Hce |- *.
        apply app_inv_head in Htr. inversion Htr as [Ht].
        repeat split; auto. }
    destruct (add_do cleaned_data).
    2:{ apply (finish_forward [] _ s); [now left|now symmetry|exact Htr|exact Hce]. }
    destruct (looked_up env request s (add_itemvar cleaned_data)) as [iv|e].
    2:{ inversion Hpost as [[Hr Hs]]. subst r s'. simpl in Htr, Hce |- *.
        apply app_inv_head in Htr. inversion Htr as [Ht].
        repeat split; auto. }
    destruct (add_position M _ (fst iv) (snd iv) (add_price cleaned_data)
                (add_addon_to cleaned_data) (add_subevent cleaned_data)) as [msg|o'].
    - rewrite finish_invalid in Hpost. inversion Hpost as [[Hr Hs]]. subst r s'.
      simpl in Htr, Hce |- *.
      apply record_tail in Htr. apply errors_tail in Hce. subst tr.
      repeat split; auto.
    - rewrite grown_grown in Hpost.
      apply (finish_forward [EvManagerCall None None] o' s);
        [now right|now symmetry|exact Htr|exact Hce]. }
  split; [intros; apply position_failures_In|].
  clear Hrun Htr Hce.
  destruct Hend as [(msg & -> & Hafce & -> & Hmsg)
                   |[(a & pos & -> & Ha & Hpos & Hlast & Hafce & Hr)
                    |(a & pos & x & -> & Ha & Hpos & Hok & Hadd & Hforms & Hafce & Hx)]].
  - (* the call for the add form failed *)
    split; [intros m [H|[]]; now inversion H; subst|].
    split; [intros H; exfalso; apply (H msg); now left|].
    split; [apply failure_is_last_one|].
    split; [intros t m _; split; [intros x [H|[]]; discriminate|now split]|].
    split; [intros x [H|[]]; discriminate|].
    intros m [H|[]]; discriminate.
  - (* the run stopped without a commit *)
    assert (Hnoadd : forall m, ~ In (EvManagerCall None (Some m)) (a ++ pos)).
    { intros m H. apply in_app_or in H. destruct H as [H|H].
      - now apply (not_in_add a _ Ha) in H.
      - now apply (not_among_position_calls pos _ Hpos) in H. }
    assert (Hnocommit : forall x, ~ In (EvCommit x) (a ++ pos)).
    { intros x H. apply in_app_or in H. destruct H as [H|H].
      - now apply (not_in_add a _ Ha) in H.
      - now apply (not_among_position_calls pos _ Hpos) in H. }
    split; [intros m H; now apply Hnoadd in H|].
    split; [intros _; exact Hafce|].
    split; [apply failure_is_last_app; [now apply no_add_failure_ok|exact Hlast]|].
    split.
    { intros t m H. split; [exact Hnocommit|].
      destruct Hr as [Hr|(e & _ & Hok)]; [exact Hr|].
      exfalso. apply in_app_or in H. destruct H as [H|H].
      - now apply (not_in_add a _ Ha) in H.
      - now apply (no_failed_call pos t m Hok). }
    split; [intros x H; now apply Hnocommit in H|].
    intros m H. now apply Hnocommit in H.
  - (* commit was called *)
    assert (Hnone : forall t raised,
              In (EvManagerCall t raised) (a ++ pos ++ [EvCommit x]) -> raised = None).
    { intros t raised H. apply in_app_or in H. destruct H as [H|H].
      - destruct Ha as [->| ->]; simpl in H; [contradiction|].
        destruct H as [H|[]]. now inversion H.
      - apply in_app_or in H. destruct H as [H|[H|[]]]; [|discriminate].
        destruct raised as [m|]; [|reflexivity].
        exfalso. now apply (no_failed_call pos t m Hok). }
    assert (Hcommit : forall y, In (EvCommit y) (a ++ pos ++ [EvCommit x]) -> y = x).
    { intros y H. apply in_app_or in H. destruct H as [H|H].
      - now apply (not_in_add a _ Ha) in H.
      - apply in_app_or in H. destruct H as [H|[H|[]]]; [|now inversion H].
        now apply (not_among_position_calls pos _ Hpos) in H. }
    assert (Hnofail : existsb failed_call (a ++ pos ++ [EvCommit x]) = false).
    { rewrite !existsb_app, (no_add_failure_ok a Ha), Hok. reflexivity. }
    split; [intros m H; apply Hnone in H; discriminate|].
    split; [intros _; exact Hafce|].
    split; [now apply failure_is_last_none|].
    split; [intros t m H; apply Hnone in H; discriminate|].
    split.
    { intros y _. split; [exact Hnone|]. split; [exact Hadd|]. split; [exact Hforms|].
      split; [now apply no_failed_call_failures|exact Hafce]. }
    intros m H. apply Hcommit in H. subst x. exact Hx.
Qed.

End BatchPost.

(** Two positions ask for a negative price: the first call fails and is
    attached to position 1; position 2 is never submitted to the manager. *)
Example two_invalid_prices :
  let out :=
    OrderChange.post (Sample.env_of [] true true) SpecManager.manager
      (Sample.request_of
         [("op-1-operation", "price"); ("op-1-price", "minus");
          ("op-2-operation", "price"); ("op-2-price", "minus")])
      Sample.pending in
  fst out = Ret (Render "pretixcontrol/order/change.html")
  /\ custom_error (snd out) = [(1, "InvalidOperation")]
  /\ messages (snd out) = [(ERROR, "An error occured. Please see the details below.")]
  /\ trace (snd out)
     = [EvManagerCreated; EvManagerCall (Some 1) (Some "InvalidOperation")].
Proof. vm_compute. repeat split. Qed.

(** An added position passes the early validation and fails at commit, where
    the inventory is asked: one message, nothing attached, nothing stored. *)
Example sold_out_at_commit :
  let out :=
    OrderChange.post (Sample.env_of [11] true true) SpecManager.manager
      (Sample.request_of
         [("add-do", "on"); ("add-itemvar", "11"); ("add-price", "5")])
      Sample.pending in
  fst out = Ret (Render "pretixcontrol/order/change.html")
  /\ messages (snd out) = [(ERROR, "sold out: Y")]
  /\ add_form_custom_error (snd out) = None
  /\ custom_error (snd out) = []
  /\ positions (store (snd out)) = positions (store Sample.pending)
  /\ trace (snd out)
     = [EvManagerCreated; EvManagerCall None None;
        EvCommit (Some (OrderError "sold out: Y"))].
Proof. vm_compute. repeat split. Qed.

(** The example of the specification: the price of X changed to 8.00. *)
Example price_of_X_changed :
  let out :=
    OrderChange.post (Sample.env_of [] true true) SpecManager.manager
      (Sample.request_of [("op-1-operation", "price"); ("op-1-price", "800")])
      Sample.pending in
  fst out = Ret (Redirect (OrderUrl "org" "conf" "ABC12"))
  /\ map OrderPosition.price (own_positions (snd out)) = [800; 500]
  /\ map LogEntry.action_type (log (store (snd out))) = ["ChangePrice"; "order changed"]
  /\ trace (snd out)
     = [EvManagerCreated; EvManagerCall (Some 1) None; EvCommit None].
Proof. vm_compute. repeat split. Qed.

(** C3 does not hold of each operation of a batch. Positions 1 and 2 both
    ask for a negative price, which the manager refuses in whatever state it
    is: position 2 is in the batch, its form is valid and its operation
    fails the early validation, and yet no error is attached to it, because
    the loop ended at position 1. *)
Lemma second_refused_operation_gets_no_error :
  let env := Sample.env_of [] true true in
  let request :=
    Sample.request_of
      [("op-1-operation", "price"); ("op-1-price", "minus");
       ("op-2-operation", "price"); ("op-2-price", "minus")] in
  exists p cleaned_data msg,
    In p (own_positions Sample.pending)
    /\ OrderChange.form env request p = Some cleaned_data
    /\ (forall o,
          answer env SpecManager.manager request Sample.pending o p cleaned_data
          = Ret (inl msg))
    /\ forall text,
         ~ In (OrderPosition.pk p, text)
             (custom_error
                (snd (OrderChange.post env SpecManager.manager request Sample.pending))).
Proof.
  exists Sample.item_Y, (mkChangeData "price" EmptyString (-1) None),
    SpecManager.InvalidOperation.
  split; [simpl; auto|]. split; [reflexivity|]. split.
  - intros o. unfold answer. simpl. unfold SpecManager.change_price. simpl.
    now rewrite andb_false_r.
  - intros text H. vm_compute in H. destruct H as [H|[]]. discriminate.
Qed.

Lemma batch_errors_inline_commit_error_on_top_witness :
  (exists r s',
     OrderChange.post (Sample.env_of [] true true) SpecManager.manager
       (Sample.request_of
          [("op-1-operation", "price"); ("op-1-price", "minus");
           ("op-2-operation", "price"); ("op-2-price", "minus")])
       Sample.pending
     = (r, s')
     /\ r = Ret (Render "pretixcontrol/order/change.html")
     /\ custom_error s' = [(1, "InvalidOperation")]
     /\ store s' = store Sample.pending)
  /\ (exists r s',
        OrderChange.post (Sample.env_of [11] true true) SpecManager.manager
          (Sample.request_of [("add-do", "on"); ("add-itemvar", "11"); ("add-price", "5")])
          Sample.pending
        = (r, s')
        /\ r = Ret (Render "pretixcontrol/order/change.html")
        /\ messages s' = [(ERROR, "sold out: Y")]
        /\ custom_error s' = []).
Proof.
  split.
  - destruct (batch_errors_inline_commit_error_on_top (Sample.env_of [] true true)
                SpecManager.manager
                (Sample.request_of
                   [("op-1-operation", "price"); ("op-1-price", "minus");
                    ("op-2-operation", "price"); ("op-2-price", "minus")])
                Sample.pending)
      as (tr & new & r & s' & Hrun & _ & Hce & Hfwd & _).
    vm_compute in Hfwd. destruct Hfwd as (Hr & Hnew & _ & _ & Hst & _).
    exists r, s'. split; [exact Hrun|]. split; [exact Hr|].
    split; [now rewrite Hce, Hnew|exact Hst].
  - destruct (batch_errors_inline_commit_error_on_top (Sample.env_of [11] true true)
                SpecManager.manager
                (Sample.request_of
                   [("add-do", "on"); ("add-itemvar", "11"); ("add-price", "5")])
                Sample.pending)
      as (tr & new & r & s' & Hrun & _ & Hce & Hfwd & _).
    vm_compute in Hfwd. destruct Hfwd as (Hnew & _ & _ & _ & Hr & Hmsg).
    exists r, s'. split; [exact Hrun|]. split; [exact Hr|].
    split; [exact Hmsg|now rewrite Hce, Hnew].
Defined.

(** * Further properties of the views *)

(** ** Transitions that are not offered *)

Lemma eqb_neq_false (a b : string) : a <> b -> String.eqb a b = false.
Proof. intros H. now apply String.eqb_neq. Qed.

(** X1. A request for a transition that the view does not offer for the
    status of the order (any request on a Canceled or Refunded order;
    anything but "p" on an Expired one; anything but "n" and "r" on a Paid
    one; anything but "p", "c" and "e" on a Pending one, a missing [status]
    among it) is answered with the redirect to the order and changes
    nothing: no message, no audit entry, no effect. *)
Theorem transition_not_offered_changes_nothing (env : Env) (request : Request) (s : St) :
  let status := Order.status (order (store s)) in
  let to := dict_get_default (POST request) "status" EmptyString in
  status = Order.STATUS_CANCELED
  \/ status = Order.STATUS_REFUNDED
  \/ (status = Order.STATUS_EXPIRED /\ to <> "p")
  \/ (status = Order.STATUS_PAID /\ to <> "n" /\ to <> "r")
  \/ (status = Order.STATUS_PENDING /\ to <> "p" /\ to <> "c" /\ to <> "e") ->
  OrderTransition.post env request s = (Ret (Redirect (order_url request s)), s).
Proof.
  intros status to H.
  unfold OrderTransition.post, OrderTransition.transition, Order.status_in.
  fold to. unfold bind at 1. unfold ask at 1, gets at 1. fold status.
  destruct H as [H|[H|[[H Hp]|[(H & Hn & Hr)|(H & Hp & Hc & He)]]]]; rewrite H; simpl;
    rewrite ?(eqb_neq_false _ _ Hp), ?(eqb_neq_false _ _ Hn), ?(eqb_neq_false _ _ Hr),
      ?(eqb_neq_false _ _ Hc), ?(eqb_neq_false _ _ He), ?andb_false_r; reflexivity.
Qed.

Lemma transition_not_offered_changes_nothing_witness :
  OrderTransition.post (Sample.env_of [] true true) (Sample.request_of [("status", "c")])
    Sample.expired
  = (Ret (Redirect (OrderUrl "org" "conf" "ABC12")), Sample.expired)
  /\ OrderTransition.post (Sample.env_of [] true true) (Sample.request_of [])
       Sample.pending
     = (Ret (Redirect (OrderUrl "org" "conf" "ABC12")), Sample.pending).
Proof.
  split.
  - apply (transition_not_offered_changes_nothing (Sample.env_of [] true true)
             (Sample.request_of [("status", "c")]) Sample.expired).
    right. right. left. split; [reflexivity|discriminate].
  - apply (transition_not_offered_changes_nothing (Sample.env_of [] true true)
             (Sample.request_of []) Sample.pending).
    right. right. right. right. repeat split; discriminate.
Defined.

(** ** The transitions the view performs *)

Lemma mark_order_paid_outcome (env : Env) (manual : bool) (actor : string) (s : St) :
  exists r s0,
    mark_order_paid env manual actor s = (r, s0)
    /\ messages s0 = messages s
    /\ ((store s0 = store s /\ exists e, r = Raise e)
        \/ (order (store s0) = Order.with_status Order.STATUS_PAID (order (store s))
            /\ order_row (store s0) = Order.with_status Order.STATUS_PAID (order (store s)))).
Proof.
  destruct (lock_acquired env) eqn:Hlock.
  - destruct (first_unavailable env (own_positions s)) as [|reason] eqn:Hf.
    + eexists. eexists. split; [apply (mark_order_paid_done env manual actor s Hlock Hf)|].
      simpl. auto.
    + eexists. eexists.
      split; [apply (mark_order_paid_refused env manual actor s reason Hlock Hf)|].
      simpl. split; [reflexivity|]. left. split; [reflexivity|]. eauto.
  - eexists. eexists. split; [apply (mark_order_paid_busy env manual actor s Hlock)|].
    simpl. split; [reflexivity|]. left. split; [reflexivity|]. eauto.
Qed.

Lemma cancel_order_outcome (env : Env) (actor : string) (send_mail : bool) (s : St) :
  exists r s0,
    cancel_order env actor send_mail s = (r, s0)
    /\ messages s0 = messages s
    /\ ((store s0 = store s /\ exists e, r = Raise e)
        \/ (order (store s0) = Order.with_status Order.STATUS_CANCELED (order (store s))
            /\ order_row (store s0)
               = Order.with_status Order.STATUS_CANCELED (order (store s)))).
Proof.
  unfold cancel_order, lock. destruct (lock_acquired env).
  - destruct send_mail; run; eexists; eexists; (split; [reflexivity|]); simpl; auto.
  - run. eexists. eexists. split; [reflexivity|]. simpl.
    split; [reflexivity|]. left. split; [reflexivity|]. eauto.
Qed.

Lemma order_unchanged (o : Order.t) :
  o = Order.with_payment_manual (Order.payment_manual o) (Order.with_status (Order.status o) o).
Proof. now destruct o. Qed.

(** X2. The instance of the order is the stored row, and the request is not
    the refund of a Paid order, which is left to the payment provider.
    However the request ends, the stored order differs from what it was at
    most in its status and in the flag of manual payment, the instance is
    again the stored row, and the status has either stayed or moved along
    Pending to Paid, Pending to Canceled, Pending to Expired, Expired to Paid
    or Paid to Pending. Canceled and Refunded are never left. *)
Theorem transition_follows_state_machine (env : Env) (request : Request) (s s' : St)
    (r : Result Response) :
  order (store s) = order_row (store s) ->
  ~ (Order.status (order (store s)) = Order.STATUS_PAID
     /\ dict_get_default (POST request) "status" EmptyString = "r") ->
  OrderTransition.post env request s = (r, s') ->
  let a := Order.status (order_row (store s)) in
  let b := Order.status (order_row (store s')) in
  order (store s') = order_row (store s')
  /\ (exists manual,
        order_row (store s')
        = Order.with_payment_manual manual (Order.with_status b (order_row (store s))))
  /\ (b = a
      \/ (a = Order.STATUS_PENDING
          /\ (b = Order.STATUS_PAID \/ b = Order.STATUS_CANCELED \/ b = Order.STATUS_EXPIRED))
      \/ (a = Order.STATUS_EXPIRED /\ b = Order.STATUS_PAID)
      \/ (a = Order.STATUS_PAID /\ b = Order.STATUS_PENDING)).
Proof.
  intros Hrow Hnr Hpost a b. subst a b.
  assert (Hsame : forall t : St,
            store t = store s ->
            order (store t) = order_row (store t)
            /\ (exists manual,
                  order_row (store t)
                  = Order.with_payment_manual manual
                      (Order.with_status (Order.status (order_row (store t)))
                         (order_row (store s))))
            /\ Order.status (order_row (store t)) = Order.status (order_row (store s))).
  { intros t Ht. rewrite Ht. split; [exact Hrow|]. split; [|reflexivity].
    exists (Order.payment_manual (order_row (store s))). apply order_unchanged. }
  unfold OrderTransition.post, OrderTransition.transition in Hpost.
  unfold bind at 1 in Hpost. unfold ask at 1, gets at 1 in Hpost.
  set (to := dict_get_default (POST request) "status" EmptyString) in *.
  rewrite <- Hrow.
  destruct (Order.status_in (order (store s)) _ && String.eqb to "p") eqn:C1.
  - apply andb_true_iff in C1. destruct C1 as [C1 _].
    apply status_in_pending_expired in C1.
    destruct (mark_order_paid_outcome env true (user request) s)
      as (r0 & s0 & Hm & Hmsg & Hcases).
    unfold bind at 1 in Hpost. unfold bind at 1 in Hpost.
    unfold try_except_else in Hpost. rewrite Hm in Hpost.
    assert (Hst : store s' = store s0).
    { destruct r0 as [[]|[]]; run; inversion Hpost; reflexivity. }
    rewrite Hst. destruct Hcases as [[Hs _]|[Ho Hr]].
    + rewrite Hs, <- Hrow. destruct (Hsame s eq_refl) as (H1 & H2 & H3).
      rewrite <- Hrow in *. auto.
    + rewrite Ho, Hr. simpl. split; [reflexivity|].
      split; [exists (Order.payment_manual (order (store s))); now destruct (order (store s))|].
      destruct C1 as [C1|C1]; rewrite C1; auto 10.
  - clear C1.
    destruct (Order.status_eqb (Order.status (order (store s))) Order.STATUS_PENDING
              && String.eqb to "c") eqn:C2.
    + apply andb_true_iff in C2. destruct C2 as [C2 _].
      destruct (Order.status (order (store s))) eqn:Hstat; try discriminate.
      match type of Hpost with context [cancel_order env ?u ?m] =>
        destruct (cancel_order_outcome env u m s) as (r0 & s0 & Hm & Hmsg & Hcases) end.
      unfold bind at 1 in Hpost. unfold bind at 1 in Hpost. rewrite Hm in Hpost.
      assert (Hst : store s' = store s0).
      { destruct r0 as [[]|e]; run; inversion Hpost; reflexivity. }
      rewrite Hst. destruct Hcases as [[Hs _]|[Ho Hr]].
      * rewrite Hs, <- Hrow. destruct (Hsame s eq_refl) as (H1 & H2 & H3).
        rewrite <- Hrow in *. rewrite Hstat in *. auto.
      * rewrite Ho, Hr. simpl. split; [reflexivity|].
        split; [exists (Order.payment_manual (order (store s)));
                now destruct (order (store s))|]. auto 10.
    + clear C2.
      destruct (Order.status_eqb (Order.status (order (store s))) Order.STATUS_PAID
                && String.eqb to "n") eqn:C3.
      * apply andb_true_iff in C3. destruct C3 as [C3 _].
        destruct (Order.status (order (store s))) eqn:Hstat; try discriminate.
        run. inversion Hpost; subst. simpl. split; [reflexivity|].
        split; [exists true; now destruct (order (store s))|]. auto 10.
      * clear C3.
        destruct (Order.status_eqb (Order.status (order (store s))) Order.STATUS_PENDING
                  && String.eqb to "e") eqn:C4.
        -- apply andb_true_iff in C4. destruct C4 as [C4 _].
           destruct (Order.status (order (store s))) eqn:Hstat; try discriminate.
           run. inversion Hpost; subst. simpl. split; [reflexivity|].
           split; [exists (Order.payment_manual (order (store s)));
                   now destruct (order (store s))|]. auto 10.
        -- clear C4.
           destruct (Order.status_eqb (Order.status (order (store s))) Order.STATUS_PAID
                     && String.eqb to "r") eqn:C5.
           ++ exfalso. apply Hnr. apply andb_true_iff in C5. destruct C5 as [C5 C6].
              apply String.eqb_eq in C6.
              destruct (Order.status (order (store s))); try discriminate. auto.
           ++ run. inversion Hpost as [[Hr Hs]]. rewrite <- Hs.
              destruct (Hsame s eq_refl) as (H1 & H2 & H3). rewrite <- Hrow in *. auto.
Qed.

Lemma transition_follows_state_machine_witness :
  let out :=
    OrderTransition.post (Sample.env_of [] true true) (Sample.request_of [("status", "c")])
      Sample.pending in
  order (store (snd out)) = order_row (store (snd out))
  /\ Order.status (order_row (store (snd out))) = Order.STATUS_CANCELED.
Proof.
  intros out.
  destruct (transition_follows_state_machine (Sample.env_of [] true true)
              (Sample.request_of [("status", "c")]) Sample.pending (snd out) (fst out))
    as (H & _ & _).
  - reflexivity.
  - intros [H _]. discriminate.
  - apply surjective_pairing.
  - split; [exact H|reflexivity].
Defined.

(** ** More on the payment deadline *)

Lemma status_eqb_pending (a : Order.Status) :
  Order.status_eqb a Order.STATUS_PENDING = false <-> a <> Order.STATUS_PENDING.
Proof. destruct a; simpl; split; intros H; congruence. Qed.

Lemma extend_revives (env : Env) (request : Request) (s : St) (deadline : Z) :
  method request = "POST" ->
  ExtendForm env (POST request) = Some deadline ->
  Order.status (order (store s)) <> Order.STATUS_PENDING ->
  lock_acquired env = true ->
  (forall p, In p (own_positions s) -> inventory env p = Available) ->
  let revived :=
    Order.with_status Order.STATUS_PENDING (Order.with_expires deadline (order (store s))) in
  OrderExtend.post env request s
  = (Ret (Redirect (order_url request s)),
     mkSt
       (with_log
          (log (store s)
           ++ [LogEntry.mk "pretix.event.order.expirychanged" (Some (user request))
                 [("expires", VInt deadline); ("state_change", VBool true)]])
          (with_order_row revived (with_order revived (store s))))
       (messages s ++ [(SUCCESS, "The payment term has been changed.")])
       (add_form_custom_error s) (custom_error s)
       (trace s ++ [EvLockAcquired]
        ++ map (fun p => EvAvailability (OrderPosition.pk p) Available) (own_positions s)
        ++ [EvLog "pretix.event.order.expirychanged"; EvLockReleased])).
Proof.
  intros Hm Hform Hst Hlock Hall revived.
  destruct (first_unavailable_none env _ Hall) as [Hf Hev].
  apply status_eqb_pending in Hst.
  unfold OrderExtend.post. unfold bind at 1.
  rewrite (extend_form_valid env request s deadline Hm Hform).
  unfold bind at 1. unfold ask at 1, gets at 1. simpl store. simpl order.
  simpl Order.status. rewrite Hst. cbv iota.
  unfold bind at 1. unfold try_except_else, lock. rewrite Hlock.
  unfold bind at 1. unfold emit at 1, modify at 1. unfold try_finally.
  unfold bind at 1. rewrite is_still_available_run.
  match goal with |- context [first_unavailable env ?l] =>
    change l with (own_positions s) end.
  match goal with |- context [availability_events env ?l] =>
    change l with (own_positions s) end.
  rewrite Hf, Hev. unfold OrderExtend.form_save. run.
  unfold with_store, with_messages, with_trace, revived. simpl.
  now flatten.
Qed.

Lemma extend_pending (env : Env) (request : Request) (s : St) (deadline : Z) :
  method request = "POST" ->
  ExtendForm env (POST request) = Some deadline ->
  Order.status (order (store s)) = Order.STATUS_PENDING ->
  let extended := Order.with_expires deadline (order (store s)) in
  OrderExtend.post env request s
  = (Ret (Redirect (order_url request s)),
     mkSt
       (with_log
          (log (store s)
           ++ [LogEntry.mk "pretix.event.order.expirychanged" (Some (user request))
                 [("expires", VInt deadline); ("state_change", VBool false)]])
          (with_order_row extended (with_order extended (store s))))
       (messages s ++ [(SUCCESS, "The payment term has been changed.")])
       (add_form_custom_error s) (custom_error s)
       (trace s ++ [EvLog "pretix.event.order.expirychanged"])).
Proof.
  intros Hm Hform Hst extended.
  unfold OrderExtend.post. unfold bind at 1.
  rewrite (extend_form_valid env request s deadline Hm Hform).
  unfold bind at 1. unfold ask at 1, gets at 1. simpl store. simpl order.
  simpl Order.status. rewrite Hst. simpl Order.status_eqb. cbv iota.
  unfold OrderExtend.form_save. run. reflexivity.
Qed.

(** X3. Whenever a valid deadline is stored, for a Pending order or, under
    the lock and with every Position available, for any other, the audit
    log grows by exactly one entry: it carries the new deadline, also for a
    Pending order, where it is written before the form is saved, and the
    flag [state_change], which is set exactly when the order was not
    Pending. *)
Theorem extend_audit_entry (env : Env) (request : Request) (s : St) (deadline : Z) :
  method request = "POST" ->
  ExtendForm env (POST request) = Some deadline ->
  Order.status (order (store s)) = Order.STATUS_PENDING
  \/ (lock_acquired env = true
      /\ forall p, In p (own_positions s) -> inventory env p = Available) ->
  exists s',
    OrderExtend.post env request s = (Ret (Redirect (order_url request s)), s')
    /\ Order.expires (order_row (store s')) = deadline
    /\ log (store s')
       = log (store s)
         ++ [LogEntry.mk "pretix.event.order.expirychanged" (Some (user request))
               [("expires", VInt deadline);
                ("state_change",
                 VBool (negb (Order.status_eqb (Order.status (order (store s)))
                                Order.STATUS_PENDING)))]].
Proof.
  intros Hm Hform Hcase.
  destruct (Order.status_eqb (Order.status (order (store s))) Order.STATUS_PENDING) eqn:E.
  - assert (Hst : Order.status (order (store s)) = Order.STATUS_PENDING)
      by (destruct (Order.status (order (store s))); try discriminate; reflexivity).
    eexists. split; [apply (extend_pending env request s deadline Hm Hform Hst)|].
    split; reflexivity.
  - apply status_eqb_pending in E. destruct Hcase as [Hst|[Hlock Hall]]; [contradiction|].
    eexists. split; [apply (extend_revives env request s deadline Hm Hform E Hlock Hall)|].
    split; reflexivity.
Qed.

Lemma extend_audit_entry_witness :
  exists s',
    OrderExtend.post (Sample.env_of [] false true) (Sample.request_of [("expires", "200")])
      Sample.pending
    = (Ret (Redirect (OrderUrl "org" "conf" "ABC12")), s')
    /\ log (store s')
       = [LogEntry.mk "pretix.event.order.expirychanged" (Some "admin")
            [("expires", VInt 200); ("state_change", VBool false)]].
Proof.
  destruct (extend_audit_entry (Sample.env_of [] false true)
              (Sample.request_of [("expires", "200")]) Sample.pending 200)
    as (s' & Hp & _ & Hlog); try reflexivity.
  - left. reflexivity.
  - exists s'. split; [exact Hp|exact Hlog].
Defined.

(** X4. A Pending order is marked as expired and then a valid deadline is
    submitted, with the lock obtained and every Position available: the order
    is Pending again and what is stored of it differs from the beginning in
    the deadline only; positions and invoices are untouched and the audit log
    has grown by the entries of the two steps. *)
Theorem expire_then_extend_restores_pending (env : Env) (expire extend : Request) (s : St)
    (deadline : Z) :
  order (store s) = order_row (store s) ->
  Order.status (order (store s)) = Order.STATUS_PENDING ->
  dict_get (POST expire) "status" = Some "e" ->
  method extend = "POST" ->
  ExtendForm env (POST extend) = Some deadline ->
  lock_acquired env = true ->
  (forall p, In p (own_positions s) -> inventory env p = Available) ->
  exists s1 s2,
    OrderTransition.post env expire s = (Ret (Redirect (order_url expire s)), s1)
    /\ Order.status (order_row (store s1)) = Order.STATUS_EXPIRED
    /\ OrderExtend.post env extend s1 = (Ret (Redirect (order_url extend s)), s2)
    /\ order_row (store s2) = Order.with_expires deadline (order_row (store s))
    /\ order (store s2) = order_row (store s2)
    /\ positions (store s2) = positions (store s)
    /\ invoices (store s2) = invoices (store s)
    /\ map LogEntry.action_type (log (store s2))
       = map LogEntry.action_type (log (store s))
         ++ ["pretix.event.order.expired"; "pretix.event.order.expirychanged"].
Proof.
  intros Hrow Hst Hto Hm Hform Hlock Hall.
  assert (H1 : exists s1,
             OrderTransition.post env expire s = (Ret (Redirect (order_url expire s)), s1)
             /\ store s1
                = with_log (log (store s)
                            ++ [LogEntry.mk "pretix.event.order.expired"
                                  (Some (user expire)) []])
                    (with_order_row (Order.with_status Order.STATUS_EXPIRED (order (store s)))
                       (with_order (Order.with_status Order.STATUS_EXPIRED (order (store s)))
                          (store s)))).
  { unfold OrderTransition.post, OrderTransition.transition, dict_get_default,
      Order.status_in.
    rewrite Hto. unfold bind at 1. unfold ask at 1, gets at 1. rewrite Hst. simpl.
    run. eexists. split; reflexivity. }
  destruct H1 as (s1 & Hp1 & Hs1).
  assert (Hown : own_positions s1 = own_positions s).
  { unfold own_positions. rewrite Hs1. reflexivity. }
  assert (Hst1 : Order.status (order (store s1)) <> Order.STATUS_PENDING).
  { rewrite Hs1. simpl. discriminate. }
  rewrite <- Hown in Hall.
  pose proof (extend_revives env extend s1 deadline Hm Hform Hst1 Hlock Hall) as Hp2.
  cbv zeta in Hp2.
  exists s1. eexists. split; [exact Hp1|]. split; [now rewrite Hs1|].
  split.
  { rewrite Hp2. unfold order_url. rewrite Hs1. reflexivity. }
  simpl. rewrite <- Hrow.
  split; [destruct (order (store s)); simpl in *; now subst|].
  split; [reflexivity|]. split; [reflexivity|]. split; [reflexivity|].
  rewrite !map_app. simpl. now rewrite <- app_assoc.
Qed.

Lemma expire_then_extend_restores_pending_witness :
  exists s1 s2,
    OrderTransition.post (Sample.env_of [] true true) (Sample.request_of [("status", "e")])
      Sample.pending
    = (Ret (Redirect (OrderUrl "org" "conf" "ABC12")), s1)
    /\ OrderExtend.post (Sample.env_of [] true true)
         (Sample.request_of [("expires", "200")]) s1
       = (Ret (Redirect (OrderUrl "org" "conf" "ABC12")), s2)
    /\ order_row (store s2) = Order.with_expires 200 Sample.order_ABC12.
Proof.
  destruct (expire_then_extend_restores_pending (Sample.env_of [] true true)
              (Sample.request_of [("status", "e")])
              (Sample.request_of [("expires", "200")]) Sample.pending 200)
    as (s1 & s2 & H1 & _ & H2 & Hrow & _); try reflexivity.
  exists s1, s2. split; [exact H1|]. split; [exact H2|exact Hrow].
Defined.

(** X5. For an order that is Paid, Canceled or Refunded, the extend view
    answers every request with the error "This action is only allowed for
    pending orders." and the redirect to the order, whatever the parent's
    [dispatch] would do, in particular when it would have run [post]; nothing
    else of the state changes. *)
Theorem extend_refused_unless_pending_or_expired (env : Env) (request : Request)
    (super_dispatch : Request -> list PyVal -> Dict PyVal -> Eff St Response)
    (args : list PyVal) (kwargs : Dict PyVal) (s : St) :
  In (Order.status (order (store s)))
     [Order.STATUS_PAID; Order.STATUS_CANCELED; Order.STATUS_REFUNDED] ->
  let s' :=
    with_messages
      (messages s ++ [(ERROR, "This action is only allowed for pending orders.")]) s in
  OrderExtend.dispatch super_dispatch request args kwargs s
  = (Ret (Redirect (order_url request s)), s')
  /\ OrderExtend.dispatch (fun r _ _ => OrderExtend.post env r) request args kwargs s
     = (Ret (Redirect (order_url request s)), s').
Proof.
  intros Hst s'.
  assert (Hin : Order.status_in (order (store s))
                  [Order.STATUS_PENDING; Order.STATUS_EXPIRED] = false).
  { unfold Order.status_in. simpl in Hst.
    destruct Hst as [H|[H|[H|[]]]]; rewrite <- H; reflexivity. }
  unfold OrderExtend.dispatch. run. rewrite Hin. simpl. split; reflexivity.
Qed.

Lemma extend_refused_unless_pending_or_expired_witness :
  OrderExtend.dispatch
    (fun r _ _ => OrderExtend.post (Sample.env_of [] true true) r)
    (Sample.request_of [("expires", "200")]) [] [("code", VStr "ABC12")]
    (Sample.state_of (Order.with_status Order.STATUS_PAID Sample.order_ABC12) [])
  = (Ret (Redirect (OrderUrl "org" "conf" "ABC12")),
     with_messages [(ERROR, "This action is only allowed for pending orders.")]
       (Sample.state_of (Order.with_status Order.STATUS_PAID Sample.order_ABC12) [])).
Proof.
  apply (extend_refused_unless_pending_or_expired (Sample.env_of [] true true)
           (Sample.request_of [("expires", "200")])
           (fun r _ _ => OrderExtend.post (Sample.env_of [] true true) r)
           [] [("code", VStr "ABC12")]
           (Sample.state_of (Order.with_status Order.STATUS_PAID Sample.order_ABC12) [])).
  simpl. auto.
Defined.

(** ** More on invoices *)

Lemma find_none_iff {A} (f : A -> bool) (l : list A) :
  find f l = None <-> forall x, In x l -> f x = false.
Proof.
  split; [apply find_none|].
  induction l as [|a l IH]; simpl; intros H; [reflexivity|].
  rewrite (H a (or_introl eq_refl)). apply IH. intros x Hx. apply H. now right.
Qed.

(** X6. The key in the URL is a number, or the text of one in ASCII digits,
    that a key column of 64 bits can hold, and it names no invoice of this
    order, be it because no invoice has that key or because the invoice with
    that key belongs to another order: regenerate and reissue both answer
    with the error "Unknown invoice." and the redirect to the order, and
    nothing else changes. Keys beyond 64 bits are left out: what the lookup
    does with them is up to the database and not to these views. *)
Theorem unknown_invoice_is_rejected (env : Env) (request : Request) (kwargs : Dict PyVal)
    (s : St) (key : PyVal) (n : Z) :
  dict_get kwargs "id" = Some key ->
  key = VInt n \/ (exists t, key = VStr t /\ int_of_str t = Some n) ->
  - 2 ^ 63 <= n < 2 ^ 63 ->
  (forall i, In i (invoices (store s)) -> Invoice.pk i = n ->
             Invoice.order i <> Order.code (order (store s))) ->
  let s' := with_messages (messages s ++ [(ERROR, "Unknown invoice.")]) s in
  OrderInvoiceRegenerate.post env request kwargs s
  = (Ret (Redirect (order_url request s)), s')
  /\ OrderInvoiceReissue.post env request kwargs s
     = (Ret (Redirect (order_url request s)), s').
Proof.
  intros Hkey Hn _ Hnone s'.
  assert (Hfind : find (fun i => Z.eqb (Invoice.pk i) n
                                 && String.eqb (Invoice.order i)
                                      (Order.code (order (store s))))
                    (invoices (store s)) = None).
  { apply find_none_iff. intros i Hi.
    destruct (Z.eqb_spec (Invoice.pk i) n) as [E|E]; [|reflexivity].
    simpl. apply String.eqb_neq. now apply Hnone. }
  assert (Hget : invoices_get (Some key) s = (Raise DoesNotExist, s)).
  { unfold invoices_get. run.
    destruct Hn as [->|(t & -> & Ht)]; [|rewrite Ht]; now rewrite Hfind. }
  unfold OrderInvoiceRegenerate.post, OrderInvoiceReissue.post.
  rewrite Hkey. unfold bind, try_except_else. rewrite Hget.
  split; reflexivity.
Qed.

Lemma unknown_invoice_is_rejected_witness :
  OrderInvoiceReissue.post (Sample.env_of [] true true) (Sample.request_of [])
    [("id", VStr "1")]
    (Sample.state_of Sample.order_ABC12 [Invoice.mk 1 "ZZZ99" false false None])
  = (Ret (Redirect (OrderUrl "org" "conf" "ABC12")),
     with_messages [(ERROR, "Unknown invoice.")]
       (Sample.state_of Sample.order_ABC12 [Invoice.mk 1 "ZZZ99" false false None])).
Proof.
  apply (unknown_invoice_is_rejected (Sample.env_of [] true true) (Sample.request_of [])
           [("id", VStr "1")]
           (Sample.state_of Sample.order_ABC12 [Invoice.mk 1 "ZZZ99" false false None])
           (VStr "1") 1).
  - reflexivity.
  - right. exists "1". split; reflexivity.
  - lia.
  - intros i [<-|[]] _. discriminate.
Defined.

(** X7. Invoices are not generated on request when the setting
    [invoice_generate] is none of "admin", "user" and "paid", when the order
    does not qualify, or when the order has an invoice already, canceled or
    not: the view answers with one error and the redirect to the order, and
    neither the table of invoices nor the audit log changes. *)
Theorem invoice_create_refused (setting : PyVal) (qualified : bool) (request : Request)
    (s : St) :
  OrderInvoiceCreate.may_generate setting = false
  \/ qualified = false
  \/ (exists i, In i (invoices (store s))
                /\ Invoice.order i = Order.code (order (store s))) ->
  exists msg,
    OrderInvoiceCreate.post setting qualified request s
    = (Ret (Redirect (order_url request s)),
       with_messages (messages s ++ [(ERROR, msg)]) s)
    /\ (msg = "You cannot generate an invoice for this order."
        \/ msg = "An invoice for this order already exists.").
Proof.
  intros H. unfold OrderInvoiceCreate.post. run.
  destruct (negb (OrderInvoiceCreate.may_generate setting) || negb qualified) eqn:E.
  - eexists. split; [reflexivity|now left].
  - destruct H as [H|[H|(i & Hi & Ho)]].
    + rewrite H in E. discriminate.
    + rewrite H, orb_true_r in E. discriminate.
    + assert (Hex : existsb (fun i => String.eqb (Invoice.order i)
                                        (Order.code (order (store s))))
                      (invoices (store s)) = true).
      { apply existsb_exists. exists i. split; [exact Hi|]. now apply String.eqb_eq. }
      rewrite Hex. eexists. split; [reflexivity|now right].
Qed.

Lemma invoice_create_refused_witness :
  OrderInvoiceCreate.post (VStr "admin") true (Sample.request_of [])
    Sample.canceled_invoice
  = (Ret (Redirect (OrderUrl "org" "conf" "ABC12")),
     with_messages [(ERROR, "An invoice for this order already exists.")]
       Sample.canceled_invoice).
Proof.
  destruct (invoice_create_refused (VStr "admin") true (Sample.request_of [])
              Sample.canceled_invoice) as (msg & Hp & _).
  - right. right. eexists. split; [left; reflexivity|reflexivity].
  - rewrite Hp. vm_compute in Hp. inversion Hp as [Hm]. reflexivity.
Defined.

(** X8. The setting allows it, the order qualifies and has no invoice:
    the first request generates one invoice of the order, with a key above
    every key in the table, and writes the audit entry that refers to it; a
    second request right after it is refused, and the table of invoices is
    the one the first request left. Invoices of other orders do not stand in
    the way. *)
Theorem invoice_create_twice_creates_one (setting : PyVal) (request : Request) (s : St) :
  OrderInvoiceCreate.may_generate setting = true ->
  (forall i, In i (invoices (store s)) ->
             Invoice.order i <> Order.code (order (store s))) ->
  let inv :=
    Invoice.mk (fresh_invoice_pk (invoices (store s))) (Order.code (order (store s)))
      false false None in
  exists s1 s2,
    OrderInvoiceCreate.post setting true request s
    = (Ret (Redirect (order_url request s)), s1)
    /\ invoices (store s1) = invoices (store s) ++ [inv]
    /\ (forall i, In i (invoices (store s)) -> Invoice.pk i < Invoice.pk inv)
    /\ log (store s1)
       = log (store s)
         ++ [LogEntry.mk "pretix.event.order.invoice.generated" (Some (user request))
               [("invoice", VInt (Invoice.pk inv))]]
    /\ messages s1 = messages s ++ [(SUCCESS, "The invoice has been generated.")]
    /\ OrderInvoiceCreate.post setting true request s1
       = (Ret (Redirect (order_url request s)), s2)
    /\ store s2 = store s1
    /\ messages s2
       = messages s1 ++ [(ERROR, "An invoice for this order already exists.")].
Proof.
  intros Hset Hnone inv.
  assert (Hex : existsb (fun i => String.eqb (Invoice.order i)
                                    (Order.code (order (store s))))
                  (invoices (store s)) = false).
  { destruct (existsb _ _) eqn:E; [|reflexivity].
    apply existsb_exists in E. destruct E as (i & Hi & Ho).
    apply String.eqb_eq in Ho. now apply Hnone in Hi. }
  assert (Hex1 : existsb (fun i => String.eqb (Invoice.order i)
                                     (Order.code (order (store s))))
                   (invoices (store s) ++ [inv]) = true).
  { rewrite existsb_app. simpl. now rewrite String.eqb_refl, orb_true_r. }
  eexists. eexists.
  split.
  { unfold OrderInvoiceCreate.post, generate_invoice. run.
    rewrite Hset, Hex. simpl. reflexivity. }
  simpl. split; [reflexivity|].
  split; [intros i Hi; now apply fresh_invoice_pk_above|].
  split; [reflexivity|]. split; [reflexivity|].
  split.
  { unfold OrderInvoiceCreate.post. run. rewrite Hset. simpl.
    fold inv. rewrite Hex1. reflexivity. }
  simpl. split; reflexivity.
Qed.

Lemma invoice_create_twice_creates_one_witness :
  exists s1 s2,
    OrderInvoiceCreate.post (VStr "paid") true (Sample.request_of [])
      (Sample.state_of Sample.order_ABC12 [Invoice.mk 1 "ZZZ99" false false None])
    = (Ret (Redirect (OrderUrl "org" "conf" "ABC12")), s1)
    /\ invoices (store s1)
       = [Invoice.mk 1 "ZZZ99" false false None; Invoice.mk 2 "ABC12" false false None]
    /\ OrderInvoiceCreate.post (VStr "paid") true (Sample.request_of []) s1
       = (Ret (Redirect (OrderUrl "org" "conf" "ABC12")), s2)
    /\ store s2 = store s1.
Proof.
  destruct (invoice_create_twice_creates_one (VStr "paid") (Sample.request_of [])
              (Sample.state_of Sample.order_ABC12 [Invoice.mk 1 "ZZZ99" false false None]))
    as (s1 & s2 & H1 & Hinv & _ & _ & _ & H2 & Hst & _).
  - reflexivity.
  - intros i [<-|[]]. discriminate.
  - exists s1, s2. split; [exact H1|]. split; [exact Hinv|]. split; [exact H2|exact Hst].
Defined.

(** ** Item and variation of a form *)

Lemma split_occurrences (c : ascii) (s : string) :
  length (OrderChange.split c s) = S (occurrences c s).
Proof.
  induction s as [|a s IH]; simpl; [reflexivity|].
  destruct (Ascii.eqb a c); simpl; [now rewrite IH|].
  destruct (OrderChange.split c s); simpl in *; [discriminate|exact IH].
Qed.

Lemma contains_occurrences (c : ascii) (s : string) :
  OrderChange.contains c s = negb (Nat.eqb (occurrences c s) 0).
Proof.
  induction s as [|a s IH]; simpl; [reflexivity|].
  rewrite Ascii.eqb_sym. destruct (Ascii.eqb a c); simpl; [reflexivity|exact IH].
Qed.

Lemma split_free (c : ascii) (s : string) :
  occurrences c s = O -> OrderChange.split c s = [s].
Proof.
  induction s as [|a s IH]; simpl; [reflexivity|].
  destruct (Ascii.eqb a c); simpl; [discriminate|].
  intros H. now rewrite (IH H).
Qed.

Lemma split_trailing (c : ascii) (s : string) :
  occurrences c s = O ->
  OrderChange.split c (s ++ String c EmptyString) = [s; EmptyString].
Proof.
  induction s as [|a s IH]; simpl.
  - now rewrite Ascii.eqb_refl.
  - destruct (Ascii.eqb a c); simpl; [discriminate|].
    intros H. now rewrite (IH H).
Qed.

Lemma occurrences_app (c : ascii) (a b : string) :
  occurrences c (a ++ b) = (occurrences c a + occurrences c b)%nat.
Proof.
  induction a as [|x a IH]; simpl; [reflexivity|]. rewrite IH. apply Nat.add_assoc.
Qed.

(** X9. Taking a string apart at a separator and joining the parts with it
    gives the string back; the parts hold no separator, and there is one part
    more than there are separators, so never none. *)
Theorem split_then_join (c : ascii) (s : string) :
  join c (OrderChange.split c s) = s
  /\ Forall (fun part => occurrences c part = O) (OrderChange.split c s)
  /\ length (OrderChange.split c s) = S (occurrences c s).
Proof.
  split; [|split; [|apply split_occurrences]].
  - induction s as [|a s IH]; simpl; [reflexivity|].
    destruct (Ascii.eqb_spec a c) as [->|Hne].
    + pose proof (split_occurrences c s) as Hlen.
      destruct (OrderChange.split c s) as [|h t]; [discriminate|].
      simpl. simpl in IH. now rewrite IH.
    + pose proof (split_occurrences c s) as Hlen.
      destruct (OrderChange.split c s) as [|h t]; [discriminate|].
      simpl in *. destruct t as [|h' t]; simpl in *; now rewrite <- IH.
  - induction s as [|a s IH]; simpl; [repeat constructor|].
    destruct (Ascii.eqb a c) eqn:E; [constructor; [reflexivity|exact IH]|].
    destruct (OrderChange.split c s) as [|h t]; [repeat constructor; simpl; now rewrite E|].
    inversion IH; subst. constructor; [simpl; now rewrite E|assumption].
Qed.

Section Resolve.

Context (env : Env) (request : Request).

(** X10. What [resolve] answers is an item of the catalogue that belongs to
    the event of the request and, if any, a variation of the catalogue that
    belongs to that item; looking them up changes nothing. *)
Theorem resolve_stays_within_event (iv : string) (s s' : St) (item : Item.t)
    (variation : option ItemVariation.t) :
  OrderChange.resolve env request iv s = (Ret (item, variation), s') ->
  s' = s
  /\ In item (Item_objects env)
  /\ Item.event item = event_slug request
  /\ forall v, variation = Some v ->
               In v (ItemVariation_objects env) /\ ItemVariation.item v = Item.pk item.
Proof.
  unfold OrderChange.resolve, OrderChange.Item_objects_get,
    OrderChange.ItemVariation_objects_get.
  assert (Hitem : forall (n : Z) (i : Item.t),
            find (fun i => Z.eqb (Item.pk i) n
                           && String.eqb (Item.event i) (event_slug request))
              (Item_objects env) = Some i ->
            In i (Item_objects env) /\ Item.event i = event_slug request).
  { intros n i H. apply find_some in H. destruct H as [Hin H].
    apply andb_true_iff in H. destruct H as [_ H]. apply String.eqb_eq in H. auto. }
  assert (Hvar : forall (n : Z) (i : Item.t) (v : ItemVariation.t),
            find (fun v => Z.eqb (ItemVariation.pk v) n
                           && Z.eqb (ItemVariation.item v) (Item.pk i))
              (ItemVariation_objects env) = Some v ->
            In v (ItemVariation_objects env) /\ ItemVariation.item v = Item.pk i).
  { intros n i v H. apply find_some in H. destruct H as [Hin H].
    apply andb_true_iff in H. destruct H as [_ H]. apply Z.eqb_eq in H. auto. }
  destruct (OrderChange.contains "-" iv).
  - destruct (OrderChange.split "-" iv) as [|a [|b [|c l]]]; run; try discriminate.
    destruct (int_of_str a) as [n|]; [|discriminate].
    destruct (find _ (Item_objects env)) as [i|] eqn:Ei; [|discriminate].
    destruct (Hitem n i Ei) as [Hin Hev].
    destruct b as [|x b].
    + intros H. inversion H; subst. split; [reflexivity|]. split; [exact Hin|].
      split; [exact Hev|]. intros v0 Hv; discriminate.
    + destruct (int_of_str (String x b)) as [m|]; [|discriminate].
      destruct (find _ (ItemVariation_objects env)) as [v|] eqn:Ev; [|discriminate].
      intros H. inversion H; subst. split; [reflexivity|]. split; [exact Hin|].
      split; [exact Hev|]. intros v0 Hv. inversion Hv; subst.
      now apply (Hvar m item v0).
  - run. destruct (int_of_str iv) as [n|]; [|discriminate].
    destruct (find _ (Item_objects env)) as [i|] eqn:Ei; [|discriminate].
    destruct (Hitem n i Ei) as [Hin Hev].
    intros H. inversion H; subst. split; [reflexivity|]. split; [exact Hin|].
    split; [exact Hev|]. intros v0 Hv; discriminate.
Qed.

Lemma resolve_two_separators (iv : string) (s : St) :
  (2 <= occurrences "-" iv)%nat ->
  OrderChange.resolve env request iv s = (Raise ValueError, s).
Proof.
  intros H. unfold OrderChange.resolve.
  rewrite contains_occurrences.
  pose proof (split_occurrences "-" iv) as Hlen.
  destruct (occurrences "-" iv) as [|[|n]]; try lia. simpl negb. cbv iota.
  destruct (OrderChange.split "-" iv) as [|a [|b [|c l]]]; simpl in Hlen; try lia.
  reflexivity.
Qed.

(** X11. A dash at the end of [itemvar] stands for no variation: for text
    without a dash, [resolve] answers the same with and without a dash
    appended. *)
Theorem resolve_ignores_trailing_dash (item_text : string) (s : St) :
  occurrences "-" item_text = O ->
  OrderChange.resolve env request (item_text ++ "-") s
  = OrderChange.resolve env request item_text s.
Proof.
  intros H. unfold OrderChange.resolve.
  rewrite !contains_occurrences, occurrences_app, H. simpl.
  rewrite (split_trailing "-" item_text H). unfold bind. simpl.
  destruct (OrderChange.Item_objects_get env request item_text s) as [[i|e] s0];
    reflexivity.
Qed.

End Resolve.

Lemma resolve_stays_within_event_witness :
  Item.event (Item.mk 11 "conf") = "conf"
  /\ In (Item.mk 11 "conf") (Item_objects (Sample.env_of [] true true)).
Proof.
  destruct (resolve_stays_within_event (Sample.env_of [] true true) (Sample.request_of [])
              "11" Sample.pending Sample.pending (Item.mk 11 "conf") None eq_refl)
    as (_ & Hin & Hev & _).
  split; [exact Hev|exact Hin].
Defined.

Lemma resolve_ignores_trailing_dash_witness :
  OrderChange.resolve (Sample.env_of [] true true) (Sample.request_of []) "11-"
    Sample.pending
  = (Ret (Item.mk 11 "conf", None), Sample.pending).
Proof.
  refine (eq_trans (resolve_ignores_trailing_dash (Sample.env_of [] true true)
                      (Sample.request_of []) "11" Sample.pending eq_refl) _).
  reflexivity.
Defined.

(** ** Batches that end early, and batches without an operation *)

Section BatchEdges.

Context (env : Env) (M : ChangeManager) (request : Request).

(** X12. The add form is valid and asks for a position, and its [itemvar]
    holds more than one dash: unpacking the split raises [ValueError], which
    no handler of the view catches. The request ends with that exception;
    the manager was created but received no call, no message was added and
    nothing is stored. *)
Theorem add_with_two_dashes_raises (cleaned_data : AddData) (s : St) :
  OrderChange.add_form env request = Some cleaned_data ->
  add_do cleaned_data = true ->
  (2 <= occurrences "-" (add_itemvar cleaned_data))%nat ->
  OrderChange.post env M request s
  = (Raise ValueError, with_trace (trace s ++ [EvManagerCreated]) s).
Proof.
  intros Hform Hdo Hocc.
  unfold OrderChange.post, OrderChange._process_add.
  rewrite Hform, Hdo.
  unfold bind at 1. unfold ask at 1, gets at 1.
  unfold bind at 1. unfold emit at 1, modify at 1.
  unfold bind at 1. unfold bind at 1.
  now rewrite (resolve_two_separators env request _ _ Hocc).
Qed.

(** X13. The add form is not valid: the page is shown again with the
    general error, and although the manager was created, no position was
    looked at: no call was made, nothing was committed and no error was
    attached, whatever the forms of the positions ask for. *)
Theorem invalid_add_form_ends_the_batch (s : St) :
  OrderChange.add_form env request = None ->
  OrderChange.post env M request s
  = (Ret (Render "pretixcontrol/order/change.html"),
     with_messages
       (messages s ++ [(ERROR, "An error occured. Please see the details below.")])
       (with_trace (trace s ++ [EvManagerCreated]) s)).
Proof.
  intros Hform. unfold OrderChange.post, OrderChange._process_add.
  rewrite Hform. reflexivity.
Qed.

Lemma process_positions_idle (ps : list OrderPosition.t) (o : ocm M) (s : St) :
  (forall p, In p ps ->
             exists cleaned_data,
               OrderChange.form env request p = Some cleaned_data /\ idle cleaned_data) ->
  OrderChange.process_positions env M request ps o s = (Ret (true, o), s).
Proof.
  induction ps as [|p rest IH]; intros H; simpl; [reflexivity|].
  destruct (H p (or_introl eq_refl)) as (d & Hd & Hp & Hr & Hs & Hc).
  rewrite Hd. unfold try_except_else, OrderChange.change.
  rewrite (eqb_neq_false _ _ Hp), (eqb_neq_false _ _ Hr), (eqb_neq_false _ _ Hs),
    (eqb_neq_false _ _ Hc).
  unfold ret at 1. apply IH. intros q Hq. apply H. now right.
Qed.

(** X14. The add form is valid and asks for nothing, and every position's
    form is valid and names none of the four operations: commit is called
    all the same, on the manager as it was created, and is the only call.
    What commit leaves of the shared state is what the request leaves. *)
Theorem empty_batch_is_committed (cleaned_data : AddData) (s : St) :
  OrderChange.add_form env request = Some cleaned_data ->
  add_do cleaned_data = false ->
  (forall p, In p (own_positions s) ->
             exists d, OrderChange.form env request p = Some d /\ idle d) ->
  exists x w r s',
    commit M (OrderChangeManager M (order (store s)) (user request)) env (store s) = (x, w)
    /\ OrderChange.post env M request s = (r, s')
    /\ store s' = w
    /\ trace s'
       = trace s
         ++ [EvManagerCreated;
             EvCommit (match x with Ret _ => None | Raise e => Some e end)]
    /\ custom_error s' = custom_error s
    /\ add_form_custom_error s' = add_form_custom_error s.
Proof.
  intros Hform Hdo Hidle.
  destruct (commit M (OrderChangeManager M (order (store s)) (user request)) env (store s))
    as [x w] eqn:Hc.
  exists x, w.
  unfold OrderChange.post, OrderChange._process_add, OrderChange._process_change.
  rewrite Hform, Hdo.
  unfold bind at 1. unfold ask at 1, gets at 1.
  unfold bind at 1. unfold emit at 1, modify at 1.
  unfold bind at 1. unfold ret at 1. cbn [fst snd].
  unfold bind at 1. unfold bind at 1. unfold ask at 1, gets at 1.
  unfold bind at 1. unfold ask at 1, gets at 1.
  rewrite process_positions_idle by exact Hidle.
  cbn [fst snd negb].
  unfold bind at 1. unfold try_except_else at 1.
  unfold OrderChange.call_commit, try_except_else, lift. simpl store. rewrite Hc.
  destruct x as [[]|e]; [|destruct e]; run; eexists; eexists;
    (split; [reflexivity|]); simpl; repeat split; now flatten.
Qed.

End BatchEdges.

Lemma add_with_two_dashes_raises_witness :
  OrderChange.post (Sample.env_of [] true true) SpecManager.manager
    (Sample.request_of [("add-do", "on"); ("add-itemvar", "11-2-3"); ("add-price", "5")])
    Sample.pending
  = (Raise ValueError, with_trace [EvManagerCreated] Sample.pending).
Proof.
  apply (add_with_two_dashes_raises (Sample.env_of [] true true) SpecManager.manager
           (Sample.request_of
              [("add-do", "on"); ("add-itemvar", "11-2-3"); ("add-price", "5")])
           (mkAddData true "11-2-3" (Some 5) None None) Sample.pending);
    [reflexivity| reflexivity| simpl; lia].
Defined.

Lemma invalid_add_form_ends_the_batch_witness :
  OrderChange.post (Sample.env_of [] true true) SpecManager.manager
    (Sample.request_of [("add-do", "on"); ("op-1-operation", "cancel")]) Sample.pending
  = (Ret (Render "pretixcontrol/order/change.html"),
     with_messages [(ERROR, "An error occured. Please see the details below.")]
       (with_trace [EvManagerCreated] Sample.pending)).
Proof.
  apply (invalid_add_form_ends_the_batch (Sample.env_of [] true true) SpecManager.manager
           (Sample.request_of [("add-do", "on"); ("op-1-operation", "cancel")])
           Sample.pending).
  reflexivity.
Defined.

Lemma empty_batch_is_committed_witness :
  exists r s',
    OrderChange.post (Sample.env_of [] true true) SpecManager.manager
      (Sample.request_of []) Sample.pending = (r, s')
    /\ trace s' = [EvManagerCreated; EvCommit None].
Proof.
  destruct (empty_batch_is_committed (Sample.env_of [] true true) SpecManager.manager
              (Sample.request_of []) (mkAddData false EmptyString None None None)
              Sample.pending)
    as (x & w & r & s' & Hc & Hp & _ & Htr & _).
  - reflexivity.
  - reflexivity.
  - intros p _. exists (mkChangeData EmptyString EmptyString 0 None).
    split; [reflexivity|]. repeat split; discriminate.
  - exists r, s'. split; [exact Hp|]. rewrite Htr.
    vm_compute in Hc. inversion Hc. reflexivity.
Defined.

(** ** Finding an order by what was typed *)

Lemma prefix_app (a b : string) : String.prefix a (a ++ b) = true.
Proof.
  induction a as [|c a IH]; simpl; [now destruct b|].
  destruct (ascii_dec c c); [exact IH|contradiction].
Qed.

Lemma startswith_app (a b : string) : OrderGo.startswith (a ++ b) a = true.
Proof. apply prefix_app. Qed.

Lemma drop_app (a b : string) : OrderGo.drop (String.length a) (a ++ b) = b.
Proof. induction a as [|c a IH]; simpl; [now destruct b|exact IH]. Qed.

Lemma upper_length (s : string) : String.length (OrderGo.upper s) = String.length s.
Proof. induction s as [|c s IH]; simpl; [reflexivity|now rewrite IH]. Qed.

Lemma find_code (orders : list Order.t) (o : Order.t) :
  In o orders ->
  exists o', find (fun x => String.eqb (Order.code x) (Order.code o)) orders = Some o'
             /\ Order.code o' = Order.code o.
Proof.
  induction orders as [|x orders IH]; simpl; [tauto|].
  intros H. destruct (String.eqb_spec (Order.code x) (Order.code o)) as [E|E].
  - now exists x.
  - destruct H as [->|H]; [contradiction|auto].
Qed.

Lemma find_no_code (orders : list Order.t) (code : string) :
  (forall o, In o orders -> Order.code o <> code) ->
  find (fun x => String.eqb (Order.code x) code) orders = None.
Proof.
  intros H. apply find_none_iff. intros o Ho. apply String.eqb_neq. now apply H.
Qed.

Section Go.

Context (normalize_code : string -> string) (orders : list Order.t) (request : Request).

Let typed : string := dict_get_default (GET request) "code" EmptyString.

Let missing : Message := (ERROR, "There is no order with the given order code.").

(** X15. Whatever was typed, and also when nothing was, the view answers
    with a redirect and never with an exception: either to an order of the
    event, leaving the state as it is, or to the list of orders, with the one
    error that there is no such order. *)
Theorem go_always_redirects (s : St) :
  exists route s',
    OrderGo.get normalize_code orders request s = (Ret route, s')
    /\ ((exists o, In o orders
                   /\ route = OrderGo.EventOrder (organizer_slug request)
                                (event_slug request) (Order.code o)
                   /\ s' = s)
        \/ (route = OrderGo.EventOrders (organizer_slug request) (event_slug request)
            /\ s' = with_messages (messages s ++ [missing]) s)).
Proof.
  unfold OrderGo.get, OrderGo.get_order, OrderGo.Order_objects_get, try_except_else.
  match goal with |- context [find ?f orders] =>
    destruct (find f orders) as [o|] eqn:E1 end.
  - eexists. eexists. split; [reflexivity|]. left. exists o.
    split; [now apply find_some in E1|auto].
  - cbn [does_not_exist raise].
    match goal with |- context [find ?f orders] =>
      destruct (find f orders) as [o|] eqn:E2 end.
    + eexists. eexists. split; [reflexivity|]. left. exists o.
      split; [now apply find_some in E2|auto].
    + eexists. eexists. split; [reflexivity|]. right. split; reflexivity.
Qed.

(** X16. The text typed is ASCII; trimmed and in upper case it is the slug
    of the event in upper case followed by the code of an order of the event,
    with a dash between the two or, if the code does not begin with a dash,
    with nothing between them: the view redirects to that order and adds no
    message. So "conf-abc12" finds the order ABC12 of the event "conf". *)
Theorem go_accepts_slug_and_dash (o : Order.t) (sep : string) (s : St) :
  OrderGo.ascii_only typed = true ->
  OrderGo.ascii_only (event_slug request) = true ->
  In o orders ->
  sep = "-" \/ (sep = EmptyString /\ OrderGo.startswith (Order.code o) "-" = false) ->
  OrderGo.strip (OrderGo.upper typed)
  = (OrderGo.upper (event_slug request) ++ sep ++ Order.code o)%string ->
  OrderGo.get normalize_code orders request s
  = (Ret (OrderGo.EventOrder (organizer_slug request) (event_slug request) (Order.code o)),
     s).
Proof.
  intros _ _ Hin Hsep Htyped.
  destruct (find_code orders o Hin) as (o' & Hfind & Hcode).
  unfold OrderGo.get. fold typed. rewrite Htyped.
  rewrite startswith_app, <- (upper_length (event_slug request)), drop_app.
  assert (Hrest : (if OrderGo.startswith (sep ++ Order.code o) "-"
                   then OrderGo.drop 1 (sep ++ Order.code o)
                   else (sep ++ Order.code o)%string) = Order.code o).
  { destruct Hsep as [->|[-> Hno]]; simpl.
    - unfold OrderGo.startswith. simpl. now destruct (Order.code o).
    - now rewrite Hno. }
  rewrite Hrest.
  unfold OrderGo.get_order, OrderGo.Order_objects_get, try_except_else.
  rewrite Hfind. unfold ret. now rewrite Hcode.
Qed.

(** X17. The code of an order of the event begins with the slug of the
    event in upper case, and what follows the slug does not begin with a dash
    and is, as it stands and normalised, the code of no order: typing the
    code of that order, in ASCII, does not find it. The view cuts the slug
    off, looks for the rest, and answers with the error and the redirect to
    the list. *)
Theorem go_misses_code_that_begins_with_slug (o : Order.t) (rest : string) (s : St) :
  OrderGo.ascii_only typed = true ->
  OrderGo.ascii_only (event_slug request) = true ->
  In o orders ->
  Order.code o = (OrderGo.upper (event_slug request) ++ rest)%string ->
  OrderGo.strip (OrderGo.upper typed) = Order.code o ->
  OrderGo.startswith rest "-" = false ->
  (forall x, In x orders -> Order.code x <> rest /\ Order.code x <> normalize_code rest) ->
  OrderGo.get normalize_code orders request s
  = (Ret (OrderGo.EventOrders (organizer_slug request) (event_slug request)),
     with_messages (messages s ++ [missing]) s).
Proof.
  intros _ _ _ Hcode Htyped Hdash Hnone.
  unfold OrderGo.get. fold typed. rewrite Htyped, Hcode.
  rewrite startswith_app, <- (upper_length (event_slug request)), drop_app, Hdash.
  unfold OrderGo.get_order, OrderGo.Order_objects_get, try_except_else.
  rewrite (find_no_code orders rest) by (intros x Hx; now apply Hnone).
  cbn [does_not_exist raise].
  rewrite (find_no_code orders (normalize_code rest)) by (intros x Hx; now apply Hnone).
  reflexivity.
Qed.

End Go.

Lemma go_accepts_slug_and_dash_witness :
  OrderGo.get (fun c => c) [Sample.order_ABC12]
    (mkRequest "GET" [] [("code", " conf-abc12 ")] "admin" "conf" "org") Sample.pending
  = (Ret (OrderGo.EventOrder "org" "conf" "ABC12"), Sample.pending).
Proof.
  apply (go_accepts_slug_and_dash (fun c => c) [Sample.order_ABC12]
           (mkRequest "GET" [] [("code", " conf-abc12 ")] "admin" "conf" "org")
           Sample.order_ABC12 "-" Sample.pending);
    [reflexivity | reflexivity | now left | now left | reflexivity].
Defined.

Lemma go_misses_code_that_begins_with_slug_witness :
  OrderGo.get (fun c => c)
    [Order.mk "CONF7" Order.STATUS_PENDING 100 "a@example.org" "s1" false]
    (mkRequest "GET" [] [("code", "CONF7")] "admin" "conf" "org") Sample.pending
  = (Ret (OrderGo.EventOrders "org" "conf"),
     with_messages [(ERROR, "There is no order with the given order code.")]
       Sample.pending).
Proof.
  apply (go_misses_code_that_begins_with_slug (fun c => c)
           [Order.mk "CONF7" Order.STATUS_PENDING 100 "a@example.org" "s1" false]
           (mkRequest "GET" [] [("code", "CONF7")] "admin" "conf" "org")
           (Order.mk "CONF7" Order.STATUS_PENDING 100 "a@example.org" "s1" false)
           "7" Sample.pending);
    try reflexivity.
  - now left.
  - intros x [<-|[]]. split; discriminate.
Defined.

(** ** Sending the link again *)

(** X18. The link is sent again: the view always answers with the redirect
    to the order and touches nothing of the order. If the mail goes out, the
    operator is told so and the audit log grows by the entry of the resend;
    if it does not, the operator is shown the error and the audit log is what
    it was. *)
Theorem resend_is_logged_only_when_sent (env : Env) (request : Request) (s : St) :
  exists s',
    OrderResendLink.post env request s = (Ret (Redirect (order_url request s)), s')
    /\ order (store s') = order (store s)
    /\ order_row (store s') = order_row (store s)
    /\ trace s'
       = trace s
         ++ EvMail (mail_delivered env)
            :: (if mail_delivered env then [EvLog "pretix.event.order.resend"] else [])
    /\ log (store s')
       = log (store s)
         ++ (if mail_delivered env
             then [LogEntry.mk "pretix.event.order.resend" (Some (user request)) []]
             else [])
    /\ messages s'
       = messages s
         ++ [if mail_delivered env
             then (SUCCESS, "The email has been queued to be sent.")
             else (ERROR, "There was an error sending the mail. Please try again later.")].
Proof.
  unfold OrderResendLink.post, mail, messages_success, messages_error,
    OrderView.get_order_url.
  destruct (mail_delivered env); run; eexists; (split; [reflexivity|]); simpl;
    repeat split; rewrite ?app_nil_r; now flatten.
Qed.

(** ** The order of the calls on positions *)

Section CallOrder.

Context (env : Env) (M : ChangeManager) (request : Request).

Lemma change_not_asked (o : ocm M) (p : OrderPosition.t) (d : ChangeData) (s : St) :
  existsb (String.eqb (operation d)) ["product"; "price"; "subevent"; "cancel"] = false ->
  OrderChange.change env M request o p d s = (Ret o, s).
Proof.
  simpl. intros H. unfold OrderChange.change.
  destruct (String.eqb (operation d) "product"); [discriminate|].
  destruct (String.eqb (operation d) "price"); [discriminate|].
  destruct (String.eqb (operation d) "subevent"); [discriminate|].
  destruct (String.eqb (operation d) "cancel"); [discriminate|reflexivity].
Qed.

Lemma change_asked (o : ocm M) (p : OrderPosition.t) (d : ChangeData) (s : St) :
  existsb (String.eqb (operation d)) ["product"; "price"; "subevent"; "cancel"] = true ->
  (exists e, OrderChange.change env M request o p d s = (Raise e, s)
             /\ forall msg, e <> OrderError msg)
  \/ (exists o',
        OrderChange.change env M request o p d s
        = (Ret o',
           with_trace (trace s ++ [EvManagerCall (Some (OrderPosition.pk p)) None]) s))
  \/ (exists msg,
        OrderChange.change env M request o p d s
        = (Raise (OrderError msg),
           with_trace
             (trace s ++ [EvManagerCall (Some (OrderPosition.pk p)) (Some msg)]) s)).
Proof.
  intros H.
  destruct (change_run env M request o p d s) as [(r & Hr & Hne)|Hcall]; [|now right].
  destruct r as [o'|e].
  - exfalso. revert Hr. unfold OrderChange.change.
    destruct (String.eqb (operation d) "product") eqn:E1.
    { unfold bind. destruct (resolve_reads env request (itemvar d) s) as (r & Hr & _).
      rewrite Hr. destruct r as [iv|e]; [|discriminate].
      destruct (call_run M (Some (OrderPosition.pk p))
                  (change_item M o p (fst iv) (snd iv)) s)
        as [(o1 & _ & Hc)|(msg & _ & Hc)]; rewrite Hc; intros Heq; inversion Heq as [[Ho Hs]].
      destruct s; unfold with_trace in Hs; simpl in Hs.
      inversion Hs as [Ht]. apply (f_equal (@length Effect)) in Ht.
      rewrite length_app in Ht. simpl in Ht. lia. }
    assert (Hgrow : forall (r : string + ocm M) (o1 : ocm M),
              OrderChange.call M (Some (OrderPosition.pk p)) r s <> (Ret o1, s)).
    { intros r o1 Heq.
      destruct (call_run M (Some (OrderPosition.pk p)) r s)
        as [(o2 & _ & Hc)|(msg & _ & Hc)]; rewrite Hc in Heq; inversion Heq as [[Ho Hs]].
      destruct s; unfold with_trace in Hs; simpl in Hs.
      inversion Hs as [Ht]. apply (f_equal (@length Effect)) in Ht.
      rewrite length_app in Ht. simpl in Ht. lia. }
    simpl in H. rewrite E1 in H. simpl in H.
    destruct (String.eqb (operation d) "price"); [apply Hgrow|].
    destruct (String.eqb (operation d) "subevent"); [apply Hgrow|].
    destruct (String.eqb (operation d) "cancel"); [apply Hgrow|discriminate].
  - left. exists e. split; [exact Hr|]. intros msg Hm. apply (Hne msg). now rewrite Hm.
Qed.

Lemma process_positions_order (ps : list OrderPosition.t) :
  forall (o : ocm M) (s : St),
  exists tr k r s',
    OrderChange.process_positions env M request ps o s = (r, s')
    /\ trace s' = trace s ++ tr
    /\ Forall position_call tr
    /\ position_keys tr
       = firstn k (map OrderPosition.pk (filter (asks env request) ps))
    /\ forall o', r = Ret (true, o') ->
                  position_keys tr
                  = map OrderPosition.pk (filter (asks env request) ps).
Proof.
  induction ps as [|p rest IH]; intros o s; simpl.
  - exists [], O. eexists. eexists. split; [reflexivity|].
    simpl. rewrite app_nil_r. repeat split; auto.
  - destruct (OrderChange.form env request p) as [d|] eqn:Hform.
    2:{ exists [], O. eexists. eexists. split; [reflexivity|].
        simpl. rewrite app_nil_r. repeat split; auto. intros o' H. discriminate. }
    assert (Ha : asks env request p
                 = existsb (String.eqb (operation d))
                     ["product"; "price"; "subevent"; "cancel"])
      by (unfold asks; now rewrite Hform).
    rewrite Ha. unfold try_except_else.
    destruct (existsb (String.eqb (operation d)) _) eqn:Hasks.
    + destruct (change_asked o p d s Hasks) as [(e & Hc & Hne)|[(o' & Hc)|(msg & Hc)]];
        rewrite Hc.
      * exists [], O. eexists. eexists.
        split; [destruct e; try reflexivity; exfalso; now apply (Hne msg)|].
        simpl. rewrite app_nil_r. repeat split; auto.
        intros o' H. destruct e; discriminate.
      * destruct (IH o' (with_trace
                           (trace s ++ [EvManagerCall (Some (OrderPosition.pk p)) None]) s))
          as (tr & k & r & s' & Hrun & Htr & Hcalls & Hkeys & Hall).
        exists (EvManagerCall (Some (OrderPosition.pk p)) None :: tr), (S k), r, s'.
        split; [exact Hrun|]. simpl in Htr.
        split; [now rewrite Htr, <- app_assoc|].
        split; [constructor; [now exists (OrderPosition.pk p), None|exact Hcalls]|].
        simpl. split; [now rewrite Hkeys|].
        intros o'' H. now rewrite (Hall o'' H).
      * exists [EvManagerCall (Some (OrderPosition.pk p)) (Some msg)], 1%nat.
        eexists. eexists. split; [reflexivity|]. simpl.
        split; [reflexivity|].
        split; [constructor; [now exists (OrderPosition.pk p), (Some msg)|constructor]|].
        split; [reflexivity|]. intros o' H. discriminate.
    + rewrite (change_not_asked o p d s Hasks). apply IH.
Qed.

(** X19. [_process_change] calls the manager for the positions of the order
    in the order of the table, for those only whose form is valid and names
    an operation, none of them twice and none skipped: the keys of the calls
    are a beginning of the keys of these positions, and all of them whenever
    [True] is answered. *)
Theorem positions_are_called_in_order (o : ocm M) (s : St) :
  exists tr k r s',
    OrderChange._process_change env M request o s = (r, s')
    /\ trace s' = trace s ++ tr
    /\ Forall position_call tr
    /\ position_keys tr
       = firstn k (map OrderPosition.pk (filter (asks env request) (own_positions s)))
    /\ forall o', r = Ret (true, o') ->
                  position_keys tr
                  = map OrderPosition.pk (filter (asks env request) (own_positions s)).
Proof.
  unfold OrderChange._process_change. run.
  apply (process_positions_order (positions_of (order (store s)) (positions (store s))) o s).
Qed.

End CallOrder.
